(** * Teams / Snowflake bot: the SSE delta pipeline, response synthesis and
      the CSV formatter, embedded from [src/bot.js] and
      [src/services/snowflakeService.js].

    JavaScript strings are sequences of UTF-16 code units; they are modelled
    as [list N].  Node [Buffer]s are sequences of bytes, also [list N].
    Payloads are read at the types of the agent API: a text is a string, a
    tool result a sequence of items, a row an object with string values.
    Timestamps ([new Date().toISOString()]) and the output printed under the
    [DEBUG] / [SHOW_DELTA_MESSAGES] flags are left out of the records. *)

From Stdlib Require Import Ascii String.
From Stdlib Require Import List NArith Arith Bool Lia.
Import ListNotations.

Set Implicit Arguments.

(* ================================================================== *)
(** * Part I: definitions *)
(* ================================================================== *)

(** ** JavaScript strings and the [String.prototype] methods the code uses *)

Module JS.

Definition jsstring := list N.

(** An ASCII literal as a JavaScript string. *)
Definition js (s : string) : jsstring :=
  map N_of_ascii (list_ascii_of_string s).
Arguments js s%_string.

Fixpoint eqs (s t : jsstring) : bool :=
  match s, t with
  | [], [] => true
  | c :: s', d :: t' => N.eqb c d && eqs s' t'
  | _, _ => false
  end.

(** [s.startsWith(p)] *)
Fixpoint startsWith (p s : jsstring) : bool :=
  match p, s with
  | [], _ => true
  | c :: p', d :: s' => N.eqb c d && startsWith p' s'
  | _ :: _, [] => false
  end.

(** [s.includes(sub)] *)
Fixpoint includes (s sub : jsstring) : bool :=
  startsWith sub s ||
  match s with
  | [] => false
  | _ :: s' => includes s' sub
  end.

(** ECMAScript [WhiteSpace] and [LineTerminator] code units: what
    [trim] strips and what [\s] matches. *)
Definition is_line_terminator (c : N) : bool :=
  N.eqb c 10 || N.eqb c 13 || N.eqb c 8232 || N.eqb c 8233.

Definition is_ws (c : N) : bool :=
  N.eqb c 9 || N.eqb c 11 || N.eqb c 12 || N.eqb c 32 || N.eqb c 160 ||
  N.eqb c 5760 || (N.leb 8192 c && N.leb c 8202) || N.eqb c 8239 ||
  N.eqb c 8287 || N.eqb c 12288 || N.eqb c 65279 || is_line_terminator c.

Fixpoint dropWhile (p : N -> bool) (s : jsstring) : jsstring :=
  match s with
  | [] => []
  | c :: s' => if p c then dropWhile p s' else s
  end.

Fixpoint takeWhile (p : N -> bool) (s : jsstring) : jsstring :=
  match s with
  | [] => []
  | c :: s' => if p c then c :: takeWhile p s' else []
  end.

Definition trimStart (s : jsstring) : jsstring := dropWhile is_ws s.
Definition trimEnd (s : jsstring) : jsstring := rev (dropWhile is_ws (rev s)).
Definition trim (s : jsstring) : jsstring := trimEnd (trimStart s).

(** A string is truthy when it is not empty. *)
Definition truthy (s : jsstring) : bool :=
  match s with [] => false | _ :: _ => true end.

(** [o || d] for a possibly absent string property. *)
Definition or_else (o : option jsstring) (d : jsstring) : jsstring :=
  match o with
  | Some (c :: s) => c :: s
  | _ => d
  end.

Definition cons_hd (c : N) (l : list jsstring) : list jsstring :=
  match l with
  | [] => [[c]]
  | h :: t => (c :: h) :: t
  end.

(** [s.split(sep)] for a separator of one code unit. *)
Fixpoint split1 (sep : N) (s : jsstring) : list jsstring :=
  match s with
  | [] => [[]]
  | c :: s' => if N.eqb c sep then [] :: split1 sep s'
               else cons_hd c (split1 sep s')
  end.

(** [s.split(sep)] for a separator of two code units [a b]: matches are
    taken leftmost first and do not overlap. *)
Fixpoint split2 (a b : N) (s : jsstring) : list jsstring :=
  match s with
  | [] => [[]]
  | c :: s' =>
      match s' with
      | [] => [[c]]
      | d :: s'' =>
          if N.eqb c a && N.eqb d b then [] :: split2 a b s''
          else cons_hd c (split2 a b s')
      end
  end.

(** [l.join(sep)] *)
Fixpoint join (sep : jsstring) (l : list jsstring) : jsstring :=
  match l with
  | [] => []
  | [x] => x
  | x :: l' => x ++ sep ++ join sep l'
  end.

Definition quote : N := 34.
Definition comma : N := 44.
Definition LF : N := 10.
Definition CR : N := 13.

(** [s.replace] of every double quote by the empty string. *)
Definition remove_quotes (s : jsstring) : jsstring :=
  filter (fun c => negb (N.eqb c quote)) s.

(** [s.replace] of every double quote by two of them. *)
Definition double_quotes (s : jsstring) : jsstring :=
  flat_map (fun c => if N.eqb c quote then [quote; quote] else [c]) s.

(** [s.toLowerCase()] on the letters A-Z.  No other code unit lowers to
    [s], [q] or [l], so the test [toLowerCase().includes('sql')] below is
    the one of the code. *)
Definition lower (c : N) : N :=
  if N.leb 65 c && N.leb c 90 then (c + 32)%N else c.
Definition toLowerCase (s : jsstring) : jsstring := map lower s.

(** The decimal rendering of a length, as in a template literal. *)
Fixpoint digits (fuel n : nat) (acc : jsstring) : jsstring :=
  match fuel with
  | O => acc
  | S f =>
      let acc' := N.of_nat (48 + n mod 10) :: acc in
      if n <? 10 then acc' else digits f (n / 10) acc'
  end.
Definition string_of_nat (n : nat) : jsstring := digits (S n) n [].

End JS.
Import JS.

(** ** Row maps *)

(** A row is a JavaScript object with string values, kept as its list of
    own properties in [Object.keys] order: the keys that are array indices
    first, in ascending order, then the other keys in the order in which
    they were created. *)
Definition Row := list (jsstring * jsstring).

(** The own property [k] of a row. *)
Fixpoint row_get (k : jsstring) (r : Row) : option jsstring :=
  match r with
  | [] => None
  | (k', v) :: r' => if eqs k k' then Some v else row_get k r'
  end.

(** The key [__proto__], which on an object written [{}] names the accessor
    inherited from [Object.prototype]: reading it gives the prototype, and
    assigning a string or a number to it does nothing. *)
Definition proto : jsstring := js "__proto__".

Definition digit (c : N) : bool := N.leb 48 c && N.leb c 57.

Definition number_of (k : jsstring) : N :=
  fold_left (fun n c => 10 * n + (c - 48))%N k 0%N.

(** A key is an array index when it is the canonical decimal numeral of an
    integer from 0 to 2^32 - 2. *)
Definition array_index (k : jsstring) : option N :=
  match k with
  | [] => None
  | c :: rest =>
      if forallb digit k &&
         (negb (N.eqb c 48) || match rest with [] => true | _ :: _ => false end) &&
         N.leb (number_of k) 4294967294
      then Some (number_of k)
      else None
  end.



(** An assignment to an own property keeps the place of the property. *)
Fixpoint row_replace (k v : jsstring) (r : Row) : Row :=
  match r with
  | [] => []
  | (k', v') :: r' => if eqs k k' then (k', v) :: r' else (k', v') :: row_replace k v r'
  end.

(** A new array index goes after the smaller indices and before everything
    else. *)
Fixpoint row_insert_index (n : N) (k v : jsstring) (r : Row) : Row :=
  match r with
  | [] => [(k, v)]
  | (k', v') :: r' =>
      match array_index k' with
      | Some m => if N.ltb m n then (k', v') :: row_insert_index n k v r'
                  else (k, v) :: r
      | None => (k, v) :: r
      end
  end.

(** [row[k] = v] for a string [v]: an own property is overwritten; the key
    [__proto__] of an object without such an own property reaches the setter
    of [Object.prototype], which ignores a string; any other new key becomes
    an own property, at its place in the [Object.keys] order. *)
Definition row_set (k v : jsstring) (r : Row) : Row :=
  match row_get k r with
  | Some _ => row_replace k v r
  | None =>
      if eqs k proto then r
      else match array_index k with
           | Some n => row_insert_index n k v r
           | None => r ++ [(k, v)]
           end
  end.

(** The functions every object inherits from [Object.prototype]. *)
Definition Object_prototype_functions : list jsstring :=
  [js "__defineGetter__"; js "__defineSetter__"; js "hasOwnProperty";
   js "__lookupGetter__"; js "__lookupSetter__"; js "isPrototypeOf";
   js "propertyIsEnumerable"; js "toString"; js "valueOf"; js "toLocaleString"].

(** [String(row[k])] for a key [k] that is no own property of the row but a
    property of [Object.prototype]: the text of a native function, or of the
    prototype object itself for [__proto__]. *)
Definition inherited (k : jsstring) : option jsstring :=
  if eqs k proto then Some (js "[object Object]")
  else if eqs k (js "constructor")
       then Some (js "function Object() { [native code] }")
  else if existsb (eqs k) Object_prototype_functions
       then Some (js "function " ++ k ++ js "() { [native code] }")
  else None.

Definition row_keys (r : Row) : list jsstring := map fst r.

(** ** The CSV formatter of the bot ([src/bot.js]) *)

Module Bot.

(** [escapeCSVField] *)
Definition escapeCSVField (field : jsstring) : jsstring :=
  if existsb (N.eqb comma) field || existsb (N.eqb quote) field ||
     existsb (N.eqb LF) field || existsb (N.eqb CR) field
  then [quote] ++ double_quotes field ++ [quote]
  else field.

(** [allColumns.add(key)] on a [Set], kept in insertion order. *)
Definition set_add (k : jsstring) (cols : list jsstring) : list jsstring :=
  if existsb (eqs k) cols then cols else cols ++ [k].

Definition allColumns (data : list Row) : list jsstring :=
  fold_left (fun cols row => fold_left (fun cs k => set_add k cs) (row_keys row) cols)
            data [].

(** [const value = row[col]] and then
    [value !== null && value !== undefined ? String(value) : '']: an own
    property, else a property inherited from [Object.prototype], else
    [undefined]. *)
Definition displayValue (row : Row) (col : jsstring) : jsstring :=
  match row_get col row with
  | Some v => v
  | None => match inherited col with
            | Some s => s
            | None => []
            end
  end.

Definition csv_line (columns : list jsstring) (row : Row) : jsstring :=
  join [comma] (map (fun col => escapeCSVField (displayValue row col)) columns)
  ++ [LF].

(** [generateCSV] *)
Definition generateCSV (data : list Row) : jsstring :=
  match data with
  | [] => js "No data to export"
  | _ :: _ =>
      let columns := allColumns data in
      match columns with
      | [] => js "No structured data to export"
      | _ :: _ =>
          fold_left (fun csv row => csv ++ csv_line columns row) data
                    (join [comma] (map escapeCSVField columns) ++ [LF])
      end
  end.

End Bot.

(** ** Data model of the agent stream ([src/services/snowflakeService.js]) *)

(** An opaque structured value (a parsed chart specification, a tool input). *)
#[warnings="-register-all"]
Inductive JValue :=
| JNull
| JBool (b : bool)
| JNum (n : N)
| JStr (s : jsstring)
| JArr (items : list JValue)
| JObj (fields : list (jsstring * JValue)).

(** [result.json] of a tool result: an array of rows, or an object whose
    properties ([sql], [text], [query_id], ...) are read by name. *)
Inductive JsonPayload :=
| JRows (rows : list Row)
| JObject (fields : Row).

(** One entry of [content.tool_results.content]. *)
Inductive ResultItem :=
| RJson (json : option JsonPayload)      (* type 'json' *)
| RCsv (text : option jsstring)          (* type 'text/csv' *)
| ROther (type : jsstring).

(** [content.thinking]: a string, an object with optional [text], [content]
    and [message] and its [JSON.stringify] rendering, or another truthy
    value. *)
Inductive Thinking :=
| ThinkString (s : jsstring)
| ThinkObject (text content message : option jsstring) (stringified : jsstring)
| ThinkOther.

Record ToolUse := { tool_name : jsstring; tool_input : JValue }.

(** One entry of [delta.content], by its [type]. *)
Inductive ContentItem :=
| CText (text : option jsstring)                       (* 'text' *)
| CToolUse (tool_use : option ToolUse)                 (* 'tool_use' *)
| CToolResults (tool_results : option (list ResultItem)) (* 'tool_results' *)
| CChart (chart_spec : option jsstring)                (* 'chart' *)
| CThinking (thinking : option Thinking)               (* 'thinking' *)
| CUnknown (type : jsstring).

(** The payload of a [message.delta] event, after [JSON.parse]:
    [delta_content] is [deltaData.delta?.content]. *)
Record DeltaData := {
  dd_id : option jsstring;
  dd_object : option jsstring;
  delta_content : option (list ContentItem)
}.

(** [individualDelta] *)
Record Delta := {
  deltaIndex : nat;
  content : list ContentItem;
  metadata_id : option jsstring;
  metadata_object : option jsstring
}.

(** What the observer [onDelta] is called with. *)
Inductive Notification :=
| NDelta (d : Delta)
| NCompletion (totalDeltas : nat).         (* type: 'completion' *)

Inductive Source :=
| cortex_agents_api | fallback_query | configuration_error | error_fallback.

Record ChartOut := { chart_type : jsstring; spec : JValue }.

(** The result object handed to the caller; [None] for a property the
    producing branch does not set. *)
Record SynthesizedResult := {
  summary : jsstring;
  data : list Row;
  insights : option jsstring;
  source : Source;
  sql : option jsstring;
  charts : option (list ChartOut)
}.

Inductive Response :=
| Single (r : SynthesizedResult)
| Multi (mainMessage thinkingMessage : SynthesizedResult). (* hasMultipleMessages *)

(** ** The world around the service *)

Inductive ExecResult :=
| ExecRows (rows : list Row)
| ExecThrows (message : jsstring).

Inductive TokenResult :=
| TokenValue (t : jsstring)
| TokenNull
| TokenThrows.

Inductive ConfigResult :=
| ConfigFound
| ConfigNull
| ConfigThrows (message : jsstring).

Inductive StreamEnd := StreamEnded | StreamFailed.

Definition Buffer := list N.

Inductive ResponseData :=
| DataStream (chunks : list Buffer) (fin : StreamEnd)
| DataDelta (delta : list ContentItem)
| DataString (s : jsstring)
| DataObject (message : option jsstring)
| DataNone.

Inductive HttpResult :=
| HttpThrows
| HttpResponse (status : nat) (body : ResponseData).

Inductive Warning :=
| StreamingParseError            (* 'Error parsing streaming delta' *)
| SSEParseError (deltaCount : nat) (* 'Failed to parse SSE event n' *)
| DeltaCallbackError
| CompletionCallbackError
| SQLExecutionFailed (message : jsstring).

(** What a run does to the outside, in order. *)
Inductive Effect :=
| EDelta (d : Delta)               (* an individualDelta was built *)
| ECall (n : Notification)         (* onDelta was called *)
| EWarn (w : Warning)              (* console.warn / console.error *)
| EExecute (sqlText : jsstring)    (* connection.execute *)
| EGetAccessToken
| EGetAgentConfiguration (name : jsstring)
| EPost
| EConnect.

(** The collaborators and the environment: [JSON.parse] read at the two
    types it is used at ([None] when it throws), the warehouse connection,
    the token provider, the agent lookup, the HTTP call and [process.env].
    [getAgentConfiguration] stands for the whole lookup: the connection it
    opens and the [DESCRIBE AGENT] it runs are part of its outcome and are
    not recorded as effects of their own.  [SNOWFLAKE_ACCOUNT] is taken to
    be set, so that [extractAccountIdentifier] returns when the address of
    the agent is built. *)
Record World := {
  JSON_parse_delta : jsstring -> option DeltaData;
  JSON_parse_spec : jsstring -> option JValue;
  connection_execute : jsstring -> ExecResult;
  connect_ok : bool;
  getSnowflakeAccessToken : TokenResult;
  getAgentConfiguration : jsstring -> ConfigResult;
  axios_post : HttpResult;
  INCLUDE_AGENT_THINKING : bool;
  SNOWFLAKE_DATABASE : option jsstring;
  SNOWFLAKE_SCHEMA : option jsstring;
  CORTEX_AGENTS_AGENT_NAME : option jsstring
}.

(** An observer: the argument is the notification, the result says whether
    the call throws.  An observer is taken to leave the content it is
    handed as it is, and to throw an [Error] when it throws, whose
    [message] the [catch] around the call reads. *)
Definition Observer := Notification -> bool.

(** ** [Buffer.prototype.toString()]: UTF-8 decoding

    Node decodes each buffer on its own, an ill-formed or truncated sequence
    giving U+FFFD (the decoder of the WHATWG Encoding standard). *)

Module Utf8.

Record state := { cp : N; remaining : nat; lo : N; hi : N }.

Definition fresh : state := {| cp := 0; remaining := 0; lo := 128; hi := 191 |}.

Definition replacement : N := 65533.

Definition in_range (l h b : N) : bool := N.leb l b && N.leb b h.

(** A first byte. *)
Definition lead (b : N) : state * jsstring :=
  if N.leb b 127 then (fresh, [b])
  else if in_range 194 223 b then
    ({| cp := N.land b 31; remaining := 1; lo := 128; hi := 191 |}, [])
  else if in_range 224 239 b then
    ({| cp := N.land b 15; remaining := 2;
        lo := if N.eqb b 224 then 160 else 128;
        hi := if N.eqb b 237 then 159 else 191 |}, [])
  else if in_range 240 244 b then
    ({| cp := N.land b 7; remaining := 3;
        lo := if N.eqb b 240 then 144 else 128;
        hi := if N.eqb b 244 then 143 else 191 |}, [])
  else (fresh, [replacement]).

(** A code point as UTF-16 code units. *)
Definition utf16 (c : N) : jsstring :=
  if N.ltb c 65536 then [c]
  else let c' := (c - 65536)%N in
       [(55296 + N.shiftr c' 10)%N; (56320 + N.land c' 1023)%N].

Fixpoint decode (st : state) (bytes : Buffer) : jsstring :=
  match bytes with
  | [] => match remaining st with O => [] | S _ => [replacement] end
  | b :: bs =>
      match remaining st with
      | O => let (st', out) := lead b in out ++ decode st' bs
      | S r =>
          if in_range (lo st) (hi st) b then
            let c := N.lor (N.shiftl (cp st) 6) (N.land b 63) in
            match r with
            | O => utf16 c ++ decode fresh bs
            | S _ => decode {| cp := c; remaining := r; lo := 128; hi := 191 |} bs
            end
          else
            let (st', out) := lead b in replacement :: out ++ decode st' bs
      end
  end.

Definition toString (chunk : Buffer) : jsstring := decode fresh chunk.

End Utf8.

(** ** [SnowflakeService] *)

Module Service.

(** *** [parseCSVToJSON] *)

Definition clean (v : jsstring) : jsstring := remove_quotes (trim v).

(** [headers.forEach((header, index) => row[header] = values[index] || '')] *)
Fixpoint forEach_header (headers : list jsstring) (index : nat)
         (values : list jsstring) (row : Row) : Row :=
  match headers with
  | [] => row
  | header :: hs =>
      forEach_header hs (S index) values (row_set header (nth index values []) row)
  end.

Definition parseCSVToJSON (csvText : option jsstring) : list Row :=
  match csvText with
  | None => []                       (* [csvText.trim()] throws: caught *)
  | Some t =>
      match split1 LF (trim t) with
      | line0 :: line1 :: more =>
          let headers := map clean (split1 comma line0) in
          map (fun line =>
                 forEach_header headers 0 (map clean (split1 comma line)) [])
              (line1 :: more)
      | _ => []                      (* [lines.length < 2] *)
      end
  end.

(** *** [formatCortexAgentsResponse] *)

Record Fmt := {
  f_summary : jsstring;
  f_data : list Row;
  f_insights : jsstring;
  f_charts : list ChartOut;
  f_sql : jsstring
}.

Definition fmt_init : Fmt :=
  {| f_summary := [];
     f_data := [];
     f_insights := js "Response generated by Snowflake Cortex Agents";
     f_charts := [];
     f_sql := [] |}.

(** The body of [for (const result of content.tool_results.content)]. *)
Definition fmt_result (a : Fmt) (result : ResultItem) : Fmt :=
  match result with
  | RJson (Some (JRows rows)) =>
      {| f_summary := f_summary a; f_data := rows; f_insights := f_insights a;
         f_charts := f_charts a; f_sql := f_sql a |}
  | RJson (Some (JObject o)) =>
      let a1 :=
        match row_get (js "sql") o with
        | Some (c :: s) =>
            {| f_summary := f_summary a; f_data := f_data a;
               f_insights := or_else (row_get (js "text") o) (f_insights a);
               f_charts := f_charts a; f_sql := c :: s |}
        | _ => a
        end in
      match row_get (js "query_id") o with
      | Some (_ :: _) =>
          {| f_summary := f_summary a1; f_data := [o]; f_insights := f_insights a1;
             f_charts := f_charts a1; f_sql := f_sql a1 |}
      | _ => a1
      end
  | RJson None => a
  | RCsv text =>
      {| f_summary := f_summary a; f_data := parseCSVToJSON text;
         f_insights := f_insights a; f_charts := f_charts a; f_sql := f_sql a |}
  | ROther _ => a
  end.

(** The body of [for (const content of delta.content)]; [None] when
    [JSON.parse(content.chart.chart_spec)] throws. *)
Definition fmt_content (w : World) (a : Fmt) (c : ContentItem) : option Fmt :=
  match c with
  | CText text =>
      Some {| f_summary := f_summary a ++ or_else text []; f_data := f_data a;
              f_insights := f_insights a; f_charts := f_charts a; f_sql := f_sql a |}
  | CToolUse (Some tu) =>
      if eqs (tool_name tu) (js "DataAnalyst")
      then Some {| f_summary := f_summary a; f_data := f_data a;
                   f_insights := js "Generated SQL query using Cortex Agents";
                   f_charts := f_charts a; f_sql := f_sql a |}
      else Some a
  | CToolUse None => Some a
  | CToolResults (Some results) => Some (fold_left fmt_result results a)
  | CToolResults None => Some a
  | CChart (Some (c0 :: s0)) =>
      match JSON_parse_spec w (c0 :: s0) with
      | None => None
      | Some v =>
          Some {| f_summary := f_summary a; f_data := f_data a;
                  f_insights := f_insights a ++ js " Chart visualization included.";
                  f_charts := f_charts a ++ [{| chart_type := js "vega-lite"; spec := v |}];
                  f_sql := f_sql a |}
      end
  | CChart _ => Some a
  | CThinking _ => Some a
  | CUnknown _ => Some a
  end.

Fixpoint fmt_loop (w : World) (a : Fmt) (cs : list ContentItem) : option Fmt :=
  match cs with
  | [] => Some a
  | c :: cs' =>
      match fmt_content w a c with
      | None => None
      | Some a' => fmt_loop w a' cs'
      end
  end.

(** [switchToOriginalDatabase]: failures are logged and swallowed. *)
Definition switchToOriginalDatabase (w : World) : list Effect :=
  match SNOWFLAKE_DATABASE w with
  | Some (c :: s) => [EExecute (js "USE DATABASE " ++ c :: s)]
  | _ => []
  end ++
  match SNOWFLAKE_SCHEMA w with
  | Some (c :: s) => [EExecute (js "USE SCHEMA " ++ c :: s)]
  | _ => []
  end.

(** [executeQuery] *)
Definition executeQuery (w : World) (sqlQuery : jsstring) : ExecResult * list Effect :=
  (connection_execute w sqlQuery, [EExecute sqlQuery]).

(** The block [if (sql && sql.trim()) { ... }]. *)
Definition fmt_execute (w : World) (a : Fmt) : Fmt * list Effect :=
  if truthy (f_sql a) && truthy (trim (f_sql a)) then
    let t1 := switchToOriginalDatabase w in
    let (queryResults, t2) := executeQuery w (f_sql a) in
    match queryResults with
    | ExecRows (r :: rs) =>
        let n := string_of_nat (length (r :: rs)) in
        ({| f_summary :=
              if includes (f_summary a) (js "```sql") ||
                 includes (toLowerCase (f_summary a)) (js "sql")
              then f_summary a ++ [LF; LF] ++ js "**Query Results:** " ++ n ++
                   js " row(s) found."
              else f_summary a;
            f_data := r :: rs;
            f_insights := js "SQL query executed successfully. " ++ f_insights a;
            f_charts := f_charts a; f_sql := f_sql a |},
         t1 ++ t2)
    | ExecRows [] =>
        ({| f_summary := f_summary a; f_data := f_data a;
            f_insights := js "SQL query executed but returned no results. " ++ f_insights a;
            f_charts := f_charts a; f_sql := f_sql a |},
         t1 ++ t2)
    | ExecThrows message =>
        ({| f_summary := f_summary a; f_data := f_data a;
            f_insights := js "SQL query provided but execution failed: " ++ message ++
                          js ". " ++ f_insights a;
            f_charts := f_charts a; f_sql := f_sql a |},
         t1 ++ t2 ++ [EWarn (SQLExecutionFailed message)])
    end
  else (a, []).

(** The generated summary when none was provided. *)
Definition fmt_summary (a : Fmt) : jsstring :=
  match f_summary a, f_data a with
  | [], _ :: _ =>
      js "Found " ++ string_of_nat (length (f_data a)) ++ js " result" ++
      (if Nat.eqb (length (f_data a)) 1 then [] else js "s") ++ js " for your query."
  | [], [] => js "Query processed successfully."
  | s, _ => s
  end.

(** The object of the [catch] branch. *)
Definition formatting_failed : SynthesizedResult :=
  {| summary := js "Cortex Agents response received but formatting failed";
     data := [];
     insights := Some (js "Please try rephrasing your question");
     source := cortex_agents_api;
     sql := None;
     charts := Some [] |}.

Definition formatCortexAgentsResponse (w : World) (delta : list ContentItem)
  : SynthesizedResult * list Effect :=
  match fmt_loop w fmt_init delta with
  | None => (formatting_failed, [])
  | Some a =>
      let (a', t) := fmt_execute w a in
      ({| summary := trim (fmt_summary a');
          data := f_data a';
          insights := Some (f_insights a');
          source := cortex_agents_api;
          sql := Some (f_sql a');
          charts := Some (f_charts a') |}, t)
  end.

(** *** The decoders *)

(** [(.+)]: one or more code units that are not line terminators. *)
Definition dot_plus (s : jsstring) : option jsstring :=
  match takeWhile (fun c => negb (is_line_terminator c)) s with
  | [] => None
  | c :: r => Some (c :: r)
  end.

(** [\s*(.+)]: the star is greedy and gives back on failure. *)
Fixpoint ws_star_dot_plus (s : jsstring) : option jsstring :=
  match s with
  | [] => None
  | c :: s' =>
      if is_ws c then
        match ws_star_dot_plus s' with
        | Some r => Some r
        | None => dot_plus s
        end
      else dot_plus s
  end.

(** Group 1 of [event.match(/data:\s*(.+)/)], [None] when there is no
    match. *)
Fixpoint match_data (event : jsstring) : option jsstring :=
  match event with
  | [] => None
  | _ :: e' =>
      if startsWith (js "data:") event then
        match ws_star_dot_plus (skipn 5 event) with
        | Some r => Some r
        | None => match_data e'
        end
      else match_data e'
  end.

(** The text of [content.thinking]. *)
Definition thinkingText (t : Thinking) : jsstring :=
  match t with
  | ThinkString s => s
  | ThinkObject text content message stringified =>
      or_else text (or_else content (or_else message stringified))
  | ThinkOther => []
  end.

(** [if (content.thinking)] *)
Definition thinking_truthy (t : option Thinking) : option Thinking :=
  match t with
  | Some (ThinkString []) => None
  | _ => t
  end.

(** A call of [onDelta] inside its [try]. *)
Definition call_onDelta (onDelta : option Observer) (n : Notification)
           (on_throw : Warning) : list Effect :=
  match onDelta with
  | None => []
  | Some f => ECall n :: (if f n then [EWarn on_throw] else [])
  end.

Definition individualDelta (index : nat) (deltaData : DeltaData) : Delta :=
  {| deltaIndex := index;
     content := match delta_content deltaData with Some c => c | None => [] end;
     metadata_id := dd_id deltaData;
     metadata_object := dd_object deltaData |}.

(** A loop that threads a state and collects the effects. *)
Fixpoint for_of {S A : Type} (body : S -> A -> S * list Effect)
         (s : S) (l : list A) : S * list Effect :=
  match l with
  | [] => (s, [])
  | x :: l' =>
      let (s1, t1) := body s x in
      let (s2, t2) := for_of body s1 l' in
      (s2, t1 ++ t2)
  end.

(** *** [processStreamingResponse] *)

Record StreamState := {
  buffer : jsstring;
  s_deltaIndex : nat;
  combinedContent : jsstring;
  s_thinkingContent : jsstring;
  s_hasThinking : bool;
  s_toolResults : list ContentItem;
  s_charts : list ContentItem
}.

Definition stream_init : StreamState :=
  {| buffer := []; s_deltaIndex := 0; combinedContent := [];
     s_thinkingContent := []; s_hasThinking := false;
     s_toolResults := []; s_charts := [] |}.

(** The [switch (content.type)] of the stream handler. *)
Definition stream_route (w : World) (st : StreamState) (c : ContentItem) : StreamState :=
  match c with
  | CText text =>
      {| buffer := buffer st; s_deltaIndex := s_deltaIndex st;
         combinedContent := combinedContent st ++ or_else text [];
         s_thinkingContent := s_thinkingContent st; s_hasThinking := s_hasThinking st;
         s_toolResults := s_toolResults st; s_charts := s_charts st |}
  | CToolUse _ | CToolResults _ =>
      {| buffer := buffer st; s_deltaIndex := s_deltaIndex st;
         combinedContent := combinedContent st;
         s_thinkingContent := s_thinkingContent st; s_hasThinking := s_hasThinking st;
         s_toolResults := s_toolResults st ++ [c]; s_charts := s_charts st |}
  | CChart _ =>
      {| buffer := buffer st; s_deltaIndex := s_deltaIndex st;
         combinedContent := combinedContent st;
         s_thinkingContent := s_thinkingContent st; s_hasThinking := s_hasThinking st;
         s_toolResults := s_toolResults st; s_charts := s_charts st ++ [c] |}
  | CThinking t =>
      match thinking_truthy t with
      | Some th =>
          if INCLUDE_AGENT_THINKING w then
            {| buffer := buffer st; s_deltaIndex := s_deltaIndex st;
               combinedContent := combinedContent st;
               s_thinkingContent := s_thinkingContent st ++ thinkingText th;
               s_hasThinking := true;
               s_toolResults := s_toolResults st; s_charts := s_charts st |}
          else st
      | None => st
      end
  | CUnknown _ => st
  end.

Definition stream_bump (st : StreamState) : StreamState :=
  {| buffer := buffer st; s_deltaIndex := S (s_deltaIndex st);
     combinedContent := combinedContent st;
     s_thinkingContent := s_thinkingContent st; s_hasThinking := s_hasThinking st;
     s_toolResults := s_toolResults st; s_charts := s_charts st |}.

(** The body of [for (const event of events)]. *)
Definition stream_event (w : World) (onDelta : option Observer)
           (st : StreamState) (event : jsstring) : StreamState * list Effect :=
  if truthy (trim event) && includes event (js "event: message.delta") &&
     includes event (js "data:")
  then
    let st1 := stream_bump st in                         (* deltaIndex++ *)
    match match_data event with
    | None => (st1, [])
    | Some payload =>
        match JSON_parse_delta w payload with
        | None => (st1, [EWarn StreamingParseError])
        | Some deltaData =>
            let d := individualDelta (s_deltaIndex st1) deltaData in
            (match delta_content deltaData with
             | Some cs => fold_left (stream_route w) cs st1
             | None => st1
             end,
             EDelta d :: call_onDelta onDelta (NDelta d) DeltaCallbackError)
        end
    end
  else (st, []).

Definition set_buffer (st : StreamState) (b : jsstring) : StreamState :=
  {| buffer := b; s_deltaIndex := s_deltaIndex st;
     combinedContent := combinedContent st;
     s_thinkingContent := s_thinkingContent st; s_hasThinking := s_hasThinking st;
     s_toolResults := s_toolResults st; s_charts := s_charts st |}.

(** The events of a buffer: [buffer.split('\n\n')]. *)
Definition events_of (b : jsstring) : list jsstring := split2 LF LF b.

(** The ['data'] handler, on the text of a chunk. *)
Definition on_text (w : World) (onDelta : option Observer)
           (st : StreamState) (chunkStr : jsstring) : StreamState * list Effect :=
  let events := events_of (buffer st ++ chunkStr) in
  for_of (stream_event w onDelta)
         (set_buffer st (last events []))               (* events.pop() || '' *)
         (removelast events).

(** The ['data'] handler: [chunk.toString()] first. *)
Definition on_data (w : World) (onDelta : option Observer)
           (st : StreamState) (chunk : Buffer) : StreamState * list Effect :=
  on_text w onDelta st (Utf8.toString chunk).

(** The text of the reasoning message: two asterisks, U+1F914 as its
    surrogate pair, the title and a line feed, then the thinking text. *)
Definition reasoning_text (thinkingContent : jsstring) : jsstring :=
  js "**" ++ [55358; 56596]%N ++ js " Agent Reasoning:**" ++ [LF] ++ thinkingContent.

Definition thinkingMessage_of (hasThinking : bool) (thinkingContent : jsstring)
  : option (list ContentItem) :=
  if hasThinking && truthy thinkingContent
  then Some [CText (Some (reasoning_text thinkingContent))]
  else None.

(** [combinedDelta.content] as the ['end'] handler builds it. *)
Definition stream_combined (st : StreamState) : list ContentItem :=
  (if truthy (combinedContent st) then [CText (Some (combinedContent st))] else [])
  ++ s_toolResults st ++ s_charts st.

(** The ['end'] handler. *)
Definition on_end (w : World) (st : StreamState) : Response * list Effect :=
  let (mainResponse, t1) := formatCortexAgentsResponse w (stream_combined st) in
  match thinkingMessage_of (s_hasThinking st) (s_thinkingContent st) with
  | Some thinkingMessage =>
      let (thinkingResponse, t2) := formatCortexAgentsResponse w thinkingMessage in
      (Multi mainResponse thinkingResponse, t1 ++ t2)
  | None => (Single mainResponse, t1)
  end.

(** [processStreamingResponse]: the promise resolves with a response or
    rejects ([None]) on a stream error. *)
Definition processStreamingResponse (w : World) (chunks : list Buffer)
           (fin : StreamEnd) (onDelta : option Observer)
  : option Response * list Effect :=
  let (st, t) := for_of (on_data w onDelta) stream_init chunks in
  match fin with
  | StreamEnded => let (r, t') := on_end w st in (Some r, t ++ t')
  | StreamFailed => (None, t)
  end.

(** *** [parseSSEResponse] *)

Record SSEState := {
  textContent : jsstring;
  toolUse : option ContentItem;
  p_toolResults : list ContentItem;
  p_charts : list ContentItem;
  deltaCount : nat;
  p_thinkingContent : jsstring;
  p_hasThinking : bool;
  deltas : list Delta
}.

Definition sse_init : SSEState :=
  {| textContent := []; toolUse := None; p_toolResults := []; p_charts := [];
     deltaCount := 0; p_thinkingContent := []; p_hasThinking := false;
     deltas := [] |}.

(** The [switch (content.type)] of the buffered parser. *)
Definition sse_route (w : World) (st : SSEState) (c : ContentItem) : SSEState :=
  match c with
  | CText text =>
      {| textContent := textContent st ++ or_else text [];
         toolUse := toolUse st; p_toolResults := p_toolResults st;
         p_charts := p_charts st; deltaCount := deltaCount st;
         p_thinkingContent := p_thinkingContent st; p_hasThinking := p_hasThinking st;
         deltas := deltas st |}
  | CToolUse _ =>
      {| textContent := textContent st;
         toolUse := Some c;                               (* toolUse = content *)
         p_toolResults := p_toolResults st;
         p_charts := p_charts st; deltaCount := deltaCount st;
         p_thinkingContent := p_thinkingContent st; p_hasThinking := p_hasThinking st;
         deltas := deltas st |}
  | CToolResults _ =>
      {| textContent := textContent st; toolUse := toolUse st;
         p_toolResults := p_toolResults st ++ [c];
         p_charts := p_charts st; deltaCount := deltaCount st;
         p_thinkingContent := p_thinkingContent st; p_hasThinking := p_hasThinking st;
         deltas := deltas st |}
  | CChart _ =>
      {| textContent := textContent st; toolUse := toolUse st;
         p_toolResults := p_toolResults st;
         p_charts := p_charts st ++ [c]; deltaCount := deltaCount st;
         p_thinkingContent := p_thinkingContent st; p_hasThinking := p_hasThinking st;
         deltas := deltas st |}
  | CThinking t =>
      match thinking_truthy t with
      | Some th =>
          if INCLUDE_AGENT_THINKING w then
            {| textContent := textContent st; toolUse := toolUse st;
               p_toolResults := p_toolResults st;
               p_charts := p_charts st; deltaCount := deltaCount st;
               p_thinkingContent := p_thinkingContent st ++ thinkingText th;
               p_hasThinking := true;
               deltas := deltas st |}
          else st
      | None => st
      end
  | CUnknown _ => st
  end.

Definition sse_bump (st : SSEState) : SSEState :=
  {| textContent := textContent st; toolUse := toolUse st;
     p_toolResults := p_toolResults st; p_charts := p_charts st;
     deltaCount := S (deltaCount st);
     p_thinkingContent := p_thinkingContent st; p_hasThinking := p_hasThinking st;
     deltas := deltas st |}.

Definition sse_push (st : SSEState) (d : Delta) : SSEState :=
  {| textContent := textContent st; toolUse := toolUse st;
     p_toolResults := p_toolResults st; p_charts := p_charts st;
     deltaCount := deltaCount st;
     p_thinkingContent := p_thinkingContent st; p_hasThinking := p_hasThinking st;
     deltas := deltas st ++ [d] |}.

(** The body of [for (const event of events)]. *)
Definition sse_event (w : World) (onDelta : option Observer)
           (st : SSEState) (event : jsstring) : SSEState * list Effect :=
  if includes event (js "event: message.delta") && includes event (js "data:") then
    match match_data event with
    | None => (st, [])
    | Some payload =>
        let st1 := sse_bump st in                        (* deltaCount++ *)
        match JSON_parse_delta w payload with
        | None => (st1, [EWarn (SSEParseError (deltaCount st1))])
        | Some deltaData =>
            let d := individualDelta (deltaCount st1) deltaData in
            let st2 := sse_push st1 d in
            (match delta_content deltaData with
             | Some cs => fold_left (sse_route w) cs st2
             | None => st2
             end,
             EDelta d :: call_onDelta onDelta (NDelta d) DeltaCallbackError)
        end
    end
  else if includes event (js "event: done") then
    (st, call_onDelta onDelta (NCompletion (deltaCount st)) CompletionCallbackError)
  else (st, []).

Record ParseResult := {
  combinedDelta : option (list ContentItem);
  thinkingMessage : option (list ContentItem);
  r_deltas : list Delta;
  r_totalDeltas : nat
}.

(** [combinedDelta.content] as the buffered parser builds it. *)
Definition sse_combined (st : SSEState) : list ContentItem :=
  (if truthy (textContent st) then [CText (Some (textContent st))] else [])
  ++ (match toolUse st with Some c => [c] | None => [] end)
  ++ p_toolResults st ++ p_charts st.

Definition sse_events (sseData : jsstring) : list jsstring :=
  filter (fun event => truthy (trim event)) (split2 LF LF sseData).

Definition parseSSEResponse (w : World) (sseData : jsstring) (onDelta : option Observer)
  : ParseResult * list Effect :=
  let (st, t) := for_of (sse_event w onDelta) sse_init (sse_events sseData) in
  ({| combinedDelta :=
        match sse_combined st with
        | [] => None                                     (* content.length > 0 ? ... : null *)
        | c :: cs => Some (c :: cs)
        end;
      thinkingMessage := thinkingMessage_of (p_hasThinking st) (p_thinkingContent st);
      r_deltas := deltas st;
      r_totalDeltas := deltaCount st |}, t).

(** *** [callCortexAgentsAPI] *)

Definition config_error (summary0 insights0 : jsstring) : SynthesizedResult :=
  {| summary := summary0; data := []; insights := Some insights0;
     source := configuration_error; sql := None; charts := None |}.

(** The branch taken for a buffered SSE string. *)
Definition handle_sse (w : World) (s : jsstring) (onDelta : option Observer)
  : option Response * list Effect :=
  let (parseResult, t0) := parseSSEResponse w s onDelta in
  match combinedDelta parseResult with
  | Some combined =>
      let (mainResponse, t1) := formatCortexAgentsResponse w combined in
      match thinkingMessage parseResult with
      | Some tm =>
          let (thinkingResponse, t2) := formatCortexAgentsResponse w tm in
          (Some (Multi mainResponse thinkingResponse), t0 ++ t1 ++ t2)
      | None => (Some (Single mainResponse), t0 ++ t1)
      end
  | None => (None, t0)                                   (* 'No usable data in response' *)
  end.

Definition other_format (message : option jsstring) : SynthesizedResult :=
  {| summary := or_else message (js "Response received from Cortex Agents");
     data := []; insights := None; source := cortex_agents_api;
     sql := None; charts := None |}.

(** What follows [const response = await axios.post(...)]. *)
Definition handle_response (w : World) (onDelta : option Observer)
  : option Response * list Effect :=
  match axios_post w with
  | HttpThrows => (None, [])
  | HttpResponse status body =>
      if 400 <=? status then (None, [])
      else
        match body with
        | DataStream chunks fin => processStreamingResponse w chunks fin onDelta
        | DataDelta delta =>
            let (r, t) := formatCortexAgentsResponse w delta in (Some (Single r), t)
        | DataString [] => (None, [])
        | DataString s =>
            if includes s (js "event: message.delta") then handle_sse w s onDelta
            else (Some (Single (other_format None)), [])
        | DataObject message => (Some (Single (other_format message)), [])
        | DataNone => (None, [])
        end
  end.

Definition callCortexAgentsAPI (w : World) (query : jsstring) (onDelta : option Observer)
  : option Response * list Effect :=
  match getSnowflakeAccessToken w with
  | TokenThrows => (None, [EGetAccessToken])
  | TokenNull | TokenValue [] => (None, [EGetAccessToken])   (* if (!accessToken) *)
  | TokenValue (_ :: _) =>
      match CORTEX_AGENTS_AGENT_NAME w with
      | Some (c :: n) =>
          let name := c :: n in
          match getAgentConfiguration w name with
          | ConfigFound =>
              let (r, t) := handle_response w onDelta in
              (r, [EGetAccessToken; EGetAgentConfiguration name; EPost] ++ t)
          | ConfigNull =>
              (Some (Single (config_error
                 (js "Agent configuration not found for '" ++ name ++
                  js "'. Please check that the agent exists and is accessible.")
                 (js "Contact your administrator to verify the agent exists and you have permissions to access it."))),
               [EGetAccessToken; EGetAgentConfiguration name])
          | ConfigThrows message =>
              (Some (Single (config_error
                 (js "Failed to read agent configuration for '" ++ name ++ js "': " ++ message)
                 (js "Check database permissions and table structure. Contact your administrator for assistance."))),
               [EGetAccessToken; EGetAgentConfiguration name])
          end
      | _ =>
          (Some (Single (config_error
             (js "Agent configuration error: No Cortex Agent is configured for this bot.")
             (js "Please set CORTEX_AGENTS_AGENT_NAME in your environment variables to specify which Cortex Agent to use. Contact your administrator for available agent names."))),
           [EGetAccessToken])
      end
  end.

(** *** [fallbackToBasicQuery] and [queryWithCortexAgents] *)

Definition indent : jsstring := repeat 32%N 16.

Definition tablesQuery (w : World) : jsstring :=
  [LF] ++ indent ++ js "SELECT table_name, table_type, comment " ++
  [LF] ++ indent ++ js "FROM information_schema.tables " ++
  [LF] ++ indent ++ js "WHERE table_schema = '" ++
    (match SNOWFLAKE_SCHEMA w with Some s => s | None => js "undefined" end) ++ js "'" ++
  [LF] ++ indent ++ js "LIMIT 10" ++
  [LF] ++ repeat 32%N 12.

Definition error_fallback_result : SynthesizedResult :=
  {| summary := js "I'm having trouble connecting to your data.";
     data := [];
     insights := Some (js "Please check your Snowflake connection and try again. You may need to enable Cortex Agents in your account.");
     source := error_fallback; sql := None; charts := None |}.

Definition fallbackToBasicQuery (w : World) (naturalLanguageQuery : jsstring)
  : SynthesizedResult * list Effect :=
  if connect_ok w then
    let (r, t) := executeQuery w (tablesQuery w) in
    match r with
    | ExecRows tables =>
        ({| summary := js "Cortex Analyst is not available. Here are the available tables in your schema:";
            data := tables;
            insights := Some (js "You have " ++ string_of_nat (length tables) ++
                              js " tables available. Try asking specific questions about these tables or contact your administrator to enable Cortex Agents.");
            source := fallback_query; sql := None; charts := None |},
         EConnect :: t)
    | ExecThrows _ => (error_fallback_result, EConnect :: t)
    end
  else (error_fallback_result, [EConnect]).

Definition queryWithCortexAgents (w : World) (naturalLanguageQuery : jsstring)
           (onDelta : option Observer) : Response * list Effect :=
  let (cortexResult, t) := callCortexAgentsAPI w naturalLanguageQuery onDelta in
  match cortexResult with
  | Some r => (r, t)
  | None =>
      let (r, t') := fallbackToBasicQuery w naturalLanguageQuery in
      (Single r, t ++ t')
  end.

End Service.

(** ** Reading a run *)

(** The deltas a run built, in order. *)
Definition emitted (t : list Effect) : list Delta :=
  flat_map (fun e => match e with EDelta d => [d] | _ => [] end) t.

(** What the observer was called with, in order. *)
Definition observed (t : list Effect) : list Notification :=
  flat_map (fun e => match e with ECall n => [n] | _ => [] end) t.

(** The parse diagnostics a run logged, in order. *)
Definition parse_warnings (t : list Effect) : list Warning :=
  flat_map (fun e => match e with
                     | EWarn StreamingParseError => [StreamingParseError]
                     | EWarn (SSEParseError n) => [SSEParseError n]
                     | _ => []
                     end) t.

(** The statements sent to the warehouse connection, in order. *)
Definition executed (t : list Effect) : list jsstring :=
  flat_map (fun e => match e with EExecute q => [q] | _ => [] end) t.

(** The agent configurations looked up, in order. *)
Definition config_lookups (t : list Effect) : list jsstring :=
  flat_map (fun e => match e with EGetAgentConfiguration n => [n] | _ => [] end) t.

(** The text carried by a delta and by a sequence of deltas. *)
Definition delta_text (d : Delta) : jsstring :=
  flat_map (fun c => match c with CText text => or_else text [] | _ => [] end) (content d).

Definition deltas_text (ds : list Delta) : jsstring := flat_map delta_text ds.

(** A trace in which only the warehouse is talked to. *)
Definition warehouse_only (t : list Effect) : Prop :=
  emitted t = [] /\ observed t = [] /\ parse_warnings t = [].

(** A trace in which the observer is never told of a completion. *)
Definition only_deltas (t : list Effect) : Prop :=
  forall n, ~ In (NCompletion n) (observed t).

(** The state of the formatter after its loop over the content; [None] when
    a chart specification does not parse. *)
Definition extracted (w : World) (delta : list ContentItem) : option Service.Fmt :=
  Service.fmt_loop w Service.fmt_init delta.

(** Frames.  A fragment is relevant to a decoder when it passes the test of
    its loop; a relevant frame is well formed when its [data:] line is found
    and parses, corrupt when it is found and [JSON.parse] throws. *)
Definition stream_relevant (event : jsstring) : bool :=
  truthy (trim event) && includes event (js "event: message.delta") &&
  includes event (js "data:").

Definition sse_relevant (event : jsstring) : bool :=
  includes event (js "event: message.delta") && includes event (js "data:").

Definition parses (w : World) (event : jsstring) : bool :=
  match Service.match_data event with
  | Some payload =>
      match JSON_parse_delta w payload with Some _ => true | None => false end
  | None => false
  end.

Definition corrupt (w : World) (event : jsstring) : bool :=
  match Service.match_data event with
  | Some payload =>
      match JSON_parse_delta w payload with Some _ => false | None => true end
  | None => false
  end.

Definition well_formed (relevant : jsstring -> bool) (w : World) (event : jsstring) : Prop :=
  relevant event = true -> parses w event = true.

Definition count (p : jsstring -> bool) (l : list jsstring) : nat :=
  length (filter p l).

(** The non-empty [chart_spec] strings of a delta, in order. *)
Definition chart_specs (delta : list ContentItem) : list jsstring :=
  flat_map (fun c => match c with CChart (Some (c0 :: s0)) => [c0 :: s0] | _ => [] end) delta.

(** The chart specifications parsed in order; [None] when [JSON.parse]
    throws on one of them. *)
Fixpoint parsed_specs (w : World) (specs : list jsstring) : option (list JValue) :=
  match specs with
  | [] => Some []
  | s :: specs' =>
      match JSON_parse_spec w s with
      | None => None
      | Some v =>
          match parsed_specs w specs' with
          | None => None
          | Some vs => Some (v :: vs)
          end
      end
  end.

(** The entry pushed for a parsed specification. *)
Definition vega_lite (v : JValue) : ChartOut :=
  {| chart_type := js "vega-lite"; spec := v |}.

(** The note of a chart, [n] times. *)
Definition chart_notes (n : nat) : jsstring :=
  concat (repeat (js " Chart visualization included.") n).

(** Rows as maps of own properties. *)
Definition row_equiv (r1 r2 : Row) : Prop := forall k, row_get k r1 = row_get k r2.

(** A field free of commas, double quotes, line feeds and carriage returns. *)
Definition plain (f : jsstring) : bool :=
  forallb (fun c => negb (N.eqb c comma || N.eqb c quote || N.eqb c LF || N.eqb c CR)) f.

(** A field with no white space at either end. *)
Definition no_outer_ws (f : jsstring) : bool :=
  match f with
  | [] => true
  | c :: _ => negb (is_ws c) && negb (is_ws (last f c))
  end.

Definition fields_of (data : list Row) : list jsstring :=
  flat_map (fun row => flat_map (fun kv => [fst kv; snd kv]) row) data.

(** The header line and the line of a row, as rendered for plain fields. *)
Definition rendered_header (data : list Row) : jsstring :=
  join [comma] (Bot.allColumns data).

Definition rendered_line (data : list Row) (row : Row) : jsstring :=
  join [comma] (map (Bot.displayValue row) (Bot.allColumns data)).

(** Every row defines every column. *)
Definition uniform (data : list Row) : Prop :=
  forall row col, In row data -> In col (Bot.allColumns data) -> row_get col row <> None.

(** The complete frames of a chunked stream, as the stream handler sees
    them: every chunk is decoded, the texts are appended, and the text after
    the last blank line is not a frame. *)
Definition stream_frames (chunks : list Buffer) : list jsstring :=
  removelast (Service.events_of (concat (map Utf8.toString chunks))).

(** The result of formatting an empty aggregate. *)
Definition empty_result : SynthesizedResult :=
  {| summary := js "Query processed successfully.";
     data := [];
     insights := Some (js "Response generated by Snowflake Cortex Agents");
     source := cortex_agents_api;
     sql := Some [];
     charts := Some [] |}.

(** The running totals of the two decoders. *)
Definition stream_aggregate (st : Service.StreamState) :=
  (Service.combinedContent st, Service.s_thinkingContent st, Service.s_hasThinking st,
   Service.s_toolResults st, Service.s_charts st).

Definition sse_aggregate (st : Service.SSEState) :=
  (Service.textContent st, Service.toolUse st, Service.p_toolResults st,
   Service.p_charts st, Service.p_thinkingContent st, Service.p_hasThinking st).

(** ** Sample inputs *)

Module Samples.

(** A JSON text, written with single quotes in place of the double ones. *)
Definition jq (s : string) : jsstring :=
  map (fun c => if N.eqb c 39 then quote else c) (js s).
Arguments jq s%_string.

Definition event (payload : jsstring) : jsstring :=
  js "event: message.delta" ++ [LF] ++ js "data: " ++ payload.

Definition frame (payload : jsstring) : jsstring := event payload ++ [LF; LF].

Definition done_frame : jsstring :=
  js "event: done" ++ [LF] ++ js "data: {}" ++ [LF; LF].

Definition p_hello : jsstring :=
  jq "{'id':'a','delta':{'content':[{'type':'text','text':'Hello'}]}}".
Definition p_world : jsstring :=
  jq "{'id':'a','delta':{'content':[{'type':'text','text':' world'}]}}".
Definition p_analyst : jsstring :=
  jq "{'id':'b','delta':{'content':[{'type':'tool_use','tool_use':{'name':'DataAnalyst','input':{}}}]}}".
Definition p_chart_tool : jsstring :=
  jq "{'id':'c','delta':{'content':[{'type':'tool_use','tool_use':{'name':'data_to_chart','input':{}}}]}}".
Definition p_sql : jsstring :=
  jq "{'id':'d','delta':{'content':[{'type':'tool_results','tool_results':{'content':[{'type':'json','json':{'sql':'SELECT 1','text':'here'}}]}}]}}".
Definition p_chart : jsstring :=
  jq "{'id':'f','delta':{'content':[{'type':'chart','chart':{'chart_spec':'{}'}}]}}".
Definition p_empty : jsstring := jq "{'id':'g','delta':{'content':[]}}".
Definition p_corrupt : jsstring := jq "{'id':'x','delta':".

(** [caf] followed by U+00E9, and what is left of it when its two bytes
    are decoded apart. *)
Definition p_cafe : jsstring :=
  jq "{'id':'e','delta':{'content':[{'type':'text','text':'caf" ++ [233%N] ++ jq "'}]}}".
Definition p_cafe_split : jsstring :=
  jq "{'id':'e','delta':{'content':[{'type':'text','text':'caf" ++
  [Utf8.replacement; Utf8.replacement] ++ jq "'}]}}".

Definition delta_of (id : string) (items : list ContentItem) : DeltaData :=
  {| dd_id := Some (js id); dd_object := None; delta_content := Some items |}.

(** [JSON.parse] on the payloads above; it throws on [p_corrupt]. *)
Definition parse_table : list (jsstring * DeltaData) :=
  [ (p_hello, delta_of "a" [CText (Some (js "Hello"))]);
    (p_world, delta_of "a" [CText (Some (js " world"))]);
    (p_analyst, delta_of "b" [CToolUse (Some {| tool_name := js "DataAnalyst";
                                                 tool_input := JObj [] |})]);
    (p_chart_tool, delta_of "c" [CToolUse (Some {| tool_name := js "data_to_chart";
                                                    tool_input := JObj [] |})]);
    (p_sql, delta_of "d" [CToolResults (Some [RJson (Some (JObject
               [(js "sql", js "SELECT 1"); (js "text", js "here")]))])]);
    (p_chart, delta_of "f" [CChart (Some (js "{}"))]);
    (p_empty, delta_of "g" []);
    (p_cafe, delta_of "e" [CText (Some (js "caf" ++ [233%N]))]);
    (p_cafe_split, delta_of "e" [CText (Some (js "caf" ++
                                    [Utf8.replacement; Utf8.replacement]))]) ].

Fixpoint assoc {V : Type} (l : list (jsstring * V)) (k : jsstring) : option V :=
  match l with
  | [] => None
  | (k', v) :: l' => if eqs k k' then Some v else assoc l' k
  end.

Definition world (exec : jsstring -> ExecResult) (token : TokenResult)
           (name : option jsstring) (post : HttpResult) : World :=
  {| JSON_parse_delta := assoc parse_table;
     JSON_parse_spec := assoc [(js "{}", JObj [])];
     connection_execute := exec;
     connect_ok := true;
     getSnowflakeAccessToken := token;
     getAgentConfiguration := fun _ => ConfigFound;
     axios_post := post;
     INCLUDE_AGENT_THINKING := true;
     SNOWFLAKE_DATABASE := Some (js "DB");
     SNOWFLAKE_SCHEMA := Some (js "PUBLIC");
     CORTEX_AGENTS_AGENT_NAME := name |}.

Definition no_rows : jsstring -> ExecResult := fun _ => ExecRows [].
Definition one_row : jsstring -> ExecResult := fun _ => ExecRows [[(js "1", js "1")]].
Definition failing : jsstring -> ExecResult := fun _ => ExecThrows (js "boom").

(** A world in which nothing is reached but the decoders. *)
Definition quiet : World := world no_rows TokenNull None HttpThrows.

(** An observer that never throws. *)
Definition listener : Observer := fun _ => false.

(** The bytes of an ASCII text. *)
Definition bytes (s : jsstring) : Buffer := s.

(** The rows of the column-union scenario. *)
Definition mixed_rows : list Row :=
  [ [(js "a", js "1"); (js "b", js "2")];
    [(js "a", js "3"); (js "c", js "4")] ].

Definition square_rows : list Row :=
  [ [(js "a", js "1"); (js "b", js "2")];
    [(js "a", js "3"); (js "b", js "4")] ].

(** The three chunks of the greeting scenario: a frame cut inside its
    text, then the completion marker. *)
Definition hello_chunks : list Buffer :=
  [ bytes (js "event: message.delta" ++ [LF] ++
           jq "data: {'id':'a','delta':{'content':[{'type':'text','text':'Hel");
    bytes (jq "lo'}]}}" ++ [LF; LF]);
    bytes done_frame ].

Definition hello_delta : Delta :=
  {| deltaIndex := 1; content := [CText (Some (js "Hello"))];
     metadata_id := Some (js "a"); metadata_object := None |}.

(** Two tool invocations in a row. *)
Definition two_tools : jsstring := frame p_analyst ++ frame p_chart_tool.

(** A corrupt frame followed by a well-formed one, and one in between two. *)
Definition corrupt_first : jsstring := frame p_corrupt ++ frame p_hello.
Definition corrupt_middle : jsstring :=
  frame p_hello ++ frame p_corrupt ++ frame p_world.


(** The UTF-8 bytes of the frame that carries [p_cafe], whole, and cut
    between the two bytes of U+00E9. *)
Definition cafe_head : Buffer :=
  bytes (js "event: message.delta" ++ [LF] ++
         jq "data: {'id':'e','delta':{'content':[{'type':'text','text':'caf").
Definition cafe_tail : Buffer := bytes (jq "'}]}}" ++ [LF; LF]).
Definition cafe_whole : list Buffer := [cafe_head ++ [195; 169]%N ++ cafe_tail].
Definition cafe_cut : list Buffer := [cafe_head ++ [195%N]; 169%N :: cafe_tail].

Definition corrupt_middle_chunks : list Buffer :=
  [firstn 40 (bytes corrupt_middle); skipn 40 (bytes corrupt_middle)].

(** A tool result that carries a statement. *)
Definition sql_delta : list ContentItem :=
  [CToolResults (Some [RJson (Some (JObject
     [(js "sql", js "SELECT 1"); (js "text", js "here")]))])].

Definition chart_delta : list ContentItem := [CChart (Some (js "{}"))].

(** A token, an agent and a buffered SSE body. *)
Definition buffered (exec : jsstring -> ExecResult) (body : jsstring) : World :=
  world exec (TokenValue (js "jwt")) (Some (js "agent"))
        (HttpResponse 200 (DataString body)).

End Samples.

(** ** Reading a stream *)

(** The text of a chunked stream as the stream handler decodes it. *)
Definition stream_text (chunks : list Buffer) : jsstring :=
  concat (map Utf8.toString chunks).

(** The content items a fragment contributes: those of its delta, when the
    fragment is a relevant frame whose payload parses. *)
Definition event_items (w : World) (event : jsstring) : list ContentItem :=
  if sse_relevant event then
    match Service.match_data event with
    | Some payload =>
        match JSON_parse_delta w payload with
        | Some deltaData =>
            match delta_content deltaData with Some cs => cs | None => [] end
        | None => []
        end
    | None => []
    end
  else [].

Definition is_tool_use (c : ContentItem) : bool :=
  match c with CToolUse _ => true | _ => false end.

Definition is_tool (c : ContentItem) : bool :=
  match c with CToolUse _ | CToolResults _ => true | _ => false end.

(** At most one tool invocation, and none after another tool item. *)
Definition tool_use_leads (items : list ContentItem) : bool :=
  match filter is_tool items with
  | [] => true
  | _ :: rest => forallb (fun c => negb (is_tool_use c)) rest
  end.

(** The deltas the observer was handed, in order. *)
Definition notified (t : list Effect) : list Delta :=
  flat_map (fun e => match e with ECall (NDelta d) => [d] | _ => [] end) t.

(** The thinking text a content item adds when reasoning is shown. *)
Definition item_thinking (c : ContentItem) : jsstring :=
  match c with
  | CThinking t =>
      match Service.thinking_truthy t with
      | Some th => Service.thinkingText th
      | None => []
      end
  | _ => []
  end.

(** The text a content item adds to the answer. *)
Definition item_text (c : ContentItem) : jsstring :=
  match c with CText text => or_else text [] | _ => [] end.

Definition is_chart (c : ContentItem) : bool :=
  match c with CChart _ => true | _ => false end.


(** A thinking item that is acted upon. *)
Definition is_thinking (c : ContentItem) : bool :=
  match c with
  | CThinking t => match Service.thinking_truthy t with Some _ => true | None => false end
  | _ => false
  end.

(** The aggregate of a sequence of content items: the texts appended into
    one text item (left out when empty), then the tool items, then the
    charts. *)
Definition combined_of (items : list ContentItem) : list ContentItem :=
  (match flat_map item_text items with
   | [] => []
   | c :: s => [CText (Some (c :: s))]
   end) ++ filter is_tool items ++ filter is_chart items.

(** The answer of a response. *)
Definition main_of (r : Response) : SynthesizedResult :=
  match r with
  | Single m => m
  | Multi m _ => m
  end.

(** [st'] is [st] after the stream handler has routed [items]. *)
Definition stream_extends (w : World) (st st' : Service.StreamState)
           (items : list ContentItem) : Prop :=
  Service.combinedContent st' = Service.combinedContent st ++ flat_map item_text items /\
  Service.s_toolResults st' = Service.s_toolResults st ++ filter is_tool items /\
  Service.s_charts st' = Service.s_charts st ++ filter is_chart items /\
  Service.s_thinkingContent st' =
    Service.s_thinkingContent st ++
    (if INCLUDE_AGENT_THINKING w then flat_map item_thinking items else []) /\
  Service.s_hasThinking st' =
    Service.s_hasThinking st || (INCLUDE_AGENT_THINKING w && existsb is_thinking items).

Definition is_tool_results (c : ContentItem) : bool :=
  match c with CToolResults _ => true | _ => false end.

(** The tool invocation the buffered parser is left with: the last one. *)
Definition tool_use_slot (items : list ContentItem) (before : option ContentItem)
  : option ContentItem :=
  match find is_tool_use (rev items) with
  | Some c => Some c
  | None => before
  end.

(** [st'] is [st] after the buffered parser has routed [items]. *)
Definition sse_extends (w : World) (st st' : Service.SSEState)
           (items : list ContentItem) : Prop :=
  Service.textContent st' = Service.textContent st ++ flat_map item_text items /\
  Service.toolUse st' = tool_use_slot items (Service.toolUse st) /\
  Service.p_toolResults st' = Service.p_toolResults st ++ filter is_tool_results items /\
  Service.p_charts st' = Service.p_charts st ++ filter is_chart items /\
  Service.p_thinkingContent st' =
    Service.p_thinkingContent st ++
    (if INCLUDE_AGENT_THINKING w then flat_map item_thinking items else []) /\
  Service.p_hasThinking st' =
    Service.p_hasThinking st || (INCLUDE_AGENT_THINKING w && existsb is_thinking items).

(** The aggregate of the buffered parser: one text item, the last tool
    invocation, the tool results, the charts. *)
Definition sse_combined_of (items : list ContentItem) : list ContentItem :=
  (match flat_map item_text items with
   | [] => []
   | c :: s => [CText (Some (c :: s))]
   end) ++
  (match tool_use_slot items None with Some c => [c] | None => [] end) ++
  filter is_tool_results items ++ filter is_chart items.


(** ** Reading a delta *)

(** The statements carried by a tool result and by a delta, in order: the
    non-empty [sql] properties of the [json] objects. *)
Definition result_sql (r : ResultItem) : list jsstring :=
  match r with
  | RJson (Some (JObject o)) =>
      match row_get (js "sql") o with
      | Some (c :: s) => [c :: s]
      | _ => []
      end
  | _ => []
  end.

Definition statements (delta : list ContentItem) : list jsstring :=
  flat_map (fun c => match c with
                     | CToolResults (Some results) => flat_map result_sql results
                     | _ => []
                     end) delta.

(** The rows carried by a tool result and by a delta, in order: an array
    of rows, an object with a [query_id] (as a single row), a CSV text. *)
Definition result_rows (r : ResultItem) : list (list Row) :=
  match r with
  | RJson (Some (JRows rows)) => [rows]
  | RJson (Some (JObject o)) =>
      match row_get (js "query_id") o with
      | Some (_ :: _) => [[o]]
      | _ => []
      end
  | RJson None => []
  | RCsv text => [Service.parseCSVToJSON text]
  | ROther _ => []
  end.

Definition rows_carried (delta : list ContentItem) : list (list Row) :=
  flat_map (fun c => match c with
                     | CToolResults (Some results) => flat_map result_rows results
                     | _ => []
                     end) delta.

(** ** The rest of the bot ([src/bot.js]): the table of a result and the
       cleaning of a question *)

Module Teams.

(** *** [calculateColumnWidths], [padColumn], [formatDataAsTable] *)

(** The object [widths], by column name.  What is read from it is a
    number, or something that is not one (written [None]): the prototype
    under the key [__proto__], which an assignment of a number does not
    change, [undefined] under a key that was never set, and the [NaN] that
    [Math.max] makes of these. *)
Definition Width := option nat.
Definition Widths := list (jsstring * Width).

Fixpoint w_lookup (col : jsstring) (ws : Widths) : Width :=
  match ws with
  | [] => None
  | (k, v) :: ws' => if eqs col k then v else w_lookup col ws'
  end.

(** [widths[col]] *)
Definition w_get (col : jsstring) (ws : Widths) : Width :=
  if eqs col proto then None else w_lookup col ws.

Fixpoint w_update (col : jsstring) (v : Width) (ws : Widths) : Widths :=
  match ws with
  | [] => [(col, v)]
  | (k, v') :: ws' => if eqs col k then (k, v) :: ws' else (k, v') :: w_update col v ws'
  end.

(** [widths[col] = v] *)
Definition w_set (col : jsstring) (v : Width) (ws : Widths) : Widths :=
  if eqs col proto then ws else w_update col v ws.

(** [Math.max(width, n)] *)
Definition Math_max (width : Width) (n : nat) : Width :=
  match width with
  | Some m => Some (Nat.max m n)
  | None => None
  end.

Definition calculateColumnWidths (columns : list jsstring) (data : list Row) : Widths :=
  let widths := fold_left (fun ws col => w_set col (Some (length col)) ws) columns [] in
  let widths :=
    fold_left (fun ws row =>
      fold_left (fun ws' col =>
        w_set col (Math_max (w_get col ws') (length (Bot.displayValue row col))) ws')
        columns ws) data widths in
  fold_left (fun ws col => w_set col (Math_max (w_get col ws) 8) ws) columns widths.

(** [str.padEnd(width)] *)
Definition padEnd (str : jsstring) (width : nat) : jsstring :=
  str ++ repeat 32%N (width - length str).

(** [padColumn]; with a width that is not a number both comparisons are
    false and [padEnd] adds nothing. *)
Definition padColumn (text : jsstring) (width : Width) (truncate : bool) : jsstring :=
  match width with
  | Some width =>
      if truncate && (width <? length text) then firstn (width - 3) text ++ js "..."
      else if negb truncate && (width <? length text) then firstn width text
      else padEnd text width
  | None => text
  end.

(** ['-'.repeat(width)], empty when the width is not a number. *)
Definition dashes (width : Width) : jsstring :=
  match width with
  | Some width => repeat 45%N width
  | None => []
  end.

(** [`| ${row} |\n`] *)
Definition table_line (row : jsstring) : jsstring :=
  js "| " ++ row ++ js " |" ++ [LF].

Definition maxRows : nat := 20.

Definition headerRow (columns : list jsstring) (columnWidths : Widths) : jsstring :=
  join (js " | ") (map (fun col => padColumn col (w_get col columnWidths) true) columns).

Definition separatorRow (columns : list jsstring) (columnWidths : Widths) : jsstring :=
  join (js " | ") (map (fun col => dashes (w_get col columnWidths)) columns).

Definition dataRow (columns : list jsstring) (columnWidths : Widths) (row : Row)
  : jsstring :=
  join (js " | ")
       (map (fun col => padColumn (Bot.displayValue row col) (w_get col columnWidths) false)
            columns).

Definition fence : jsstring := [96; 96; 96]%N.

Definition formatDataAsTable (data : list Row) : jsstring :=
  match data with
  | [] => js "*No data returned*" ++ [LF]
  | _ :: _ =>
      let columns := Bot.allColumns data in
      match columns with
      | [] => js "*No structured data to display*" ++ [LF]
      | _ :: _ =>
          let displayData := firstn maxRows data in
          let columnWidths := calculateColumnWidths columns displayData in
          let table := [LF] ++ fence ++ [LF] in
          let table := table ++ table_line (headerRow columns columnWidths) in
          let table := table ++ table_line (separatorRow columns columnWidths) in
          let table :=
            fold_left (fun table row => table ++ table_line (dataRow columns columnWidths row))
                      displayData table in
          let table := table ++ fence ++ [LF] in
          if maxRows <? length data then
            table ++ [LF] ++ js "*... and " ++ string_of_nat (length data - maxRows) ++
            js " more rows (" ++ string_of_nat (length data) ++ js " total)*" ++ [LF]
          else
            table ++ [LF] ++ js "*" ++ string_of_nat (length data) ++ js " row" ++
            (if Nat.eqb (length data) 1 then [] else js "s") ++ js " returned*" ++ [LF]
      end
  end.

(** *** [sanitizeQuery] *)

Definition semicolon : N := 59.

(** [replace(/;+$/, '')]: the semicolons that end the text. *)
Definition strip_semicolons (s : jsstring) : jsstring :=
  rev (dropWhile (N.eqb semicolon) (rev s)).

(** [replace(/--.*$/gm, '')]: on every line, what follows the first two
    dashes in a row; [in_comment] says the scan is past them. *)
Fixpoint strip_line_comments (in_comment : bool) (s : jsstring) : jsstring :=
  match s with
  | [] => []
  | c :: s' =>
      if in_comment then
        if is_line_terminator c then c :: strip_line_comments false s'
        else strip_line_comments true s'
      else if startsWith (js "--") s then strip_line_comments true s'
      else c :: strip_line_comments false s'
  end.

(** [replace(/\/\*[\s\S]*?\*\//g, '')]: every block from a slash and a star
    to the first star and slash after them; an opening with no closing is
    left in place.  The scan is outside a block, on the star of an
    opening, inside, or on the slash of a closing. *)
Inductive BlockScan := Outside | Opening | Inside | Closing.

Fixpoint strip_block_comments (mode : BlockScan) (s : jsstring) : jsstring :=
  match s with
  | [] => []
  | c :: s' =>
      match mode with
      | Outside =>
          if startsWith (js "/*") s && includes (skipn 2 s) (js "*/")
          then strip_block_comments Opening s'
          else c :: strip_block_comments Outside s'
      | Opening => strip_block_comments Inside s'
      | Inside =>
          if startsWith (js "*/") s then strip_block_comments Closing s'
          else strip_block_comments Inside s'
      | Closing => strip_block_comments Outside s'
      end
  end.

(** [sanitizeQuery]; [None] is a query that is not a string. *)
Definition sanitizeQuery (query : option jsstring) : jsstring :=
  match query with
  | None => []
  | Some q =>
      strip_block_comments Outside
        (strip_line_comments false (strip_semicolons (trim q)))
  end.

(** *** [formatDataRow], [formatSingleResponse], [formatSnowflakeResponse] *)

(** [`${key}: ${row[key]}`] *)
Definition key_value (row : Row) (key : jsstring) : jsstring :=
  key ++ js ": " ++
  match row_get key row with
  | Some v => v
  | None => js "undefined"
  end.

Definition formatDataRow (row : Row) : jsstring :=
  let keys := row_keys row in
  if length keys <=? 3 then join (js ", ") (map (key_value row) keys)
  else
    join (js ", ") (map (key_value row) (firstn 2 keys)) ++
    js ", ... (+" ++ string_of_nat (length keys - 2) ++ js " more fields)".

(** [writeCSVFile(csvContent, recordCount)]: what it returns, the path of
    the file it wrote (named after the time and the number of rows) or the
    text that stands for a failed export. *)
Record Files := { writeCSVFile : jsstring -> nat -> jsstring }.

(** [o] is set and not empty. *)
Definition present (o : option jsstring) : bool :=
  match o with
  | Some (_ :: _) => true
  | _ => false
  end.

Definition text_of (o : option jsstring) : jsstring :=
  match o with
  | Some s => s
  | None => []
  end.

(** U+1F4CA, U+1F4DD and U+1F4A1 as surrogate pairs, and U+2705. *)
Definition bar_chart : jsstring := [55357; 56522]%N.
Definition memo : jsstring := [55357; 56541]%N.
Definition light_bulb : jsstring := [55357; 56481]%N.
Definition check_mark : jsstring := [9989]%N.

(** [result.sql && result.sql.trim()] *)
Definition has_sql (result : SynthesizedResult) : bool :=
  present (sql result) && truthy (trim (text_of (sql result))).

(** The section added for the rows of a statement: the table, then the
    CSV, written to a file when there are more than ten rows. *)
Definition query_results (fs : Files) (rows : list Row) : jsstring :=
  js "**Query Results:**" ++ [LF] ++ formatDataAsTable rows ++
  (let csvContent := Bot.generateCSV rows in
   if 10 <? length rows then
     let csvFilePath := writeCSVFile fs csvContent (length rows) in
     [LF] ++ js "**" ++ bar_chart ++ js " CSV File Created**" ++ [LF] ++
     check_mark ++ js " **" ++ csvFilePath ++ js "** has been created with all " ++
     string_of_nat (length rows) ++ js " records." ++ [LF; LF] ++
     js "*The file is ready for download and can be opened in Excel, Google Sheets, or any spreadsheet application.*" ++
     [LF; LF]
   else
     [LF] ++ js "**" ++ bar_chart ++ js " CSV Download**" ++ [LF] ++
     js "Copy the content below and save as a `.csv` file:" ++ [LF; LF] ++
     js "```csv" ++ [LF] ++ csvContent ++ js "```" ++ [LF; LF]).

(** The section added for rows that come with no statement: the first
    five, numbered from 1. *)
Definition key_findings (rows : list Row) : jsstring :=
  js "**Key Findings:**" ++ [LF] ++
  fold_left (fun response ir =>
               response ++ string_of_nat (fst ir + 1) ++ js ". " ++
               formatDataRow (snd ir) ++ [LF])
            (combine (seq 0 5) (firstn 5 rows)) [] ++
  (if 5 <? length rows
   then [LF] ++ js "*... and " ++ string_of_nat (length rows - 5) ++ js " more results*" ++ [LF]
   else []).

(** [formatSingleResponse].  The results of the service carry no [content],
    [text], [message] or [recommendations]. *)
Definition formatSingleResponse (fs : Files) (result : SynthesizedResult)
           (isThinking : bool) : jsstring :=
  if isThinking then
    if truthy (summary result) then summary result else js "Agent reasoning content"
  else
    let response := bar_chart ++ js " **Analysis Results:**" ++ [LF; LF] in
    let response :=
      if truthy (summary result)
      then response ++ js "**Summary:** " ++ summary result ++ [LF; LF]
      else response in
    let response :=
      if has_sql result
      then response ++ js "**" ++ memo ++ js " SQL Query**" ++ [LF] ++
           js "```sql" ++ [LF] ++ text_of (sql result) ++ [LF] ++ js "```" ++ [LF; LF]
      else response in
    let response :=
      if present (insights result)
      then response ++ [LF] ++ light_bulb ++ js " **Insights:** " ++
           text_of (insights result) ++ [LF]
      else response in
    match data result with
    | [] => response
    | _ :: _ =>
        if has_sql result then response ++ query_results fs (data result)
        else response ++ key_findings (data result)
    end.

(** What [formatSnowflakeResponse] returns: a text, or the texts of the
    answer and of the reasoning. *)
Inductive Formatted :=
| FText (response : jsstring)
| FMessages (mainMessage thinkingMessage : jsstring).

Definition formatSnowflakeResponse (fs : Files) (result : Response) : Formatted :=
  match result with
  | Multi mainMessage thinkingMessage =>
      FMessages (formatSingleResponse fs mainMessage false)
                (formatSingleResponse fs thinkingMessage true)
  | Single r => FText (formatSingleResponse fs r false)
  end.

(** *** [processSnowflakeQueryWithStreaming] *)

(** What the observer of the bot is called with: a notification of the
    service, or the reasoning once the answer is ready. *)
Inductive BotNotification :=
| FromService (n : Notification)
| ThinkingComplete (message : jsstring).   (* type: 'thinking_complete' *)

(** The result says whether the call throws. *)
Definition BotObserver := BotNotification -> bool.

Inductive BotEffect :=
| InService (e : Effect)
| DeltaCallbackWarning                      (* 'Error in delta callback:' *)
| Told (n : BotNotification)                (* onDelta called by the bot itself *)
| ProcessingError.                          (* logger.error in the catch *)

(** [deltaCallback]: it hands the notification over and swallows what the
    observer throws, so the service sees an observer that never throws. *)
Definition deltaCallback (onDelta : option BotObserver) : option Observer :=
  match onDelta with
  | Some _ => Some (fun _ => false)
  | None => None
  end.

(** The trace of the service with the warnings of [deltaCallback] put in. *)
Definition through_callback (onDelta : option BotObserver) (t : list Effect)
  : list BotEffect :=
  flat_map (fun e =>
              InService e ::
              match e, onDelta with
              | ECall n, Some f => if f (FromService n) then [DeltaCallbackWarning] else []
              | _, _ => []
              end) t.

Definition ask_for_a_question : jsstring :=
  js "I need a question to help you. Please ask me about your data.".

Definition processing_failed : jsstring :=
  js "I'm sorry, I encountered an error while processing your request. Please try again or rephrase your question.".

Definition processSnowflakeQueryWithStreaming (fs : Files) (w : World)
           (query : option jsstring) (onDelta : option BotObserver)
  : jsstring * list BotEffect :=
  let sanitizedQuery := sanitizeQuery query in
  if negb (truthy sanitizedQuery) then (ask_for_a_question, [])
  else
    let (result, t) :=
      Service.queryWithCortexAgents w sanitizedQuery (deltaCallback onDelta) in
    let t := through_callback onDelta t in
    match formatSnowflakeResponse fs result with
    | FMessages mainMessage thinkingMessage =>
        match onDelta with
        | Some f =>
            if truthy thinkingMessage then
              if f (ThinkingComplete thinkingMessage)
              then (processing_failed,
                    t ++ [Told (ThinkingComplete thinkingMessage); ProcessingError])
              else (mainMessage, t ++ [Told (ThinkingComplete thinkingMessage)])
            else (mainMessage, t)
        | None => (mainMessage, t)
        end
    | FText response => (response, t)
    end.

(** *** [splitResponseIntoChunks] *)










End Teams.

(** [s] is [t] with some code units taken away. *)
Inductive subseq : jsstring -> jsstring -> Prop :=
| subseq_nil : subseq [] []
| subseq_take (c : N) (s t : jsstring) : subseq s t -> subseq (c :: s) (c :: t)
| subseq_skip (c : N) (s t : jsstring) : subseq s t -> subseq s (c :: t).





(** ** Authentication and the account ([src/services/snowflakeService.js]) *)

Module Account.

(** The part of [process.env] the authentication reads. *)
Record Env := {
  SNOWFLAKE_PRIVATE_KEY_PATH : option jsstring;
  SNOWFLAKE_PRIVATE_KEY : option jsstring;
  SNOWFLAKE_ACCESS_TOKEN : option jsstring;
  SNOWFLAKE_PASSWORD : option jsstring;
  SNOWFLAKE_ACCOUNT : jsstring
}.

Inductive Method := keypair | pat | password | none.

(** A variable of the environment that is set and not empty. *)
Definition is_set (v : option jsstring) : bool :=
  match v with
  | Some (_ :: _) => true
  | _ => false
  end.

Definition getAuthenticationMethod (env : Env) : Method :=
  if is_set (SNOWFLAKE_PRIVATE_KEY_PATH env) || is_set (SNOWFLAKE_PRIVATE_KEY env)
  then keypair
  else if is_set (SNOWFLAKE_ACCESS_TOKEN env) then pat
  else if is_set (SNOWFLAKE_PASSWORD env) then password
  else none.

(** [getSnowflakeAccessToken]: [sign] is the token that reading the key,
    taking its fingerprint and signing the JWT give, [None] when one of
    them throws; what is thrown is caught and gives [null]. *)
Definition getSnowflakeAccessToken (env : Env) (sign : option jsstring) : TokenResult :=
  match getAuthenticationMethod env with
  | keypair =>
      match sign with
      | Some token => TokenValue token
      | None => TokenNull
      end
  | pat =>
      match SNOWFLAKE_ACCESS_TOKEN env with
      | Some token => TokenValue token
      | None => TokenNull
      end
  | password | none => TokenNull
  end.

Definition dot : N := 46.

(** [extractAccountIdentifier] *)
Definition extractAccountIdentifier (env : Env) : jsstring :=
  let account := SNOWFLAKE_ACCOUNT env in
  if includes account [dot] then hd [] (split1 dot account) else account.

End Account.

(** ** More sample inputs *)

Module Cases.

(** A world whose agent streams one frame that carries a thought and a
    text. *)
Definition thinking_world : World :=
  {| JSON_parse_delta := fun _ =>
       Some (Samples.delta_of "t" [CThinking (Some (ThinkString (js "hm")));
                                   CText (Some (js "Hi"))]);
     JSON_parse_spec := fun _ => None;
     connection_execute := Samples.no_rows;
     connect_ok := true;
     getSnowflakeAccessToken := TokenValue (js "jwt");
     getAgentConfiguration := fun _ => ConfigFound;
     axios_post := HttpResponse 200
                     (DataStream [Samples.bytes (Samples.frame Samples.p_hello)] StreamEnded);
     INCLUDE_AGENT_THINKING := true;
     SNOWFLAKE_DATABASE := None;
     SNOWFLAKE_SCHEMA := None;
     CORTEX_AGENTS_AGENT_NAME := Some (js "agent") |}.

(** An account with a password only. *)
Definition password_env : Account.Env :=
  {| Account.SNOWFLAKE_PRIVATE_KEY_PATH := None;
     Account.SNOWFLAKE_PRIVATE_KEY := Some [];
     Account.SNOWFLAKE_ACCESS_TOKEN := None;
     Account.SNOWFLAKE_PASSWORD := Some (js "secret");
     Account.SNOWFLAKE_ACCOUNT := js "xy12345.eu-west-1.aws" |}.

(** A world with a token and an agent whose stream breaks after one
    frame. *)
Definition broken_stream : World :=
  Samples.world Samples.no_rows (TokenValue (js "jwt")) (Some (js "agent"))
    (HttpResponse 200
       (DataStream [Samples.bytes (Samples.frame Samples.p_hello)] StreamFailed)).

(** No file is written. *)
Definition no_files : Teams.Files :=
  {| Teams.writeCSVFile := fun _ _ => js "exports/query_results.csv" |}.

(** An observer of the bot that throws when it is told the reasoning. *)
Definition deaf_to_reasoning : Teams.BotObserver :=
  fun n => match n with Teams.ThinkingComplete _ => true | _ => false end.

End Cases.


(* ================================================================== *)
(** * Part II: properties *)
(* ================================================================== *)

(** ** Splitting on the blank line *)

Section Split2.

Variables a b : N.

(** One step of [split2] on a string of at least two code units. *)
Lemma split2_step c d s :
  split2 a b (c :: d :: s) =
  if N.eqb c a && N.eqb d b then [] :: split2 a b s
  else cons_hd c (split2 a b (d :: s)).
Proof. reflexivity. Qed.

Lemma split2_nonempty (s : jsstring) : split2 a b s <> [].
Proof.
  destruct s as [|c [|d s]]; try discriminate.
  rewrite split2_step.
  destruct (N.eqb c a && N.eqb d b); [discriminate|].
  destruct (split2 a b (d :: s)); discriminate.
Qed.

Lemma removelast_cons_hd c l :
  removelast (cons_hd c l) =
  match l with
  | [] | [_] => []
  | _ => cons_hd c (removelast l)
  end.
Proof. destruct l as [|h [|h' t]]; reflexivity. Qed.

Lemma last_cons_hd c l :
  last (cons_hd c l) [] =
  match l with
  | [] => [c]
  | [h] => c :: h
  | _ => last l []
  end.
Proof. destruct l as [|h [|h' t]]; reflexivity. Qed.

Lemma cons_hd_app c l l' : l <> [] -> cons_hd c (l ++ l') = cons_hd c l ++ l'.
Proof. destruct l; [congruence | reflexivity]. Qed.

(** A string that splits into one fragment is that fragment. *)
Lemma split2_single (s h : jsstring) : split2 a b s = [h] -> h = s.
Proof.
  revert h. induction s as [|c s IH]; intros h H.
  - simpl in H. congruence.
  - destruct s as [|d s].
    + simpl in H. congruence.
    + rewrite split2_step in H. revert H.
      destruct (N.eqb c a && N.eqb d b); intro H.
      * exfalso. injection H as _ H. exact (split2_nonempty _ H).
      * destruct (split2 a b (d :: s)) as [|h' [|h'' t]] eqn:E; simpl in H.
        -- exfalso. exact (split2_nonempty _ E).
        -- injection H as <-. f_equal. exact (IH _ eq_refl).
        -- discriminate.
Qed.


(** Splitting a concatenation: the complete fragments of the first part
    stand, its last fragment is split again with what follows. *)
Lemma split2_app_len (n : nat) :
  forall s t, length s <= n ->
    split2 a b (s ++ t) =
    removelast (split2 a b s) ++ split2 a b (last (split2 a b s) [] ++ t).
Proof.
  induction n as [|n IH]; intros s t Hn.
  - destruct s; [reflexivity | simpl in Hn; lia].
  - destruct s as [|c [|d s]]; try reflexivity.
    simpl length in Hn.
    change ((c :: d :: s) ++ t) with (c :: d :: (s ++ t)).
    rewrite !split2_step.
    destruct (N.eqb c a && N.eqb d b) eqn:E.
    + rewrite (IH s t) by lia.
      pose proof (split2_nonempty s) as Hne.
      destruct (split2 a b s) as [|h l] eqn:Es; [congruence|].
      reflexivity.
    + change (d :: s ++ t) with ((d :: s) ++ t).
      rewrite (IH (d :: s) t) by (simpl; lia).
      rewrite removelast_cons_hd, last_cons_hd.
      pose proof (split2_nonempty (d :: s)) as Hne.
      destruct (split2 a b (d :: s)) as [|h [|h' l]] eqn:Es; [congruence | |].
      * apply split2_single in Es. subst h.
        cbn [removelast last cons_hd app].
        rewrite split2_step, E. reflexivity.
      * rewrite cons_hd_app; [reflexivity | discriminate].
Qed.

Lemma split2_app (s t : jsstring) :
  split2 a b (s ++ t) =
  removelast (split2 a b s) ++ split2 a b (last (split2 a b s) [] ++ t).
Proof. apply (split2_app_len (n := length s)). lia. Qed.

(** The last fragment holds no separator. *)
Lemma split2_last (s : jsstring) :
  split2 a b (last (split2 a b s) []) = [last (split2 a b s) []].
Proof.
  pose proof (split2_app s []) as H.
  rewrite !app_nil_r in H.
  pose proof (split2_nonempty s) as Hne.
  pose proof (split2_nonempty (last (split2 a b s) [])) as Hne'.
  rewrite (app_removelast_last [] Hne) in H at 1.
  apply app_inv_head in H.
  symmetry. exact H.
Qed.

End Split2.

Lemma last_app_ne {A : Type} (l l' : list A) (d : A) :
  l' <> [] -> last (l ++ l') d = last l' d.
Proof.
  intro H. rewrite (app_removelast_last d H), app_assoc. now rewrite !last_last.
Qed.

(** ** Loops with effects *)

Section ForOf.

Context {S A : Type}.
Variable body : S -> A -> S * list Effect.

Lemma for_of_app (s : S) (l1 l2 : list A) :
  Service.for_of body s (l1 ++ l2) =
  let (s1, t1) := Service.for_of body s l1 in
  let (s2, t2) := Service.for_of body s1 l2 in
  (s2, t1 ++ t2).
Proof.
  revert s. induction l1 as [|x l1 IH]; intro s; simpl.
  - destruct (Service.for_of body s l2); reflexivity.
  - destruct (body s x) as [s1 t1]. rewrite IH.
    destruct (Service.for_of body s1 l1) as [s2 t2].
    destruct (Service.for_of body s2 l2) as [s3 t3].
    now rewrite app_assoc.
Qed.

(** A loop whose body commutes with a change of the state commutes with it. *)
Lemma for_of_commute (g : S -> S) :
  (forall s x, body (g s) x = let (s', t) := body s x in (g s', t)) ->
  forall l s, Service.for_of body (g s) l =
              let (s', t) := Service.for_of body s l in (g s', t).
Proof.
  intros Hg l. induction l as [|x l IH]; intro s; simpl; [reflexivity|].
  rewrite Hg. destruct (body s x) as [s1 t1]. rewrite IH.
  destruct (Service.for_of body s1 l); reflexivity.
Qed.


End ForOf.

(** ** The stream handler does not depend on how the text is chunked *)

Section Chunking.

Import Service.

Variable w : World.
Variable onDelta : option Observer.

Lemma set_buffer_id st : set_buffer st (buffer st) = st.
Proof. destruct st; reflexivity. Qed.


Lemma stream_route_set_buffer b c st :
  stream_route w (set_buffer st b) c = set_buffer (stream_route w st c) b.
Proof.
  destruct c; simpl; try reflexivity.
  destruct (thinking_truthy thinking); [|reflexivity].
  destruct (INCLUDE_AGENT_THINKING w); reflexivity.
Qed.

Lemma fold_route_set_buffer b cs st :
  fold_left (stream_route w) cs (set_buffer st b) =
  set_buffer (fold_left (stream_route w) cs st) b.
Proof.
  revert st. induction cs as [|c cs IH]; intro st; simpl; [reflexivity|].
  now rewrite stream_route_set_buffer, IH.
Qed.

Lemma stream_event_set_buffer b st event :
  stream_event w onDelta (set_buffer st b) event =
  let (st', t) := stream_event w onDelta st event in (set_buffer st' b, t).
Proof.
  unfold stream_event.
  destruct (truthy (trim event) && includes event (js "event: message.delta") &&
            includes event (js "data:")); [|reflexivity].
  destruct (match_data event) as [payload|]; [|reflexivity].
  destruct (JSON_parse_delta w payload) as [deltaData|]; [|reflexivity].
  destruct (delta_content deltaData) as [cs|]; [|reflexivity].
  change (stream_bump (set_buffer st b)) with (set_buffer (stream_bump st) b).
  now rewrite fold_route_set_buffer.
Qed.

(** Feeding text chunks is processing, in order, the complete fragments
    of the whole text; the last fragment is what stays in the buffer. *)
Lemma on_text_chunks (texts : list jsstring) :
  forall st,
    events_of (buffer st) = [buffer st] ->
    for_of (on_text w onDelta) st texts =
    let evs := events_of (buffer st ++ concat texts) in
    let (st', t) := for_of (stream_event w onDelta) st (removelast evs) in
    (set_buffer st' (last evs []), t).
Proof.
  induction texts as [|x xs IH]; intros st Hb.
  - simpl. rewrite app_nil_r, Hb. simpl. now rewrite set_buffer_id.
  - cbn [for_of concat]. unfold on_text at 1.
    set (E1 := events_of (buffer st ++ x)).
    rewrite (for_of_commute _ (fun s => set_buffer s (last E1 []))
               (stream_event_set_buffer (last E1 []))).
    destruct (for_of (stream_event w onDelta) st (removelast E1)) as [st1 t1] eqn:R1.
    rewrite IH by (apply split2_last).
    cbn [buffer set_buffer].
    set (E2 := events_of (last E1 [] ++ concat xs)).
    assert (HE2 : E2 <> []) by apply split2_nonempty.
    assert (Hsplit : events_of (buffer st ++ x ++ concat xs) = removelast E1 ++ E2).
    { rewrite app_assoc. apply split2_app. }
    rewrite Hsplit. cbv zeta.
    rewrite (for_of_commute _ (fun s => set_buffer s (last E1 []))
               (stream_event_set_buffer (last E1 []))).
    destruct (for_of (stream_event w onDelta) st1 (removelast E2)) as [st2 t2] eqn:R2.
    rewrite removelast_app, last_app_ne by exact HE2.
    rewrite for_of_app, R1, R2. reflexivity.
Qed.

(** Two ways of chunking the same text leave the handler in the same
    state, with the same effects. *)
Lemma on_text_chunking (texts1 texts2 : list jsstring) :
  concat texts1 = concat texts2 ->
  for_of (on_text w onDelta) stream_init texts1 =
  for_of (on_text w onDelta) stream_init texts2.
Proof.
  intro H. rewrite !on_text_chunks by reflexivity. now rewrite H.
Qed.

Lemma on_data_on_text (chunks : list Buffer) st :
  for_of (on_data w onDelta) st chunks =
  for_of (on_text w onDelta) st (map Utf8.toString chunks).
Proof.
  revert st. induction chunks as [|c cs IH]; intro st; simpl; [reflexivity|].
  unfold on_data at 1. destruct (on_text w onDelta st (Utf8.toString c)).
  now rewrite IH.
Qed.

End Chunking.

(** ** What the formatter does to the outside *)

Section FormatTrace.

Import Service.

Variable w : World.

Lemma emitted_app t1 t2 : emitted (t1 ++ t2) = emitted t1 ++ emitted t2.
Proof. apply flat_map_app. Qed.

Lemma observed_app t1 t2 : observed (t1 ++ t2) = observed t1 ++ observed t2.
Proof. apply flat_map_app. Qed.

Lemma parse_warnings_app t1 t2 :
  parse_warnings (t1 ++ t2) = parse_warnings t1 ++ parse_warnings t2.
Proof. apply flat_map_app. Qed.

Lemma executed_app t1 t2 : executed (t1 ++ t2) = executed t1 ++ executed t2.
Proof. apply flat_map_app. Qed.

Lemma warehouse_only_app t1 t2 :
  warehouse_only t1 -> warehouse_only t2 -> warehouse_only (t1 ++ t2).
Proof.
  intros (A1 & B1 & C1) (A2 & B2 & C2). unfold warehouse_only.
  now rewrite emitted_app, observed_app, parse_warnings_app, A1, A2, B1, B2, C1, C2.
Qed.

Lemma switch_warehouse_only : warehouse_only (switchToOriginalDatabase w).
Proof.
  unfold switchToOriginalDatabase.
  destruct (SNOWFLAKE_DATABASE w) as [[|? ?]|], (SNOWFLAKE_SCHEMA w) as [[|? ?]|];
    repeat split.
Qed.

Lemma fmt_execute_warehouse_only a : warehouse_only (snd (fmt_execute w a)).
Proof.
  unfold fmt_execute.
  destruct (truthy (f_sql a) && truthy (trim (f_sql a))); [|repeat split].
  unfold executeQuery.
  destruct (connection_execute w (f_sql a)) as [[|r rs]|message]; simpl;
    apply warehouse_only_app; try apply switch_warehouse_only; repeat split.
Qed.

Lemma format_warehouse_only delta :
  warehouse_only (snd (formatCortexAgentsResponse w delta)).
Proof.
  unfold formatCortexAgentsResponse.
  destruct (fmt_loop w fmt_init delta) as [a|]; [|repeat split].
  pose proof (fmt_execute_warehouse_only a) as H.
  destruct (fmt_execute w a); exact H.
Qed.

Lemma on_end_warehouse_only st : warehouse_only (snd (on_end w st)).
Proof.
  unfold on_end.
  pose proof (format_warehouse_only (stream_combined st)) as H1.
  destruct (formatCortexAgentsResponse w (stream_combined st)) as [m t1].
  destruct (thinkingMessage_of (s_hasThinking st) (s_thinkingContent st)) as [tm|];
    [|exact H1].
  pose proof (format_warehouse_only tm) as H2.
  destruct (formatCortexAgentsResponse w tm) as [r t2].
  now apply warehouse_only_app.
Qed.

End FormatTrace.

(** ** The two decoders as loops over frames *)

Section Decoders.

Import Service.

Variable w : World.
Variable onDelta : option Observer.

(** The stream handler, chunk by chunk, is one loop over the complete
    frames of the stream. *)
Lemma stream_run (chunks : list Buffer) :
  for_of (on_data w onDelta) stream_init chunks =
  let (st, t) := for_of (stream_event w onDelta) stream_init (stream_frames chunks) in
  (set_buffer st (last (events_of (concat (map Utf8.toString chunks))) []), t).
Proof.
  rewrite on_data_on_text, on_text_chunks by reflexivity. reflexivity.
Qed.

Lemma processStreamingResponse_frames (chunks : list Buffer) :
  forall st t,
    for_of (stream_event w onDelta) stream_init (stream_frames chunks) = (st, t) ->
    let st' := set_buffer st (last (events_of (concat (map Utf8.toString chunks))) []) in
    processStreamingResponse w chunks StreamEnded onDelta =
    (Some (fst (on_end w st')), t ++ snd (on_end w st')).
Proof.
  intros st t H. unfold processStreamingResponse.
  rewrite stream_run, H. cbv zeta.
  destruct (on_end w _); reflexivity.
Qed.

Lemma call_onDelta_quiet n :
  emitted (call_onDelta onDelta (NDelta n) DeltaCallbackError) = [] /\
  parse_warnings (call_onDelta onDelta (NDelta n) DeltaCallbackError) = [].
Proof.
  unfold call_onDelta. destruct onDelta as [f|]; [|split; reflexivity].
  destruct (f (NDelta n)); split; reflexivity.
Qed.

(** *** The live path *)

Lemma stream_route_index st c : s_deltaIndex (stream_route w st c) = s_deltaIndex st.
Proof.
  destruct c; simpl; try reflexivity.
  destruct (thinking_truthy thinking); [|reflexivity].
  destruct (INCLUDE_AGENT_THINKING w); reflexivity.
Qed.

Lemma fold_route_index cs st :
  s_deltaIndex (fold_left (stream_route w) cs st) = s_deltaIndex st.
Proof.
  revert st. induction cs as [|c cs IH]; intro st; simpl; [reflexivity|].
  now rewrite IH, stream_route_index.
Qed.

(** A fragment that is not relevant is passed over. *)
Lemma stream_event_irrelevant st event :
  stream_relevant event = false -> stream_event w onDelta st event = (st, []).
Proof. unfold stream_relevant, stream_event. now intros ->. Qed.

(** A well-formed frame takes the next index and is emitted. *)
Lemma stream_event_parsed st event :
  stream_relevant event = true -> parses w event = true ->
  exists st' d,
    stream_event w onDelta st event =
      (st', EDelta d :: call_onDelta onDelta (NDelta d) DeltaCallbackError) /\
    deltaIndex d = S (s_deltaIndex st) /\
    s_deltaIndex st' = S (s_deltaIndex st).
Proof.
  unfold stream_relevant, stream_event, parses. intros -> H.
  destruct (match_data event) as [payload|]; [|discriminate].
  destruct (JSON_parse_delta w payload) as [deltaData|]; [|discriminate].
  eexists _, _. split; [reflexivity|]. split; [reflexivity|].
  destruct (delta_content deltaData); [|reflexivity].
  now rewrite fold_route_index.
Qed.

(** A corrupt frame takes the next index too, is logged and is not
    emitted. *)
Lemma stream_event_corrupt st event :
  stream_relevant event = true -> corrupt w event = true ->
  stream_event w onDelta st event = (stream_bump st, [EWarn StreamingParseError]).
Proof.
  unfold stream_relevant, stream_event, corrupt. intros -> H.
  destruct (match_data event) as [payload|]; [|discriminate].
  destruct (JSON_parse_delta w payload); [discriminate | reflexivity].
Qed.

Lemma count_cons p x l :
  count p (x :: l) = (if p x then 1 else 0) + count p l.
Proof. unfold count. simpl. destruct (p x); reflexivity. Qed.


(** Well-formed frames are numbered in arrival order from the index that
    follows the current one, and nothing is logged. *)
Lemma stream_events_well_formed evs :
  Forall (well_formed stream_relevant w) evs ->
  forall st,
    let r := for_of (stream_event w onDelta) st evs in
    s_deltaIndex (fst r) = s_deltaIndex st + count stream_relevant evs /\
    map deltaIndex (emitted (snd r)) =
      seq (S (s_deltaIndex st)) (count stream_relevant evs) /\
    parse_warnings (snd r) = [].
Proof.
  induction 1 as [|e evs He _ IH]; intro st; cbv zeta.
  - simpl. rewrite Nat.add_0_r. auto.
  - cbn [for_of]. rewrite count_cons.
    destruct (stream_relevant e) eqn:R.
    + destruct (stream_event_parsed st e R (He R)) as (st1 & d & -> & Hd & Hi).
      specialize (IH st1). cbv zeta in IH.
      destruct (for_of (stream_event w onDelta) st1 evs) as [st2 t2].
      cbn [fst snd] in *. destruct IH as (I1 & I2 & I3).
      destruct (call_onDelta_quiet d) as (Q1 & Q2).
      rewrite Hi in I1, I2.
      split; [lia|]. split.
      * change (EDelta d :: ?x) with ([EDelta d] ++ x).
        rewrite <- !app_assoc, !emitted_app, Q1. simpl.
        now rewrite Hd, I2.
      * change (EDelta d :: ?x) with ([EDelta d] ++ x).
        rewrite <- !app_assoc, !parse_warnings_app, Q2, I3. reflexivity.
    + rewrite (stream_event_irrelevant st e R).
      specialize (IH st). cbv zeta in IH.
      destruct (for_of (stream_event w onDelta) st evs) as [st2 t2].
      exact IH.
Qed.

(** One corrupt frame among well-formed ones. *)
Lemma stream_events_one_corrupt evs1 bad evs2 :
  Forall (well_formed stream_relevant w) evs1 ->
  Forall (well_formed stream_relevant w) evs2 ->
  stream_relevant bad = true -> corrupt w bad = true ->
  let n1 := count stream_relevant evs1 in
  let n2 := count stream_relevant evs2 in
  let r := for_of (stream_event w onDelta) stream_init (evs1 ++ bad :: evs2) in
  s_deltaIndex (fst r) = n1 + 1 + n2 /\
  map deltaIndex (emitted (snd r)) = seq 1 n1 ++ seq (n1 + 2) n2 /\
  parse_warnings (snd r) = [StreamingParseError].
Proof.
  intros H1 H2 Hr Hc. cbv zeta.
  rewrite for_of_app.
  pose proof (stream_events_well_formed H1 stream_init) as A. cbv zeta in A.
  destruct (for_of (stream_event w onDelta) stream_init evs1) as [st1 t1].
  cbn [fst snd] in A. destruct A as (A1 & A2 & A3).
  cbn [for_of]. rewrite (stream_event_corrupt st1 bad Hr Hc).
  pose proof (stream_events_well_formed H2 (stream_bump st1)) as B. cbv zeta in B.
  destruct (for_of (stream_event w onDelta) (stream_bump st1) evs2) as [st2 t2].
  cbn [fst snd] in *. destruct B as (B1 & B2 & B3).
  change (s_deltaIndex (stream_bump st1)) with (S (s_deltaIndex st1)) in B1, B2.
  rewrite A1 in B1, B2. simpl in A1, A2, B1, B2.
  split; [lia|]. split.
  - rewrite !emitted_app, map_app, A2. simpl emitted at 2. simpl app.
    rewrite B2. do 2 f_equal. lia.
  - rewrite !parse_warnings_app, A3. simpl. now rewrite B3.
Qed.

End Decoders.

Section BufferedDecoder.

Import Service.

Variable w : World.
Variable onDelta : option Observer.

(** *** The buffered path *)

Lemma sse_route_count st c :
  deltaCount (sse_route w st c) = deltaCount st /\
  deltas (sse_route w st c) = deltas st.
Proof.
  destruct c; simpl; try (split; reflexivity).
  destruct (thinking_truthy thinking); [|split; reflexivity].
  destruct (INCLUDE_AGENT_THINKING w); split; reflexivity.
Qed.

Lemma fold_sse_route_count cs st :
  deltaCount (fold_left (sse_route w) cs st) = deltaCount st /\
  deltas (fold_left (sse_route w) cs st) = deltas st.
Proof.
  revert st. induction cs as [|c cs IH]; intro st; simpl; [split; reflexivity|].
  destruct (IH (sse_route w st c)) as [-> ->]. apply sse_route_count.
Qed.

(** A fragment that is not relevant builds no delta and logs no parse
    diagnostic; a completion marker only notifies the observer. *)
Lemma sse_event_irrelevant st event :
  sse_relevant event = false ->
  exists t, sse_event w onDelta st event = (st, t) /\
            emitted t = [] /\ parse_warnings t = [].
Proof.
  unfold sse_relevant, sse_event. intros ->.
  destruct (includes event (js "event: done")); [|exists []; auto].
  eexists. split; [reflexivity|].
  unfold call_onDelta. destruct onDelta as [f|]; [|auto].
  destruct (f _); auto.
Qed.

Lemma sse_event_parsed st event :
  sse_relevant event = true -> parses w event = true ->
  exists st' d,
    sse_event w onDelta st event =
      (st', EDelta d :: call_onDelta onDelta (NDelta d) DeltaCallbackError) /\
    deltaIndex d = S (deltaCount st) /\
    deltaCount st' = S (deltaCount st) /\
    deltas st' = deltas st ++ [d].
Proof.
  unfold sse_relevant, sse_event, parses. intros -> H.
  destruct (match_data event) as [payload|]; [|discriminate].
  destruct (JSON_parse_delta w payload) as [deltaData|]; [|discriminate].
  eexists _, _. split; [reflexivity|]. split; [reflexivity|].
  destruct (delta_content deltaData) as [cs|]; [|split; reflexivity].
  destruct (fold_sse_route_count cs
              (sse_push (sse_bump st) (individualDelta (deltaCount (sse_bump st)) deltaData)))
    as [-> ->].
  split; reflexivity.
Qed.

Lemma sse_event_corrupt st event :
  sse_relevant event = true -> corrupt w event = true ->
  sse_event w onDelta st event =
  (sse_bump st, [EWarn (SSEParseError (S (deltaCount st)))]).
Proof.
  unfold sse_relevant, sse_event, corrupt. intros -> H.
  destruct (match_data event) as [payload|]; [|discriminate].
  destruct (JSON_parse_delta w payload); [discriminate | reflexivity].
Qed.

Lemma sse_events_well_formed evs :
  Forall (well_formed sse_relevant w) evs ->
  forall st,
    let r := for_of (sse_event w onDelta) st evs in
    deltaCount (fst r) = deltaCount st + count sse_relevant evs /\
    map deltaIndex (emitted (snd r)) = seq (S (deltaCount st)) (count sse_relevant evs) /\
    deltas (fst r) = deltas st ++ emitted (snd r) /\
    parse_warnings (snd r) = [].
Proof.
  induction 1 as [|e evs He _ IH]; intro st; cbv zeta.
  - simpl. rewrite Nat.add_0_r, app_nil_r. auto.
  - cbn [for_of]. rewrite count_cons.
    destruct (sse_relevant e) eqn:R.
    + destruct (sse_event_parsed st e R (He R)) as (st1 & d & -> & Hd & Hi & Hl).
      specialize (IH st1). cbv zeta in IH.
      destruct (for_of (sse_event w onDelta) st1 evs) as [st2 t2].
      cbn [fst snd] in *. destruct IH as (I1 & I2 & I3 & I4).
      destruct (call_onDelta_quiet onDelta d) as (Q1 & Q2).
      rewrite Hi in I1, I2. rewrite Hl in I3.
      change (EDelta d :: ?x) with ([EDelta d] ++ x).
      rewrite <- !app_assoc, !emitted_app, !parse_warnings_app, Q1, Q2, I4.
      simpl. rewrite Hd, I2, I3, <- app_assoc.
      repeat split; try reflexivity. lia.
    + destruct (sse_event_irrelevant st e R) as (t & -> & E1 & E2).
      specialize (IH st). cbv zeta in IH.
      destruct (for_of (sse_event w onDelta) st evs) as [st2 t2].
      cbn [fst snd] in *.
      now rewrite emitted_app, parse_warnings_app, E1, E2.
Qed.

Lemma sse_events_one_corrupt evs1 bad evs2 :
  Forall (well_formed sse_relevant w) evs1 ->
  Forall (well_formed sse_relevant w) evs2 ->
  sse_relevant bad = true -> corrupt w bad = true ->
  let n1 := count sse_relevant evs1 in
  let n2 := count sse_relevant evs2 in
  let r := for_of (sse_event w onDelta) sse_init (evs1 ++ bad :: evs2) in
  deltaCount (fst r) = n1 + 1 + n2 /\
  map deltaIndex (deltas (fst r)) = seq 1 n1 ++ seq (n1 + 2) n2 /\
  deltas (fst r) = emitted (snd r) /\
  parse_warnings (snd r) = [SSEParseError (n1 + 1)].
Proof.
  intros H1 H2 Hr Hc. cbv zeta.
  rewrite for_of_app.
  pose proof (sse_events_well_formed H1 sse_init) as A. cbv zeta in A.
  destruct (for_of (sse_event w onDelta) sse_init evs1) as [st1 t1].
  cbn [fst snd] in A. destruct A as (A1 & A2 & A3 & A4).
  cbn [for_of]. rewrite (sse_event_corrupt st1 bad Hr Hc).
  pose proof (sse_events_well_formed H2 (sse_bump st1)) as B. cbv zeta in B.
  destruct (for_of (sse_event w onDelta) (sse_bump st1) evs2) as [st2 t2].
  cbn [fst snd] in *. destruct B as (B1 & B2 & B3 & B4).
  change (deltaCount (sse_bump st1)) with (S (deltaCount st1)) in B1, B2.
  change (deltas (sse_bump st1)) with (deltas st1) in B3.
  rewrite A1 in B1, B2. simpl in A1, A2, A3, B1, B2.
  assert (E : emitted (t1 ++ [EWarn (SSEParseError (S (deltaCount st1)))] ++ t2)
              = deltas st2).
  { rewrite !emitted_app. simpl. now rewrite B3, A3. }
  split; [lia|]. rewrite <- E. split; [|split; [reflexivity|]].
  - rewrite !emitted_app, map_app, A2. simpl emitted at 2. simpl app.
    rewrite B2. do 2 f_equal. lia.
  - rewrite !parse_warnings_app, A4, A1. simpl. rewrite B4.
    do 3 f_equal. lia.
Qed.

End BufferedDecoder.

(** ** Synthesis: SQL execution, reasoning and charts *)

Section Synthesis.

Import Service.

Variable w : World.

(** [C7] When reasoning capture produced a non-empty thinking text, the
    reasoning message built from it is formatted without reaching the SQL
    block: nothing is sent to the warehouse ([executeQuery] is not called),
    whatever the thinking text contains, and its [sql] stays empty. *)
Theorem reasoning_result_never_executes_sql
        (hasThinking : bool) (thinkingContent : jsstring) (tm : list ContentItem) :
  thinkingMessage_of hasThinking thinkingContent = Some tm ->
  tm = [CText (Some (reasoning_text thinkingContent))] /\
  snd (formatCortexAgentsResponse w tm) = [] /\
  executed (snd (formatCortexAgentsResponse w tm)) = [] /\
  sql (fst (formatCortexAgentsResponse w tm)) = Some [] /\
  data (fst (formatCortexAgentsResponse w tm)) = [].
Proof.
  unfold thinkingMessage_of.
  destruct (hasThinking && truthy thinkingContent); [|discriminate].
  intro H. injection H as <-.
  split; [reflexivity|].
  unfold formatCortexAgentsResponse. cbn.
  repeat split; reflexivity.
Qed.

(** [C4] When the extracted [sql] is not empty (after trimming, which is
    when [executeQuery] is called) and the call throws, the rows computed
    before the call are returned unchanged, the insights are prefixed with
    the execution-failed marker carrying the error message, and the caller
    still gets a result of source [cortex_agents_api]. *)
Theorem sql_failure_is_folded_into_insights
        (delta : list ContentItem) (a : Fmt) (message : jsstring) :
  extracted w delta = Some a ->
  truthy (trim (f_sql a)) = true ->
  connection_execute w (f_sql a) = ExecThrows message ->
  let r := fst (formatCortexAgentsResponse w delta) in
  let t := snd (formatCortexAgentsResponse w delta) in
  data r = f_data a /\
  insights r = Some (js "SQL query provided but execution failed: " ++ message ++
                     js ". " ++ f_insights a) /\
  sql r = Some (f_sql a) /\
  source r = cortex_agents_api /\
  In (EExecute (f_sql a)) t /\
  In (EWarn (SQLExecutionFailed message)) t.
Proof.
  unfold extracted, formatCortexAgentsResponse. intros -> Ht He. cbv zeta.
  unfold fmt_execute, executeQuery. rewrite Ht, He.
  assert (Hs : truthy (f_sql a) = true).
  { destruct (f_sql a); [discriminate | reflexivity]. }
  rewrite Hs. cbn [andb fst snd data insights sql source f_data f_insights f_sql].
  repeat split.
  - apply in_or_app. right. now left.
  - apply in_or_app. right. right. now left.
Qed.

(** A chart item with a non-empty specification that parses adds one
    entry tagged [vega-lite] and the fixed note. *)
Lemma fmt_content_chart (a : Fmt) (s : jsstring) (v : JValue) :
  s <> [] -> JSON_parse_spec w s = Some v ->
  fmt_content w a (CChart (Some s)) =
  Some {| f_summary := f_summary a; f_data := f_data a;
          f_insights := f_insights a ++ js " Chart visualization included.";
          f_charts := f_charts a ++ [{| chart_type := js "vega-lite"; spec := v |}];
          f_sql := f_sql a |}.
Proof.
  intros Hs Hv. destruct s as [|c s]; [congruence|]. simpl. now rewrite Hv.
Qed.

Lemma fmt_result_charts a r : f_charts (fmt_result a r) = f_charts a.
Proof.
  destruct r as [[[rows|o]|]|text|ty]; simpl; try reflexivity.
  destruct (row_get (js "sql") o) as [[|? ?]|], (row_get (js "query_id") o) as [[|? ?]|];
    reflexivity.
Qed.

Lemma fold_fmt_result_charts rs a : f_charts (fold_left fmt_result rs a) = f_charts a.
Proof.
  revert a. induction rs as [|r rs IH]; intro a; simpl; [reflexivity|].
  now rewrite IH, fmt_result_charts.
Qed.

(** The charts after the loop: those before it, then one entry per
    parsed specification, in order. *)
Lemma fmt_loop_charts (delta : list ContentItem) :
  forall a,
    (forall s, In s (chart_specs delta) -> JSON_parse_spec w s <> None) ->
    exists a' vs,
      fmt_loop w a delta = Some a' /\
      Forall2 (fun s v => JSON_parse_spec w s = Some v) (chart_specs delta) vs /\
      f_charts a' =
        f_charts a ++ map (fun v => {| chart_type := js "vega-lite"; spec := v |}) vs.
Proof.
  induction delta as [|c delta IH]; intros a H.
  - exists a, []. simpl. rewrite app_nil_r. auto.
  - assert (Hskip : forall a1, fmt_content w a (c) = Some a1 ->
                               f_charts a1 = f_charts a ->
                               chart_specs (c :: delta) = chart_specs delta ->
                               exists a' vs,
                                 fmt_loop w a (c :: delta) = Some a' /\
                                 Forall2 (fun s v => JSON_parse_spec w s = Some v)
                                         (chart_specs (c :: delta)) vs /\
                                 f_charts a' = f_charts a ++
                                   map (fun v => {| chart_type := js "vega-lite"; spec := v |}) vs).
    { intros a1 E1 Ec Es. rewrite Es in *.
      destruct (IH a1 H) as (a' & vs & L & F & C).
      exists a', vs. cbn [fmt_loop]. rewrite E1, L, C, Ec. auto. }
    destruct c as [text|[tu|]|[rs|]|[[|c0 s0]|]|th|ty];
      try (eapply Hskip; [reflexivity | reflexivity | reflexivity]).
    + (* tool_use *)
      simpl fmt_content in Hskip.
      destruct (eqs (tool_name tu) (js "DataAnalyst"));
        eapply Hskip; reflexivity.
    + (* tool_results *)
      eapply Hskip; [reflexivity | apply fold_fmt_result_charts | reflexivity].
    + (* a chart with a specification *)
      destruct (JSON_parse_spec w (c0 :: s0)) as [v|] eqn:Ev.
      2:{ exfalso. apply (H (c0 :: s0)); [now left | exact Ev]. }
      set (a1 := {| f_summary := f_summary a; f_data := f_data a;
                    f_insights := f_insights a ++ js " Chart visualization included.";
                    f_charts := f_charts a ++ [{| chart_type := js "vega-lite"; spec := v |}];
                    f_sql := f_sql a |}).
      destruct (IH a1) as (a' & vs & L & F & C).
      { intros s Hs. apply H. now right. }
      exists a', (v :: vs). cbn [fmt_loop fmt_content]. rewrite Ev. fold a1.
      rewrite L. split; [reflexivity|]. split.
      * change (chart_specs (CChart (Some (c0 :: s0)) :: delta))
          with ((c0 :: s0) :: chart_specs delta).
        now constructor.
      * rewrite C. subst a1. cbn [f_charts]. now rewrite <- app_assoc.
Qed.

Lemma fmt_loop_app (pre post : list ContentItem) : forall a,
  fmt_loop w a (pre ++ post) =
  match fmt_loop w a pre with
  | Some a' => fmt_loop w a' post
  | None => None
  end.
Proof.
  induction pre as [|c pre IH]; intro a; [reflexivity|].
  cbn [app fmt_loop]. destruct (fmt_content w a c); [apply IH | reflexivity].
Qed.

(** The loop ends when every specification parses, and throws when one
    does not. *)
Lemma fmt_loop_parsed (delta : list ContentItem) : forall a,
  match parsed_specs w (chart_specs delta) with
  | Some vs => exists a', fmt_loop w a delta = Some a' /\
                          f_charts a' = f_charts a ++ map vega_lite vs
  | None => fmt_loop w a delta = None
  end.
Proof.
  induction delta as [|c delta IH]; intro a.
  - exists a. simpl. now rewrite app_nil_r.
  - assert (Hskip : forall a1, fmt_content w a c = Some a1 ->
                               f_charts a1 = f_charts a ->
                               chart_specs (c :: delta) = chart_specs delta ->
              match parsed_specs w (chart_specs (c :: delta)) with
              | Some vs => exists a', fmt_loop w a (c :: delta) = Some a' /\
                                      f_charts a' = f_charts a ++ map vega_lite vs
              | None => fmt_loop w a (c :: delta) = None
              end).
    { intros a1 E1 Ec Es. rewrite Es. cbn [fmt_loop]. rewrite E1, <- Ec. apply IH. }
    destruct c as [text|[tu|]|[rs|]|[[|c0 s0]|]|th|ty];
      try (eapply Hskip; [reflexivity | reflexivity | reflexivity]).
    + simpl fmt_content in Hskip.
      destruct (eqs (tool_name tu) (js "DataAnalyst")); eapply Hskip; reflexivity.
    + eapply Hskip; [reflexivity | apply fold_fmt_result_charts | reflexivity].
    + change (chart_specs (CChart (Some (c0 :: s0)) :: delta))
        with ((c0 :: s0) :: chart_specs delta).
      cbn [parsed_specs fmt_loop fmt_content].
      destruct (JSON_parse_spec w (c0 :: s0)) as [v|]; [|reflexivity].
      match goal with |- context [fmt_loop w ?a1 delta] => specialize (IH a1) end.
      destruct (parsed_specs w (chart_specs delta)) as [vs|]; [|exact IH].
      destruct IH as (a' & L & C). exists a'. split; [exact L|].
      rewrite C. cbn [f_charts map]. now rewrite <- app_assoc.
Qed.

(** Without a tool item, the loop leaves the statement as it is and adds
    one note per chart to the insights. *)
Lemma fmt_loop_notes (post : list ContentItem) :
  Forall (fun c => is_tool c = false) post ->
  forall a a', fmt_loop w a post = Some a' ->
               f_sql a' = f_sql a /\
               f_insights a' = f_insights a ++ chart_notes (length (chart_specs post)).
Proof.
  induction 1 as [|c post Hc _ IH]; intros a a' L.
  - injection L as <-. unfold chart_notes. simpl. now rewrite app_nil_r.
  - cbn [fmt_loop] in L.
    destruct c as [text|tu|rs|[[|c0 s0]|]|th|ty]; try discriminate Hc;
      try (destruct (IH _ _ L) as [I1 I2]; split; [exact I1 | exact I2]).
    cbn [fmt_content] in L.
    destruct (JSON_parse_spec w (c0 :: s0)) as [v|]; [|discriminate].
    destruct (IH _ _ L) as [I1 I2]. split; [exact I1|].
    rewrite I2. cbn [f_insights].
    change (chart_specs (CChart (Some (c0 :: s0)) :: post))
      with ((c0 :: s0) :: chart_specs post).
    unfold chart_notes. cbn [length repeat concat]. now rewrite <- app_assoc.
Qed.

(** What the SQL block puts before the insights depends on the statement
    alone. *)
Lemma fmt_execute_insights (a b : Fmt) :
  f_sql a = f_sql b ->
  exists p, f_insights (fst (fmt_execute w a)) = p ++ f_insights a /\
            f_insights (fst (fmt_execute w b)) = p ++ f_insights b.
Proof.
  intro H. unfold fmt_execute, executeQuery. rewrite H.
  destruct (truthy (f_sql b) && truthy (trim (f_sql b))).
  - destruct (connection_execute w (f_sql b)) as [[|? ?]|message];
      cbn [fst f_insights].
    + exists (js "SQL query executed but returned no results. "). now split.
    + exists (js "SQL query executed successfully. "). now split.
    + exists (js "SQL query provided but execution failed: " ++ message ++ js ". ").
      now rewrite <- !app_assoc.
  - exists []. now split.
Qed.

Lemma fmt_execute_charts (a : Fmt) : f_charts (fst (fmt_execute w a)) = f_charts a.
Proof.
  unfold fmt_execute.
  destruct (truthy (f_sql a) && truthy (trim (f_sql a))); [|reflexivity].
  unfold executeQuery.
  destruct (connection_execute w (f_sql a)) as [[|? ?]|?]; reflexivity.
Qed.

(** [C8, amended] When every non-empty [chart_spec] string of the
    aggregate parses as JSON, the charts of the result are the entries
    [{type: 'vega-lite', spec}], one per chart item with a non-empty
    [chart_spec], in order; and each of these items appends the note
    [' Chart visualization included.'] to the insights as they stand at its
    place in the loop, so that the insights of the result for an aggregate
    [pre ++ post] whose part [post] holds no tool item are those of the
    result for [pre] followed by one note per such chart item of [post].
    When some non-empty [chart_spec] does not parse, the result is the
    object of the [catch] branch, which has no chart. *)
Theorem charts_are_tagged_vega_lite (pre post : list ContentItem) :
  Forall (fun c => is_tool c = false) post ->
  let r := fst (formatCortexAgentsResponse w (pre ++ post)) in
  match parsed_specs w (chart_specs (pre ++ post)) with
  | Some vs =>
      charts r = Some (map vega_lite vs) /\
      exists before,
        insights (fst (formatCortexAgentsResponse w pre)) = Some before /\
        insights r = Some (before ++ chart_notes (length (chart_specs post)))
  | None => r = formatting_failed
  end.
Proof.
  intros Hpost r. subst r. unfold formatCortexAgentsResponse.
  pose proof (fmt_loop_parsed (pre ++ post) fmt_init) as P.
  destruct (parsed_specs w (chart_specs (pre ++ post))) as [vs|].
  - destruct P as (a' & L & C). rewrite L.
    rewrite fmt_loop_app in L.
    destruct (fmt_loop w fmt_init pre) as [a0|]; [|discriminate].
    destruct (@fmt_loop_notes post Hpost a0 a' L) as [N1 N2].
    destruct (@fmt_execute_insights a' a0 N1) as (p & E' & E0).
    pose proof (fmt_execute_charts a') as Hc.
    destruct (fmt_execute w a') as [a'' t], (fmt_execute w a0) as [a0' t0].
    cbn [fst charts insights] in *. split.
    + now rewrite Hc, C.
    + exists (p ++ f_insights a0). split; [now rewrite E0|].
      now rewrite E', N2, app_assoc.
  - now rewrite P.
Qed.

End Synthesis.

Lemma reasoning_result_never_executes_sql_witness :
  Service.thinkingMessage_of true (js "SELECT 1") =
    Some [CText (Some (Service.reasoning_text (js "SELECT 1")))] /\
  executed (snd (Service.formatCortexAgentsResponse Samples.quiet
                   [CText (Some (Service.reasoning_text (js "SELECT 1")))])) = [].
Proof.
  split; [reflexivity|].
  apply (reasoning_result_never_executes_sql Samples.quiet true (js "SELECT 1")).
  reflexivity.
Defined.

Lemma sql_failure_is_folded_into_insights_witness :
  let w := Samples.world Samples.failing TokenNull None HttpThrows in
  let r := fst (Service.formatCortexAgentsResponse w Samples.sql_delta) in
  data r = [] /\
  insights r = Some (js "SQL query provided but execution failed: boom. here") /\
  sql r = Some (js "SELECT 1").
Proof.
  intros w r.
  destruct (@sql_failure_is_folded_into_insights w Samples.sql_delta _ (js "boom")
              eq_refl eq_refl eq_refl) as (Hd & Hi & Hs & _).
  split; [exact Hd|]. split; [exact Hi | exact Hs].
Defined.

(** [C8] as stated fails: the entry pushed for a chart is tagged
    [vega-lite], not [chart-spec]. *)
Lemma chart_entry_is_not_tagged_chart_spec :
  let r := fst (Service.formatCortexAgentsResponse Samples.quiet Samples.chart_delta) in
  charts r = Some [{| chart_type := js "vega-lite"; spec := JObj [] |}] /\
  charts r <> Some [{| chart_type := js "chart-spec"; spec := JObj [] |}].
Proof. split; [reflexivity | discriminate]. Qed.

(** One specification that does not parse discards the charts parsed
    before it. *)
Lemma one_bad_chart_spec_discards_the_charts :
  fst (Service.formatCortexAgentsResponse Samples.quiet
         [CChart (Some (js "{}")); CChart (Some (js "{oops"))]) =
  Service.formatting_failed.
Proof. reflexivity. Qed.

Lemma charts_are_tagged_vega_lite_witness :
  let w := Samples.world Samples.one_row TokenNull None HttpThrows in
  let pre := Samples.sql_delta ++ Samples.chart_delta in
  let post := [CText (Some (js "done")); CChart (Some (js "{}"))] in
  Forall (fun c => is_tool c = false) post /\
  charts (fst (Service.formatCortexAgentsResponse w (pre ++ post))) =
    Some [vega_lite (JObj []); vega_lite (JObj [])] /\
  insights (fst (Service.formatCortexAgentsResponse w pre)) =
    Some (js "SQL query executed successfully. here Chart visualization included.") /\
  insights (fst (Service.formatCortexAgentsResponse w (pre ++ post))) =
    Some (js "SQL query executed successfully. here Chart visualization included." ++
          js " Chart visualization included.").
Proof.
  intros w pre post.
  assert (Hpost : Forall (fun c => is_tool c = false) post)
    by (repeat constructor).
  split; [exact Hpost|].
  pose proof (@charts_are_tagged_vega_lite w pre post Hpost) as H.
  cbv zeta in H.
  change (parsed_specs w (chart_specs (pre ++ post)))
    with (Some [JObj []; JObj []]) in H.
  destruct H as (Hc & before & Hb & Hi).
  split; [exact Hc|]. split; [reflexivity|].
  rewrite Hi. f_equal.
  assert (E : Some before =
              Some (js "SQL query executed successfully. here Chart visualization included."))
    by (rewrite <- Hb; reflexivity).
  injection E as ->. reflexivity.
Defined.

(** ** Authentication before configuration *)

Section Authentication.

Import Service.

Variable w : World.

Lemma fallback_source query :
  let r := fst (fallbackToBasicQuery w query) in
  (source r = fallback_query \/ source r = error_fallback) /\
  config_lookups (snd (fallbackToBasicQuery w query)) = [].
Proof.
  unfold fallbackToBasicQuery, executeQuery.
  destruct (connect_ok w); [|simpl; auto].
  destruct (connection_execute w (tablesQuery w)); simpl; auto.
Qed.

(** [C10] When the token provider returns null or throws,
    [callCortexAgentsAPI] returns null having asked for nothing but the
    token: the agent configuration is never looked up.
    [queryWithCortexAgents] then returns the result of
    [fallbackToBasicQuery], whose source is [fallback_query] or
    [error_fallback], never [configuration_error], whether or not an agent
    name is configured. *)
Theorem authentication_failure_precedes_configuration_error
        (query : jsstring) (onDelta : option Observer) :
  getSnowflakeAccessToken w = TokenNull \/ getSnowflakeAccessToken w = TokenThrows ->
  callCortexAgentsAPI w query onDelta = (None, [EGetAccessToken]) /\
  queryWithCortexAgents w query onDelta =
    (Single (fst (fallbackToBasicQuery w query)),
     EGetAccessToken :: snd (fallbackToBasicQuery w query)) /\
  config_lookups (snd (queryWithCortexAgents w query onDelta)) = [] /\
  exists r, fst (queryWithCortexAgents w query onDelta) = Single r /\
            (source r = fallback_query \/ source r = error_fallback) /\
            source r <> configuration_error.
Proof.
  intro H.
  assert (Hc : callCortexAgentsAPI w query onDelta = (None, [EGetAccessToken])).
  { unfold callCortexAgentsAPI. destruct H as [-> | ->]; reflexivity. }
  destruct (fallback_source query) as (Hs & Hl). cbv zeta in Hs.
  unfold queryWithCortexAgents. rewrite Hc.
  destruct (fallbackToBasicQuery w query) as [r t] eqn:E. cbn [fst snd] in *.
  repeat split; try reflexivity.
  - exact Hl.
  - exists r. split; [reflexivity|]. split; [exact Hs|].
    destruct Hs as [-> | ->]; discriminate.
Qed.

End Authentication.

Lemma authentication_failure_precedes_configuration_error_witness :
  CORTEX_AGENTS_AGENT_NAME Samples.quiet = None /\
  Service.callCortexAgentsAPI Samples.quiet (js "sales by region") None =
    (None, [EGetAccessToken]) /\
  exists r, fst (Service.queryWithCortexAgents Samples.quiet (js "sales by region") None)
            = Single r /\ source r = fallback_query.
Proof.
  split; [reflexivity|].
  destruct (@authentication_failure_precedes_configuration_error
              Samples.quiet (js "sales by region") None (or_introl eq_refl))
    as (Hc & _ & _ & _).
  split; [exact Hc|].
  eexists. split; reflexivity.
Defined.

(** ** The completion marker *)

Section Completion.

Import Service.

Variable w : World.
Variable onDelta : option Observer.

Lemma only_deltas_app t1 t2 : only_deltas t1 -> only_deltas t2 -> only_deltas (t1 ++ t2).
Proof.
  intros H1 H2 n. rewrite observed_app, in_app_iff.
  intros [H|H]; [exact (H1 n H) | exact (H2 n H)].
Qed.

Lemma stream_event_only_deltas st event :
  only_deltas (snd (stream_event w onDelta st event)).
Proof.
  unfold stream_event.
  destruct (truthy (trim event) && includes event (js "event: message.delta") &&
            includes event (js "data:")); [|intros n []].
  destruct (match_data event) as [payload|]; [|intros n []].
  destruct (JSON_parse_delta w payload) as [deltaData|]; [|intros n []].
  cbn [snd]. unfold call_onDelta. intro n.
  destruct onDelta as [f|]; [|intros []].
  destruct (f _); simpl; intros [H|[]]; discriminate.
Qed.

Lemma for_of_only_deltas {S A : Type} (body : S -> A -> S * list Effect) :
  (forall s x, only_deltas (snd (body s x))) ->
  forall l s, only_deltas (snd (for_of body s l)).
Proof.
  intros Hb l. induction l as [|x l IH]; intro s; simpl; [intros n []|].
  specialize (Hb s x). destruct (body s x) as [s1 t1].
  specialize (IH s1). destruct (for_of body s1 l) as [s2 t2].
  now apply only_deltas_app.
Qed.

Lemma on_data_only_deltas st chunk : only_deltas (snd (on_data w onDelta st chunk)).
Proof.
  unfold on_data, on_text. apply for_of_only_deltas. apply stream_event_only_deltas.
Qed.

(** The stream handler never notifies the observer of a completion,
    whatever the stream holds. *)
Lemma live_path_never_notifies_completion (chunks : list Buffer) (fin : StreamEnd) :
  only_deltas (snd (processStreamingResponse w chunks fin onDelta)).
Proof.
  unfold processStreamingResponse.
  pose proof (for_of_only_deltas (on_data w onDelta) on_data_only_deltas
                                 chunks stream_init) as H.
  destruct (for_of (on_data w onDelta) stream_init chunks) as [st t].
  destruct fin; [|exact H].
  pose proof (on_end_warehouse_only w st) as (_ & Ho & _).
  destruct (on_end w st) as [r t']. cbn [snd] in *.
  apply only_deltas_app; [exact H|]. intro n. rewrite Ho. intros [].
Qed.

End Completion.

(** [C6] on the greeting scenario: the live path hands the observer the
    one delta and no completion notification; the buffered path, on the same
    text, hands it the delta and then the completion with [totalDeltas = 1]. *)
Theorem live_path_misses_the_completion_notification :
  observed (snd (Service.processStreamingResponse
                   Samples.quiet Samples.hello_chunks StreamEnded (Some Samples.listener)))
    = [NDelta Samples.hello_delta] /\
  observed (snd (Service.parseSSEResponse
                   Samples.quiet (concat Samples.hello_chunks) (Some Samples.listener)))
    = [NDelta Samples.hello_delta; NCompletion 1].
Proof. split; vm_compute; reflexivity. Qed.

(** [C1] on two tool invocations in a row: the live path keeps both
    [tool_use] items and reports the insights of the analyst tool, the
    buffered path keeps the last one only and reports the default insights;
    the two results differ. *)
Theorem live_and_buffered_paths_differ_on_repeated_tool_use :
  let live := Service.processStreamingResponse
                Samples.quiet [Samples.bytes Samples.two_tools] StreamEnded None in
  let buffered := Service.handle_sse Samples.quiet Samples.two_tools None in
  length (Service.stream_combined
            (fst (Service.for_of (Service.on_data Samples.quiet None) Service.stream_init
                                 [Samples.bytes Samples.two_tools]))) = 2 /\
  option_map (@length _)
             (Service.combinedDelta
                (fst (Service.parseSSEResponse Samples.quiet Samples.two_tools None)))
    = Some 1 /\
  (exists r, fst live = Some (Single r) /\
             insights r = Some (js "Generated SQL query using Cortex Agents")) /\
  (exists r, fst buffered = Some (Single r) /\
             insights r = Some (js "Response generated by Snowflake Cortex Agents")) /\
  fst live <> fst buffered.
Proof.
  cbv zeta. split; [|split; [|split; [|split]]].
  - vm_compute. reflexivity.
  - vm_compute. reflexivity.
  - eexists. split; vm_compute; reflexivity.
  - eexists. split; vm_compute; reflexivity.
  - vm_compute. discriminate.
Qed.

(** ** Corrupt frames *)

Section Relevance.

Import Service.

Lemma includes_In (c : N) (sub s : jsstring) : includes s (c :: sub) = true -> In c s.
Proof.
  induction s as [|x s IH]; simpl; [discriminate|].
  destruct (N.eqb_spec c x) as [->|_]; [now left|].
  simpl. intro H. right. exact (IH H).
Qed.

Lemma dropWhile_In (p : N -> bool) (c : N) (s : jsstring) :
  In c s -> p c = false -> In c (dropWhile p s).
Proof.
  intros Hin Hp. induction s as [|x s IH]; [contradiction|]. simpl.
  destruct (p x) eqn:E; [|exact Hin].
  destruct Hin as [->|Hin]; [congruence | exact (IH Hin)].
Qed.

Lemma trim_In (c : N) (s : jsstring) : In c s -> is_ws c = false -> In c (trim s).
Proof.
  intros Hin Hc. unfold trim, trimEnd, trimStart.
  apply in_rev. rewrite rev_involutive.
  apply dropWhile_In; [|exact Hc]. apply -> in_rev.
  now apply dropWhile_In.
Qed.

(** A fragment that holds the event marker is not blank: the two decoders
    select the same frames. *)
Lemma relevant_same (event : jsstring) : stream_relevant event = sse_relevant event.
Proof.
  unfold stream_relevant, sse_relevant.
  destruct (includes event (js "event: message.delta")) eqn:E.
  - apply includes_In in E.
    apply trim_In in E; [|reflexivity].
    destruct (trim event); [contradiction | reflexivity].
  - now rewrite andb_false_r.
Qed.

Lemma count_relevant_same (evs : list jsstring) :
  count stream_relevant evs = count sse_relevant evs.
Proof.
  unfold count. f_equal. apply filter_ext. exact relevant_same.
Qed.

Lemma well_formed_same (w : World) (evs : list jsstring) :
  Forall (well_formed sse_relevant w) evs ->
  Forall (well_formed stream_relevant w) evs.
Proof.
  apply Forall_impl. intros e H R. apply H. now rewrite <- relevant_same.
Qed.

End Relevance.

(** [C3, amended] Let the stream hold [n1 + 1 + n2] relevant frames, all
    well formed but one whose JSON is corrupt.  Each decoder returns without
    throwing, logs one parse diagnostic and emits the [n1 + n2] other deltas.
    The corrupt frame keeps the index it was given: the emitted indices are
    [1..n1] and [n1+2..n1+1+n2], and the buffered parser reports
    [totalDeltas = n1 + 1 + n2]. *)
Theorem corrupt_frame_is_skipped_and_keeps_its_index
        (w : World) (onDelta : option Observer)
        (chunks : list Buffer) (sseData : jsstring)
        (evs1 evs2 : list jsstring) (bad : jsstring) :
  stream_frames chunks = evs1 ++ bad :: evs2 ->
  Service.sse_events sseData = evs1 ++ bad :: evs2 ->
  Forall (well_formed sse_relevant w) evs1 ->
  Forall (well_formed sse_relevant w) evs2 ->
  sse_relevant bad = true ->
  corrupt w bad = true ->
  let n1 := count sse_relevant evs1 in
  let n2 := count sse_relevant evs2 in
  let live := Service.processStreamingResponse w chunks StreamEnded onDelta in
  let buffered := Service.parseSSEResponse w sseData onDelta in
  (fst live <> None /\
   length (emitted (snd live)) = n1 + n2 /\
   map deltaIndex (emitted (snd live)) = seq 1 n1 ++ seq (n1 + 2) n2 /\
   parse_warnings (snd live) = [StreamingParseError]) /\
  (length (Service.r_deltas (fst buffered)) = n1 + n2 /\
   map deltaIndex (Service.r_deltas (fst buffered)) = seq 1 n1 ++ seq (n1 + 2) n2 /\
   Service.r_deltas (fst buffered) = emitted (snd buffered) /\
   Service.r_totalDeltas (fst buffered) = n1 + 1 + n2 /\
   parse_warnings (snd buffered) = [SSEParseError (n1 + 1)]).
Proof.
  intros Hlive Hsse H1 H2 Hr Hc. cbv zeta. split.
  - pose proof (@stream_events_one_corrupt w onDelta evs1 bad evs2
                  (well_formed_same H1) (well_formed_same H2)) as A.
    rewrite relevant_same in A. specialize (A Hr Hc). cbv zeta in A.
    rewrite !count_relevant_same in A. rewrite <- Hlive in A.
    destruct (Service.for_of (Service.stream_event w onDelta) Service.stream_init
                             (stream_frames chunks)) as [st t] eqn:E.
    rewrite (@processStreamingResponse_frames w onDelta chunks st t E).
    cbn [fst snd] in *. destruct A as (_ & A2 & A3).
    destruct (on_end_warehouse_only w
                (Service.set_buffer st
                   (last (Service.events_of (concat (map Utf8.toString chunks))) [])))
      as (W1 & _ & W3).
    rewrite emitted_app, parse_warnings_app, W1, W3, !app_nil_r.
    split; [discriminate|]. split; [|split; assumption].
    rewrite <- (length_map deltaIndex), A2, length_app, !length_seq. reflexivity.
  - pose proof (@sse_events_one_corrupt w onDelta evs1 bad evs2 H1 H2 Hr Hc) as B.
    cbv zeta in B. rewrite <- Hsse in B.
    unfold Service.parseSSEResponse.
    destruct (Service.for_of (Service.sse_event w onDelta) Service.sse_init
                             (Service.sse_events sseData)) as [st t].
    cbn [fst snd Service.r_deltas Service.r_totalDeltas] in *.
    destruct B as (B1 & B2 & B3 & B4).
    split; [|repeat split; assumption].
    rewrite <- (length_map deltaIndex), B2, length_app, !length_seq. reflexivity.
Qed.

Lemma corrupt_frame_is_skipped_and_keeps_its_index_witness :
  let live := Service.processStreamingResponse
                Samples.quiet Samples.corrupt_middle_chunks StreamEnded
                (Some Samples.listener) in
  let buffered := Service.parseSSEResponse
                    Samples.quiet Samples.corrupt_middle (Some Samples.listener) in
  map deltaIndex (emitted (snd live)) = [1; 3] /\
  parse_warnings (snd live) = [StreamingParseError] /\
  map deltaIndex (Service.r_deltas (fst buffered)) = [1; 3] /\
  Service.r_totalDeltas (fst buffered) = 3.
Proof.
  intros live buffered.
  destruct (@corrupt_frame_is_skipped_and_keeps_its_index
              Samples.quiet (Some Samples.listener)
              Samples.corrupt_middle_chunks Samples.corrupt_middle
              [Samples.event Samples.p_hello] [Samples.event Samples.p_world]
              (Samples.event Samples.p_corrupt))
    as ((_ & _ & L1 & L2) & (_ & B1 & _ & B2 & _)).
  - vm_compute. reflexivity.
  - vm_compute. reflexivity.
  - constructor; [|constructor]. intros _. vm_compute. reflexivity.
  - constructor; [|constructor]. intros _. vm_compute. reflexivity.
  - vm_compute. reflexivity.
  - vm_compute. reflexivity.
  - split; [exact L1|]. split; [exact L2|]. split; [exact B1 | exact B2].
Defined.

(** [C3] as stated fails: with a corrupt frame first and a well-formed one
    after it, the one delta emitted carries index 2 on both paths, and the
    buffered parser counts two deltas. *)
Lemma corrupt_frame_consumes_an_index :
  let live := Service.processStreamingResponse
                Samples.quiet [Samples.bytes Samples.corrupt_first] StreamEnded None in
  let buffered := Service.parseSSEResponse Samples.quiet Samples.corrupt_first None in
  count sse_relevant (stream_frames [Samples.bytes Samples.corrupt_first]) = 2 /\
  map deltaIndex (emitted (snd live)) = [2] /\
  map deltaIndex (emitted (snd live)) <> seq 1 (length (emitted (snd live))) /\
  map deltaIndex (Service.r_deltas (fst buffered)) = [2] /\
  Service.r_totalDeltas (fst buffered) = 2.
Proof.
  cbv zeta. repeat split; try (vm_compute; reflexivity).
  vm_compute. discriminate.
Qed.

(** ** Empty aggregates *)

Section EmptyAggregate.

Import Service.

Variable w : World.
Variable onDelta : option Observer.








End EmptyAggregate.


(** ** Order preservation under chunking *)

Section OrderPreservation.

Import Service.

Variable w : World.
Variable onDelta : option Observer.

(** Two chunkings whose decoded texts append to the same text give the
    same run: same deltas with the same indices, same result. *)
Lemma chunking_of_the_same_text (chunks1 chunks2 : list Buffer) (fin : StreamEnd) :
  concat (map Utf8.toString chunks1) = concat (map Utf8.toString chunks2) ->
  processStreamingResponse w chunks1 fin onDelta =
  processStreamingResponse w chunks2 fin onDelta.
Proof.
  intro H. unfold processStreamingResponse.
  rewrite !on_data_on_text. now rewrite (on_text_chunking w onDelta _ _ H).
Qed.

(** A buffer of ASCII bytes decodes to itself. *)
Lemma toString_ascii (chunk : Buffer) :
  Forall (fun b => N.leb b 127 = true) chunk -> Utf8.toString chunk = chunk.
Proof.
  unfold Utf8.toString. induction 1 as [|b bs Hb _ IH]; [reflexivity|].
  cbn [Utf8.decode Utf8.remaining Utf8.fresh]. unfold Utf8.lead. rewrite Hb.
  simpl. now rewrite IH.
Qed.

Lemma toString_ascii_chunks (chunks : list Buffer) :
  Forall (fun b => N.leb b 127 = true) (concat chunks) ->
  concat (map Utf8.toString chunks) = concat chunks.
Proof.
  induction chunks as [|c cs IH]; [reflexivity|]. simpl.
  intro H. apply Forall_app in H. destruct H as [Hc Hcs].
  now rewrite (toString_ascii Hc), (IH Hcs).
Qed.

(** An ASCII stream may be cut anywhere. *)
Lemma chunking_of_an_ascii_stream (chunks1 chunks2 : list Buffer) (fin : StreamEnd) :
  Forall (fun b => N.leb b 127 = true) (concat chunks1) ->
  concat chunks1 = concat chunks2 ->
  processStreamingResponse w chunks1 fin onDelta =
  processStreamingResponse w chunks2 fin onDelta.
Proof.
  intros Ha He. apply chunking_of_the_same_text.
  rewrite !toString_ascii_chunks; [exact He | now rewrite <- He | exact Ha].
Qed.

(** The deltas of a stream of well-formed frames are numbered [1..N]. *)
Lemma well_formed_stream_indices (chunks : list Buffer) :
  Forall (well_formed stream_relevant w) (stream_frames chunks) ->
  map deltaIndex (emitted (snd (processStreamingResponse w chunks StreamEnded onDelta)))
  = seq 1 (count stream_relevant (stream_frames chunks)) /\
  parse_warnings (snd (processStreamingResponse w chunks StreamEnded onDelta)) = [].
Proof.
  intro H.
  pose proof (@stream_events_well_formed w onDelta _ H stream_init) as A.
  cbv zeta in A.
  destruct (for_of (stream_event w onDelta) stream_init (stream_frames chunks))
    as [st t] eqn:E.
  rewrite (@processStreamingResponse_frames w onDelta chunks st t E).
  cbn [fst snd] in *. destruct A as (_ & A2 & A3).
  destruct (on_end_warehouse_only w
              (set_buffer st (last (events_of (concat (map Utf8.toString chunks))) [])))
    as (W1 & _ & W3).
  now rewrite emitted_app, parse_warnings_app, W1, W3, !app_nil_r.
Qed.

End OrderPreservation.

(** [C2] on a frame whose text holds U+00E9: the same bytes, fed whole
    and fed in two chunks cut between the two bytes of that character, give
    one delta of index 1 each, but not the same text, because every chunk is
    decoded on its own. *)
Theorem cut_inside_a_character_changes_the_text :
  let whole := Service.processStreamingResponse
                 Samples.quiet Samples.cafe_whole StreamEnded None in
  let cut := Service.processStreamingResponse
               Samples.quiet Samples.cafe_cut StreamEnded None in
  concat Samples.cafe_whole = concat Samples.cafe_cut /\
  map deltaIndex (emitted (snd whole)) = [1] /\
  map deltaIndex (emitted (snd cut)) = [1] /\
  deltas_text (emitted (snd whole)) = js "caf" ++ [233%N] /\
  deltas_text (emitted (snd cut)) = js "caf" ++ [Utf8.replacement; Utf8.replacement] /\
  deltas_text (emitted (snd whole)) <> deltas_text (emitted (snd cut)).
Proof.
  cbv zeta. repeat split; try (vm_compute; reflexivity).
  vm_compute. discriminate.
Qed.

(** ** The CSV formatter and the simplified reader *)

Section Strings.

Lemma eqs_refl (s : jsstring) : eqs s s = true.
Proof. induction s as [|c s IH]; simpl; [reflexivity|]. now rewrite N.eqb_refl. Qed.

Lemma eqs_eq (s t : jsstring) : eqs s t = true -> s = t.
Proof.
  revert t. induction s as [|c s IH]; intros [|d t]; simpl; try discriminate; auto.
  intro H. apply andb_prop in H. destruct H as [H1 H2].
  apply N.eqb_eq in H1. f_equal; auto.
Qed.

Lemma eqs_neq (s t : jsstring) : s <> t -> eqs s t = false.
Proof.
  intro H. destruct (eqs s t) eqn:E; [|reflexivity].
  exfalso. apply H. now apply eqs_eq.
Qed.

Lemma existsb_eqs (k : jsstring) (l : list jsstring) :
  existsb (eqs k) l = true <-> In k l.
Proof.
  rewrite existsb_exists. split.
  - intros (x & Hx & E). apply eqs_eq in E. now subst.
  - intro H. exists k. split; [exact H | apply eqs_refl].
Qed.

(** *** [split] and [join] on one code unit *)

Variable sep : N.

Lemma split1_no_sep (s : jsstring) : ~ In sep s -> split1 sep s = [s].
Proof.
  induction s as [|c s IH]; intro H; [reflexivity|]. simpl.
  destruct (N.eqb_spec c sep) as [->|_].
  - exfalso. apply H. now left.
  - rewrite IH; [reflexivity|]. intro Hin. apply H. now right.
Qed.

Lemma split1_app_sep (s t : jsstring) :
  ~ In sep s -> split1 sep (s ++ sep :: t) = s :: split1 sep t.
Proof.
  induction s as [|c s IH]; intro H; simpl.
  - now rewrite N.eqb_refl.
  - destruct (N.eqb_spec c sep) as [->|_].
    + exfalso. apply H. now left.
    + rewrite IH; [reflexivity|]. intro Hin. apply H. now right.
Qed.

(** Splitting what was joined gives the pieces back. *)
Lemma split1_join (l : list jsstring) :
  l <> [] -> Forall (fun s => ~ In sep s) l -> split1 sep (join [sep] l) = l.
Proof.
  induction l as [|x l IH]; intros Hne Hf; [congruence|].
  inversion Hf as [|? ? Hx Hl]; subst.
  destruct l as [|y l].
  - simpl. now apply split1_no_sep.
  - change (join [sep] (x :: y :: l)) with (x ++ sep :: join [sep] (y :: l)).
    rewrite split1_app_sep by exact Hx.
    rewrite IH; [reflexivity | discriminate | exact Hl].
Qed.

Lemma join_cons2 (s : jsstring) (x y : jsstring) (l : list jsstring) :
  join s (x :: y :: l) = x ++ s ++ join s (y :: l).
Proof. reflexivity. Qed.

Lemma join_nonempty2 (x y : jsstring) (l : list jsstring) :
  join [sep] (x :: y :: l) <> [].
Proof. rewrite join_cons2. destruct x; discriminate. Qed.

(** Lines that each end with the separator are the joined lines and one
    more separator. *)
Lemma flat_map_join (l : list jsstring) :
  l <> [] -> flat_map (fun x => x ++ [sep]) l = join [sep] l ++ [sep].
Proof.
  induction l as [|x l IH]; intro H; [congruence|].
  destruct l as [|y l]; [simpl; now rewrite app_nil_r|].
  rewrite join_cons2. cbn [flat_map] in *.
  rewrite IH by discriminate. now rewrite <- !app_assoc.
Qed.

Lemma join_nil_last (l : list jsstring) : join [sep] l = [] -> last l [] = [].
Proof.
  destruct l as [|x [|y l]]; intro H; auto.
  exfalso. exact (join_nonempty2 x y l H).
Qed.

Lemma join_last (l : list jsstring) (d : N) :
  last l [] <> [] -> last (join [sep] l) d = last (last l []) d.
Proof.
  induction l as [|x l IH]; intro H; [simpl in H; congruence|].
  destruct l as [|y l]; [reflexivity|].
  rewrite join_cons2.
  change (last (x :: y :: l) []) with (last (y :: l) []) in *.
  assert (J : join [sep] (y :: l) <> []).
  { intro E. apply H. now apply join_nil_last. }
  rewrite !last_app_ne; [now apply IH | exact J | discriminate].
Qed.

End Strings.

Section Trim.

Lemma trimEnd_line (s : jsstring) : trimEnd (s ++ [LF]) = trimEnd s.
Proof. unfold trimEnd. now rewrite rev_app_distr. Qed.

Lemma trimEnd_clean (s : jsstring) (d : N) :
  s <> [] -> is_ws (last s d) = false -> trimEnd s = s.
Proof.
  intros Hne Hl. unfold trimEnd.
  rewrite (app_removelast_last d Hne) at 1.
  rewrite rev_app_distr. simpl. rewrite Hl.
  change (last s d :: rev (removelast s)) with ([last s d] ++ rev (removelast s)).
  rewrite rev_app_distr, rev_involutive. simpl.
  symmetry. now apply app_removelast_last.
Qed.

(** A field with no white space at its ends is left alone by [trim]. *)
Lemma trim_clean (s : jsstring) : no_outer_ws s = true -> trim s = s.
Proof.
  destruct s as [|c s]; [reflexivity|]. unfold no_outer_ws.
  intro H. apply andb_prop in H. destruct H as [H1 H2].
  apply negb_true_iff in H1, H2.
  unfold trim, trimStart. cbn [dropWhile]. rewrite H1.
  apply trimEnd_clean with (d := c); [discriminate | exact H2].
Qed.

(** A text that ends with a line feed after such a line loses the line
    feed and nothing else. *)
Lemma trim_line (s : jsstring) :
  s <> [] -> no_outer_ws s = true -> trim (s ++ [LF]) = s.
Proof.
  destruct s as [|c s]; [congruence|]. intros _ H.
  pose proof (trim_clean _ H) as T. unfold no_outer_ws in H.
  apply andb_prop in H. destruct H as [H1 _]. apply negb_true_iff in H1.
  unfold trim, trimStart in *. cbn [dropWhile app] in *. rewrite H1 in *.
  change (c :: s ++ [LF]) with ((c :: s) ++ [LF]).
  now rewrite trimEnd_line.
Qed.

Lemma no_outer_ws_ends (s : jsstring) :
  no_outer_ws s = true <->
  (forall c s', s = c :: s' -> is_ws c = false /\ is_ws (last s c) = false).
Proof.
  destruct s as [|c s]; simpl.
  - split; [discriminate | reflexivity].
  - rewrite andb_true_iff, !negb_true_iff. split.
    + intros [H1 H2] c' s' E. injection E as <- <-. auto.
    + intro H. exact (H c s eq_refl).
Qed.

Lemma last_default {A : Type} (l : list A) (d d' : A) : l <> [] -> last l d = last l d'.
Proof.
  induction l as [|x [|y l] IH]; intro H; [congruence | reflexivity|].
  change (last (y :: l) d = last (y :: l) d'). apply IH. discriminate.
Qed.

(** Joining clean fields with commas gives a line with clean ends. *)
Lemma no_outer_ws_join (fs : list jsstring) :
  Forall (fun f => no_outer_ws f = true) fs -> no_outer_ws (join [comma] fs) = true.
Proof.
  induction 1 as [|x fs Hx Hfs IH]; [reflexivity|].
  destruct fs as [|y fs]; [exact Hx|].
  rewrite join_cons2. set (J := join [comma] (y :: fs)) in *.
  apply (proj2 (no_outer_ws_ends _)). intros c s' E. split.
  - destruct x as [|c0 x]; simpl in E; injection E as <- _; [reflexivity|].
    now destruct (proj1 (no_outer_ws_ends _) Hx c0 x eq_refl).
  - rewrite last_app_ne by discriminate.
    destruct J as [|j js] eqn:EJ; [reflexivity|].
    change ([comma] ++ j :: js) with ([comma] ++ (j :: js)).
    rewrite last_app_ne by discriminate.
    destruct (proj1 (no_outer_ws_ends _) IH j js eq_refl) as [_ IH2].
    rewrite (@last_default _ (j :: js) c j); [exact IH2 | discriminate].
Qed.

(** Joining lines with line feeds: the ends are those of the first and
    of the last line. *)
Lemma no_outer_ws_lines (l0 : jsstring) (ls : list jsstring) :
  l0 <> [] -> last (l0 :: ls) [] <> [] ->
  no_outer_ws l0 = true -> no_outer_ws (last (l0 :: ls) []) = true ->
  join [LF] (l0 :: ls) <> [] /\ no_outer_ws (join [LF] (l0 :: ls)) = true.
Proof.
  intros H0 Hl C0 Cl.
  assert (Hj : exists c s, join [LF] (l0 :: ls) = c :: s /\ is_ws c = false).
  { destruct l0 as [|c l0]; [congruence|].
    destruct (proj1 (no_outer_ws_ends _) C0 c l0 eq_refl) as [C _].
    destruct ls as [|y ls]; [now exists c, l0|].
    rewrite join_cons2. eexists c, _. split; [reflexivity | exact C]. }
  destruct Hj as (c & s & E & Hc). split; [rewrite E; discriminate|].
  apply (proj2 (no_outer_ws_ends _)). intros c' s' E'. rewrite E in E'. injection E' as <- <-.
  split; [exact Hc|]. rewrite (@join_last LF _ c Hl).
  destruct (last (l0 :: ls) []) as [|z zs] eqn:Ez; [congruence|].
  destruct (proj1 (no_outer_ws_ends _) Cl z zs eq_refl) as [_ Cl2].
  rewrite (@last_default _ (z :: zs) c z); [exact Cl2 | discriminate].
Qed.

Lemma plain_spec (f : jsstring) :
  plain f = true ->
  ~ In comma f /\ ~ In quote f /\ ~ In LF f /\ ~ In CR f.
Proof.
  unfold plain. rewrite forallb_forall. intro H.
  repeat split; intro Hin; apply H in Hin; vm_compute in Hin; discriminate.
Qed.

Lemma escapeCSVField_plain (f : jsstring) : plain f = true -> Bot.escapeCSVField f = f.
Proof.
  intro H. unfold Bot.escapeCSVField.
  assert (E : forall c, ~ In c f -> existsb (N.eqb c) f = false).
  { intros c Hc. destruct (existsb (N.eqb c) f) eqn:Ex; [|reflexivity].
    exfalso. apply Hc. apply existsb_exists in Ex. destruct Ex as (x & Hx & Hxc).
    apply N.eqb_eq in Hxc. now subst. }
  destruct (plain_spec f H) as (H1 & H2 & H3 & H4).
  now rewrite (E _ H1), (E _ H2), (E _ H3), (E _ H4).
Qed.

Lemma remove_quotes_plain (f : jsstring) : plain f = true -> remove_quotes f = f.
Proof.
  intro H. destruct (plain_spec f H) as (_ & H2 & _).
  unfold remove_quotes. clear H. induction f as [|c f IH]; [reflexivity|]. simpl.
  destruct (N.eqb_spec c quote) as [->|_].
  - exfalso. apply H2. now left.
  - simpl. rewrite IH; [reflexivity|]. intro Hin. apply H2. now right.
Qed.

(** The reader leaves a plain, trimmed field as it is. *)
Lemma clean_field (f : jsstring) :
  plain f = true -> no_outer_ws f = true -> Service.clean f = f.
Proof.
  intros Hp Hw. unfold Service.clean. now rewrite (trim_clean _ Hw), remove_quotes_plain.
Qed.

End Trim.

Section Rows.

Lemma row_get_replace_same (k v : jsstring) (r : Row) :
  row_get k r <> None -> row_get k (row_replace k v r) = Some v.
Proof.
  induction r as [|[k' v'] r IH]; simpl; [congruence|].
  destruct (eqs k k') eqn:E; simpl; rewrite E; [reflexivity | exact IH].
Qed.

Lemma row_get_replace_other (k k' v : jsstring) (r : Row) :
  k <> k' -> row_get k (row_replace k' v r) = row_get k r.
Proof.
  intro H. induction r as [|[k0 v0] r IH]; simpl; [reflexivity|].
  destruct (eqs k' k0) eqn:E; simpl.
  - apply eqs_eq in E. subst k0. now rewrite (eqs_neq H).
  - now rewrite IH.
Qed.

Lemma row_get_insert_same (n : N) (k v : jsstring) (r : Row) :
  row_get k r = None -> row_get k (row_insert_index n k v r) = Some v.
Proof.
  induction r as [|[k' v'] r IH]; simpl.
  - now rewrite eqs_refl.
  - destruct (eqs k k') eqn:E; [discriminate|]. intro H.
    destruct (array_index k') as [m|]; [destruct (N.ltb m n)|]; simpl;
      rewrite ?E, ?eqs_refl; auto.
Qed.

Lemma row_get_insert_other (n : N) (k k' v : jsstring) (r : Row) :
  k <> k' -> row_get k (row_insert_index n k' v r) = row_get k r.
Proof.
  intro H. induction r as [|[k0 v0] r IH]; simpl.
  - now rewrite (eqs_neq H).
  - destruct (array_index k0) as [m|]; [destruct (N.ltb m n)|]; simpl;
      rewrite ?(eqs_neq H), ?IH; reflexivity.
Qed.

Lemma row_get_app (k : jsstring) (r r' : Row) :
  row_get k (r ++ r') = match row_get k r with Some v => Some v | None => row_get k r' end.
Proof.
  induction r as [|[k0 v0] r IH]; simpl; [reflexivity|].
  destruct (eqs k k0); [reflexivity | exact IH].
Qed.

(** An assignment is read back, unless it went to the setter of
    [__proto__]. *)
Lemma row_get_set_same (k v : jsstring) (r : Row) :
  k <> proto -> row_get k (row_set k v r) = Some v.
Proof.
  intro H. unfold row_set. destruct (row_get k r) eqn:E.
  - apply row_get_replace_same. congruence.
  - rewrite (eqs_neq H). destruct (array_index k).
    + now apply row_get_insert_same.
    + rewrite row_get_app, E. simpl. now rewrite eqs_refl.
Qed.

Lemma row_get_set_other (k k' v : jsstring) (r : Row) :
  k <> k' -> row_get k (row_set k' v r) = row_get k r.
Proof.
  intro H. unfold row_set. destruct (row_get k' r).
  - now apply row_get_replace_other.
  - destruct (eqs k' proto); [reflexivity|]. destruct (array_index k').
    + now apply row_get_insert_other.
    + rewrite row_get_app. simpl. rewrite (eqs_neq H). now destruct (row_get k r).
Qed.

Lemma row_get_absent (k : jsstring) (r : Row) :
  ~ In k (row_keys r) -> row_get k r = None.
Proof.
  induction r as [|[k' v'] r IH]; simpl; intro H; [reflexivity|].
  rewrite eqs_neq; [apply IH|]; intuition congruence.
Qed.

Lemma row_get_entry (k v : jsstring) (r : Row) : row_get k r = Some v -> In (k, v) r.
Proof.
  induction r as [|[k' v'] r IH]; simpl; [discriminate|].
  destruct (eqs k k') eqn:E.
  - apply eqs_eq in E. subst. intro H. injection H as ->. now left.
  - intro H. right. now apply IH.
Qed.

(** What [forEach] builds: the entry of the header at position [j] is the
    value at position [index + j]; other keys are untouched. *)
Lemma forEach_header_get (values : list jsstring) (headers : list jsstring) :
  NoDup headers -> ~ In proto headers ->
  forall index row k,
    (forall j, nth_error headers j = Some k ->
               row_get k (Service.forEach_header headers index values row)
               = Some (nth (index + j) values [])) /\
    (~ In k headers ->
     row_get k (Service.forEach_header headers index values row) = row_get k row).
Proof.
  induction 1 as [|h hs Hh _ IH]; intros Hp index row k; split.
  - intros [|j]; discriminate.
  - reflexivity.
  - assert (Hp' : ~ In proto hs) by (intro; apply Hp; now right).
    intros [|j] Hj; cbn [Service.forEach_header].
    + injection Hj as <-.
      destruct (IH Hp' (S index) (row_set h (nth index values []) row) h) as [_ I2].
      rewrite (I2 Hh), row_get_set_same, Nat.add_0_r; [reflexivity|].
      intros ->. apply Hp. now left.
    + destruct (IH Hp' (S index) (row_set h (nth index values []) row) k) as [I1 _].
      rewrite (I1 j Hj). do 2 f_equal. lia.
  - assert (Hp' : ~ In proto hs) by (intro; apply Hp; now right).
    intro Hk. cbn [Service.forEach_header].
    destruct (IH Hp' (S index) (row_set h (nth index values []) row) k) as [_ I2].
    rewrite I2 by (intro; apply Hk; now right).
    apply row_get_set_other. intro; apply Hk; now left.
Qed.

(** *** The columns *)

Lemma set_add_In (x k : jsstring) (cols : list jsstring) :
  In x (Bot.set_add k cols) <-> x = k \/ In x cols.
Proof.
  unfold Bot.set_add. destruct (existsb (eqs k) cols) eqn:E.
  - apply existsb_eqs in E. split; [auto|]. intros [->|H]; assumption.
  - rewrite in_app_iff. simpl. intuition congruence.
Qed.

Lemma set_add_NoDup (k : jsstring) (cols : list jsstring) :
  NoDup cols -> NoDup (Bot.set_add k cols).
Proof.
  intro H. unfold Bot.set_add. destruct (existsb (eqs k) cols) eqn:E; [exact H|].
  apply NoDup_app; [exact H | repeat constructor; intros [] |].
  intros a Ha [<-|[]]. apply existsb_eqs in Ha. congruence.
Qed.

Lemma add_keys_spec (keys cols : list jsstring) :
  let cols' := fold_left (fun cs k => Bot.set_add k cs) keys cols in
  (forall x, In x cols' <-> In x cols \/ In x keys) /\
  (NoDup cols -> NoDup cols').
Proof.
  revert cols. induction keys as [|k keys IH]; intro cols; cbv zeta; simpl.
  - split; [intuition | auto].
  - destruct (IH (Bot.set_add k cols)) as [I1 I2]. cbv zeta in I1, I2. split.
    + intro x. rewrite I1, set_add_In. intuition.
    + intro H. apply I2. now apply set_add_NoDup.
Qed.

Lemma add_rows_spec (data : list Row) (cols : list jsstring) :
  let cols' := fold_left (fun cs row =>
                 fold_left (fun cs' k => Bot.set_add k cs') (row_keys row) cs) data cols in
  (forall x, In x cols' <-> In x cols \/ exists row, In row data /\ In x (row_keys row)) /\
  (NoDup cols -> NoDup cols').
Proof.
  revert cols. induction data as [|row data IH]; intro cols; cbv zeta; simpl.
  - split; [|auto]. intro x. split; [auto|]. intros [H|(r & [] & _)]. exact H.
  - destruct (add_keys_spec (row_keys row) cols) as [K1 K2]. cbv zeta in K1, K2.
    destruct (IH (fold_left (fun cs' k => Bot.set_add k cs') (row_keys row) cols))
      as [I1 I2]. cbv zeta in I1, I2. split.
    + intro x. rewrite I1, K1. split.
      * intros [[H|H]|(r & Hr & Hx)]; [now left | right; exists row; auto |].
        right. exists r. auto.
      * intros [H|(r & [<-|Hr] & Hx)]; [auto | auto |]. right. exists r. auto.
    + intro H. apply I2, K2, H.
Qed.

Lemma allColumns_spec (data : list Row) :
  (forall x, In x (Bot.allColumns data) <->
             exists row, In row data /\ In x (row_keys row)) /\
  NoDup (Bot.allColumns data).
Proof.
  destruct (add_rows_spec data []) as [A1 A2]. cbv zeta in A1, A2. split.
  - intro x. unfold Bot.allColumns. rewrite A1. split; [|auto].
    intros [[]|H]. exact H.
  - apply A2. constructor.
Qed.

Lemma key_is_field (data : list Row) (row : Row) (k : jsstring) :
  In row data -> In k (row_keys row) -> In k (fields_of data).
Proof.
  intros Hr Hk. unfold fields_of. apply in_flat_map. exists row. split; [exact Hr|].
  unfold row_keys in Hk. apply in_map_iff in Hk. destruct Hk as ([k' v] & <- & Hkv).
  apply in_flat_map. exists (k', v). split; [exact Hkv | now left].
Qed.

Lemma value_is_field (data : list Row) (row : Row) (k v : jsstring) :
  In row data -> In (k, v) row -> In v (fields_of data).
Proof.
  intros Hr Hkv. unfold fields_of. apply in_flat_map. exists row. split; [exact Hr|].
  apply in_flat_map. exists (k, v). split; [exact Hkv | right; now left].
Qed.

End Rows.

Lemma generateCSV_body (data : list Row) :
  data <> [] -> Bot.allColumns data <> [] ->
  Bot.generateCSV data =
  fold_left (fun csv row => csv ++ Bot.csv_line (Bot.allColumns data) row) data
            (join [comma] (map Bot.escapeCSVField (Bot.allColumns data)) ++ [LF]).
Proof.
  intros Hd Hc. unfold Bot.generateCSV. destruct data as [|d ds]; [congruence|].
  cbv zeta. destruct (Bot.allColumns (d :: ds)); [congruence | reflexivity].
Qed.

Lemma last_map {A B : Type} (f : A -> B) (l : list A) (d : A) (d' : B) :
  l <> [] -> last (map f l) d' = f (last l d).
Proof.
  induction l as [|x [|y l] IH]; intro H; [congruence | reflexivity|].
  change (last (map f (y :: l)) d' = f (last (y :: l) d)). apply IH. discriminate.
Qed.

Lemma parseCSVToJSON_lines (t line0 : jsstring) (rest : list jsstring) :
  split1 LF (trim t) = line0 :: rest -> rest <> [] ->
  Service.parseCSVToJSON (Some t) =
  map (fun line => Service.forEach_header (map Service.clean (split1 comma line0)) 0
                     (map Service.clean (split1 comma line)) [])
      rest.
Proof.
  intros E H. unfold Service.parseCSVToJSON. rewrite E.
  destruct rest; [congruence | reflexivity].
Qed.

Section RoundTrip.

Variable data : list Row.

Hypothesis some_row : data <> [].
Hypothesis some_column : Bot.allColumns data <> [].
Hypothesis same_keys : uniform data.
Hypothesis no_proto : ~ In proto (Bot.allColumns data).
Hypothesis clean_fields :
  Forall (fun f => plain f = true /\ no_outer_ws f = true) (fields_of data).
Hypothesis single_column :
  forall k, Bot.allColumns data = [k] ->
            k <> [] /\ Bot.displayValue (last data []) k <> [].

Local Abbreviation columns := (Bot.allColumns data).
Local Abbreviation header := (rendered_header data).
Local Abbreviation line := (rendered_line data).

Lemma field_clean (f : jsstring) :
  In f (fields_of data) -> plain f = true /\ no_outer_ws f = true.
Proof. intro H. exact (proj1 (Forall_forall _ _) clean_fields f H). Qed.

Lemma column_clean (c : jsstring) :
  In c columns -> plain c = true /\ no_outer_ws c = true.
Proof.
  intro H. apply (proj1 (allColumns_spec data)) in H. destruct H as (row & Hr & Hk).
  apply field_clean. exact (key_is_field data row c Hr Hk).
Qed.

Lemma value_clean (row : Row) (c : jsstring) :
  In row data -> In c columns ->
  plain (Bot.displayValue row c) = true /\ no_outer_ws (Bot.displayValue row c) = true.
Proof.
  intros Hr Hc. unfold Bot.displayValue. destruct (row_get c row) as [v|] eqn:E.
  - apply field_clean. apply row_get_entry in E. exact (value_is_field data row c v Hr E).
  - exfalso. exact (same_keys row c Hr Hc E).
Qed.

Lemma csv_line_plain (row : Row) :
  In row data -> Bot.csv_line columns row = line row ++ [LF].
Proof.
  intro Hr. unfold Bot.csv_line, rendered_line. do 2 f_equal.
  apply map_ext_in. intros c Hc. apply escapeCSVField_plain. now apply value_clean.
Qed.

Lemma rows_fold (rows : list Row) :
  (forall row, In row rows -> In row data) ->
  forall init,
    fold_left (fun csv row => csv ++ Bot.csv_line columns row) rows init =
    init ++ flat_map (fun l => l ++ [LF]) (map line rows).
Proof.
  induction rows as [|row rows IH]; intros H init; simpl.
  - now rewrite app_nil_r.
  - rewrite IH by (intros; apply H; now right).
    rewrite csv_line_plain by (apply H; now left).
    now rewrite <- !app_assoc.
Qed.

(** The text rendered: the header and one line per row, each followed by
    a line feed. *)
Lemma generateCSV_lines :
  Bot.generateCSV data = join [LF] (header :: map line data) ++ [LF].
Proof.
  rewrite (generateCSV_body some_row some_column).
  rewrite rows_fold by auto.
  rewrite <- (@flat_map_join LF) by discriminate.
  cbn [flat_map]. do 2 f_equal. unfold rendered_header. f_equal.
  rewrite <- (map_id columns) at 2. apply map_ext_in.
  intros c0 Hc. apply escapeCSVField_plain. now apply column_clean.
Qed.

Lemma header_not_empty : header <> [].
Proof.
  unfold rendered_header. revert some_column single_column.
  destruct columns as [|k [|k' ks]]; intros Hc Hs.
  - congruence.
  - simpl. exact (proj1 (Hs k eq_refl)).
  - apply join_nonempty2.
Qed.

Lemma last_line_not_empty : last (header :: map line data) [] <> [].
Proof.
  assert (Hm : map line data <> []).
  { intro E. apply map_eq_nil in E. exact (some_row E). }
  change (header :: map line data) with ([header] ++ map line data).
  rewrite (last_app_ne _ _ Hm), (last_map line [] [] some_row).
  unfold rendered_line. revert some_column single_column.
  destruct columns as [|k [|k' ks]]; intros Hc Hs.
  - congruence.
  - simpl. exact (proj2 (Hs k eq_refl)).
  - apply join_nonempty2.
Qed.

Lemma header_clean : no_outer_ws header = true.
Proof.
  apply no_outer_ws_join. apply Forall_forall. intros c Hc. now apply column_clean.
Qed.

Lemma line_clean (row : Row) : In row data -> no_outer_ws (line row) = true.
Proof.
  intro Hr. apply no_outer_ws_join. apply Forall_forall. intros v Hv.
  apply in_map_iff in Hv. destruct Hv as (c & <- & Hc). now apply value_clean.
Qed.

Lemma last_line_clean : no_outer_ws (last (header :: map line data) []) = true.
Proof.
  assert (H : forall l, In l (header :: map line data) -> no_outer_ws l = true).
  { intros l [<-|Hl]; [apply header_clean|].
    apply in_map_iff in Hl. destruct Hl as (row & <- & Hr). now apply line_clean. }
  apply H. generalize header. clear. intro h.
  induction (map line data) as [|x l IH] in h |- *; [now left|].
  right. apply IH.
Qed.

Lemma In_join (x sep : N) (fs : list jsstring) :
  In x (join [sep] fs) -> x = sep \/ exists f, In f fs /\ In x f.
Proof.
  induction fs as [|f fs IH]; [intros []|].
  destruct fs as [|g fs].
  - intro H. right. exists f. split; [now left | exact H].
  - rewrite join_cons2, !in_app_iff. intros [H|[[<-|[]]|H]].
    + right. exists f. split; [now left | exact H].
    + now left.
    + destruct (IH H) as [->|(f' & Hf' & Hx)]; [now left|].
      right. exists f'. split; [now right | exact Hx].
Qed.

Lemma header_one_line : ~ In LF header.
Proof.
  intro H. apply In_join in H. destruct H as [H|(c & Hc & Hx)]; [discriminate|].
  destruct (column_clean c Hc) as [Hp _].
  destruct (plain_spec c Hp) as (_ & _ & H3 & _). exact (H3 Hx).
Qed.

Lemma line_one_line (row : Row) : In row data -> ~ In LF (line row).
Proof.
  intros Hr H. apply In_join in H. destruct H as [H|(v & Hv & Hx)]; [discriminate|].
  apply in_map_iff in Hv. destruct Hv as (c & <- & Hc).
  destruct (value_clean row c Hr Hc) as [Hp _].
  destruct (plain_spec _ Hp) as (_ & _ & H3 & _). exact (H3 Hx).
Qed.

(** What the reader sees as lines. *)
Lemma lines_read :
  split1 LF (trim (Bot.generateCSV data)) = header :: map line data.
Proof.
  rewrite generateCSV_lines.
  destruct (no_outer_ws_lines (map line data) header_not_empty last_line_not_empty
                              header_clean last_line_clean) as [Hne Hc].
  rewrite (trim_line Hne Hc).
  apply split1_join; [discriminate|]. constructor; [apply header_one_line|].
  apply Forall_forall. intros l Hl. apply in_map_iff in Hl.
  destruct Hl as (row & <- & Hr). now apply line_one_line.
Qed.

Lemma headers_read : map Service.clean (split1 comma header) = columns.
Proof.
  unfold rendered_header. rewrite split1_join.
  - rewrite <- (map_id columns) at 2. apply map_ext_in. intros c Hc.
    destruct (column_clean c Hc). now apply clean_field.
  - exact some_column.
  - apply Forall_forall. intros c Hc. destruct (column_clean c Hc) as [Hp _].
    now destruct (plain_spec c Hp).
Qed.

Lemma values_read (row : Row) :
  In row data ->
  map Service.clean (split1 comma (line row)) = map (Bot.displayValue row) columns.
Proof.
  intro Hr. unfold rendered_line. rewrite split1_join.
  - rewrite <- (map_id (map _ columns)) at 2. apply map_ext_in. intros v Hv.
    apply in_map_iff in Hv. destruct Hv as (c & <- & Hc).
    destruct (value_clean row c Hr Hc). now apply clean_field.
  - intro E. apply map_eq_nil in E. exact (some_column E).
  - apply Forall_forall. intros v Hv. apply in_map_iff in Hv.
    destruct Hv as (c & <- & Hc). destruct (value_clean row c Hr Hc) as [Hp _].
    now destruct (plain_spec _ Hp).
Qed.

(** The row built from a line is the row the line was rendered from. *)
Lemma row_read (row : Row) :
  In row data ->
  row_equiv (Service.forEach_header columns 0 (map (Bot.displayValue row) columns) []) row.
Proof.
  intros Hr k.
  destruct (forEach_header_get (map (Bot.displayValue row) columns)
                               (proj2 (allColumns_spec data)) no_proto 0 [] k) as [G1 G2].
  destruct (in_dec (list_eq_dec N.eq_dec) k columns) as [Hin|Hout].
  - destruct (In_nth_error _ _ Hin) as (j & Hj).
    rewrite (G1 j Hj). change (0 + j) with j.
    transitivity (Some (Bot.displayValue row k)).
    { f_equal. apply nth_error_nth. now apply map_nth_error. }
    unfold Bot.displayValue.
    destruct (row_get k row) as [v|] eqn:E; [reflexivity|].
    exfalso. exact (same_keys row k Hr Hin E).
  - rewrite (G2 Hout). simpl. symmetry. apply row_get_absent.
    intro Hk. apply Hout. apply (proj1 (allColumns_spec data)). now exists row.
Qed.

(** [C9, amended] Rendering and reading back gives the rows back, as
    maps of own properties, for a non-empty sequence of rows with string
    values in which every row has all the columns (at least one), no column
    is named [__proto__], every key and value is free of commas, double
    quotes, line feeds and carriage returns and has no white space at either
    end, and, when there is a single column, its name and the last row's
    value are not empty. *)
Theorem csv_round_trip_on_uniform_clean_rows :
  Forall2 row_equiv (Service.parseCSVToJSON (Some (Bot.generateCSV data))) data.
Proof.
  assert (Hm : map line data <> []).
  { intro E. apply map_eq_nil in E. exact (some_row E). }
  rewrite (parseCSVToJSON_lines _ lines_read Hm), headers_read.
  assert (H : forall rows, (forall row, In row rows -> In row data) ->
              Forall2 row_equiv
                (map (fun l => Service.forEach_header columns 0
                                 (map Service.clean (split1 comma l)) [])
                     (map line rows)) rows).
  { induction rows as [|row rows IH]; intro Hin; simpl; constructor.
    - rewrite values_read by (apply Hin; now left). apply row_read. apply Hin. now left.
    - apply IH. intros; apply Hin; now right. }
  apply H. auto.
Qed.

End RoundTrip.

Lemma csv_round_trip_on_uniform_clean_rows_witness :
  Forall2 row_equiv
          (Service.parseCSVToJSON (Some (Bot.generateCSV Samples.square_rows)))
          Samples.square_rows.
Proof.
  apply csv_round_trip_on_uniform_clean_rows.
  - discriminate.
  - vm_compute. discriminate.
  - intros row col Hr Hc.
    vm_compute in Hc. destruct Hc as [<-|[<-|[]]];
      destruct Hr as [<-|[<-|[]]]; vm_compute; discriminate.
  - vm_compute. intros [H|[H|[]]]; discriminate.
  - vm_compute. repeat constructor.
  - intros k H. vm_compute in H. discriminate.
Defined.

(** [C9] as stated fails.  On the rows of the column-union scenario,
    whose keys and values hold no comma, double quote or newline, the text
    rendered is [a,b,c / 1,2, / 3,,4] and the first row read back has a
    column [c] (with the empty string) that the original row does not have. *)
Lemma csv_round_trip_fails_on_mixed_keys :
  Samples.mixed_rows <> [] /\
  forallb plain (fields_of Samples.mixed_rows) = true /\
  Bot.generateCSV Samples.mixed_rows = js "a,b,c" ++ [LF] ++ js "1,2," ++ [LF] ++
                                       js "3,,4" ++ [LF] /\
  ~ Forall2 row_equiv
            (Service.parseCSVToJSON (Some (Bot.generateCSV Samples.mixed_rows)))
            Samples.mixed_rows.
Proof.
  split; [discriminate|]. split; [reflexivity|]. split; [reflexivity|].
  intro H. vm_compute in H. inversion H as [|r1 r1' l l' E _]; subst.
  specialize (E (js "c")). vm_compute in E. discriminate.
Qed.

(** A value with white space at an end comes back without it. *)
Lemma csv_round_trip_fails_on_padded_value :
  ~ Forall2 row_equiv
            (Service.parseCSVToJSON (Some (Bot.generateCSV [[(js "a", js " x")]])))
            [[(js "a", js " x")]].
Proof.
  intro H. vm_compute in H. inversion H as [|r1 r1' l l' E _]; subst.
  specialize (E (js "a")). vm_compute in E. discriminate.
Qed.

(** A column named [__proto__], an own property of a row that came out of
    [JSON.parse], is written to the text and lost by the reader, whose
    assignment reaches the setter of [Object.prototype]. *)
Lemma csv_round_trip_fails_on_proto_key :
  Bot.generateCSV [[(proto, js "x")]] = js "__proto__" ++ [LF] ++ js "x" ++ [LF] /\
  Service.parseCSVToJSON (Some (Bot.generateCSV [[(proto, js "x")]])) = [[]].
Proof. split; reflexivity. Qed.

(** With a single column, a last row whose value is empty is lost. *)
Lemma csv_round_trip_fails_on_trailing_empty_value :
  Service.parseCSVToJSON (Some (Bot.generateCSV [[(js "a", js "x")]; [(js "a", [])]]))
  = [[(js "a", js "x")]].
Proof. reflexivity. Qed.

(** ** Scenarios *)

(** The greeting scenario on the live path: the frame cut inside its text
    gives one delta, and the text is put back together. *)
Example greeting_scenario :
  let r := Service.processStreamingResponse
             Samples.quiet Samples.hello_chunks StreamEnded None in
  emitted (snd r) = [Samples.hello_delta] /\
  exists res, fst r = Some (Single res) /\ summary res = js "Hello".
Proof. split; [reflexivity|]. eexists. split; reflexivity. Qed.

(** The statement scenario: the statement carried by a tool result is
    executed in the restored context, and its rows are the rows of the
    result. *)
Example statement_scenario :
  let w := Samples.world Samples.one_row TokenNull None HttpThrows in
  let r := Service.formatCortexAgentsResponse w Samples.sql_delta in
  let live := Service.processStreamingResponse
                w [Samples.bytes (Samples.frame Samples.p_sql)] StreamEnded None in
  data (fst r) = [[(js "1", js "1")]] /\
  sql (fst r) = Some (js "SELECT 1") /\
  insights (fst r) = Some (js "SQL query executed successfully. here") /\
  executed (snd r) = [js "USE DATABASE DB"; js "USE SCHEMA PUBLIC"; js "SELECT 1"] /\
  fst live = Some (Single (fst r)).
Proof. repeat split; vm_compute; reflexivity. Qed.

(** A delta with an empty content: the live path answers with the result
    of an empty aggregate, the buffered path with null. *)
Example empty_content_scenario :
  let text := Samples.frame Samples.p_empty in
  fst (Service.processStreamingResponse Samples.quiet [Samples.bytes text] StreamEnded None)
    = Some (Single empty_result) /\
  fst (Service.handle_sse Samples.quiet text None) = None.
Proof. split; reflexivity. Qed.

(** A chart delta, end to end. *)
Example chart_scenario :
  let text := Samples.frame Samples.p_chart in
  exists res,
    fst (Service.processStreamingResponse Samples.quiet [Samples.bytes text] StreamEnded None)
      = Some (Single res) /\
    charts res = Some [{| chart_type := js "vega-lite"; spec := JObj [] |}] /\
    insights res = Some (js "Response generated by Snowflake Cortex Agents Chart visualization included.").
Proof. eexists. repeat split; vm_compute; reflexivity. Qed.

(** The star of the data pattern gives back: after [data:], a space and a
    line feed leave the space to the group. *)
Example data_pattern_gives_back :
  Service.match_data (js "data: " ++ [LF]) = Some (js " ") /\
  Service.match_data (js "data:" ++ [LF]) = None /\
  Service.match_data (js "metadata: x" ++ [LF] ++ js "data: y") = Some (js "x").
Proof. repeat split; reflexivity. Qed.

(* ================================================================== *)
(** * Part III: further properties of the code *)
(* ================================================================== *)

(** ** The observer *)

Section Observers.

Import Service.

Variable w : World.

Lemma notified_app t1 t2 : notified (t1 ++ t2) = notified t1 ++ notified t2.
Proof. apply flat_map_app. Qed.

(** What is left of a trace when the calls of the observer and the
    warnings about it are taken out. *)
Lemma call_onDelta_silent od n wn :
  (wn = DeltaCallbackError \/ wn = CompletionCallbackError) ->
  emitted (call_onDelta od n wn) = [] /\
  executed (call_onDelta od n wn) = [] /\
  parse_warnings (call_onDelta od n wn) = [].
Proof.
  intro H. unfold call_onDelta. destruct od as [f|]; [|auto].
  destruct (f n); destruct H as [-> | ->]; auto.
Qed.

(** A property of traces kept by every pass of a loop is kept by the loop. *)
Lemma for_of_trace {S A : Type} (P : list Effect -> Prop)
      (body : S -> A -> S * list Effect) :
  P [] -> (forall t1 t2, P t1 -> P t2 -> P (t1 ++ t2)) ->
  (forall s x, P (snd (body s x))) ->
  forall l s, P (snd (for_of body s l)).
Proof.
  intros H0 Happ Hb l. induction l as [|x l IH]; intro s; simpl; [exact H0|].
  pose proof (Hb s x) as H1. destruct (body s x) as [s1 t1].
  pose proof (IH s1) as H2. destruct (for_of body s1 l) as [s2 t2].
  now apply Happ.
Qed.

Lemma sse_route_deltas st c : deltas (sse_route w st c) = deltas st.
Proof.
  destruct c; simpl; try reflexivity.
  destruct (thinking_truthy thinking); [|reflexivity].
  destruct (INCLUDE_AGENT_THINKING w); reflexivity.
Qed.

Lemma fold_sse_route_deltas cs st : deltas (fold_left (sse_route w) cs st) = deltas st.
Proof.
  revert st. induction cs as [|c cs IH]; intro st; simpl; [reflexivity|].
  now rewrite IH, sse_route_deltas.
Qed.

Lemma sse_event_deltas od st event :
  deltas (fst (sse_event w od st event)) = deltas st ++ emitted (snd (sse_event w od st event)).
Proof.
  unfold sse_event.
  destruct (includes event (js "event: message.delta") && _).
  - destruct (match_data event) as [p|]; [|now rewrite app_nil_r].
    destruct (JSON_parse_delta w p) as [dd|]; [|now rewrite app_nil_r].
    cbn [fst snd].
    destruct (call_onDelta_silent od
                (NDelta (individualDelta (deltaCount (sse_bump st)) dd))
                (or_introl eq_refl)) as (E1 & _ & _).
    change (EDelta ?d :: ?x) with ([EDelta d] ++ x).
    rewrite emitted_app, E1. simpl.
    destruct (delta_content dd); [now rewrite fold_sse_route_deltas|reflexivity].
  - destruct (includes event (js "event: done")); [|now rewrite app_nil_r].
    cbn [fst snd].
    destruct (call_onDelta_silent od (NCompletion (deltaCount st))
                (or_intror eq_refl)) as (E1 & _ & _).
    now rewrite E1, app_nil_r.
Qed.

Lemma sse_events_deltas od evs st :
  deltas (fst (for_of (sse_event w od) st evs)) =
  deltas st ++ emitted (snd (for_of (sse_event w od) st evs)).
Proof.
  revert st. induction evs as [|e evs IH]; intro st; simpl; [now rewrite app_nil_r|].
  pose proof (sse_event_deltas od st e) as H.
  destruct (sse_event w od st e) as [s1 t1].
  pose proof (IH s1) as H'. destruct (for_of (sse_event w od) s1 evs) as [s2 t2].
  cbn [fst snd] in *. now rewrite H', H, emitted_app, app_assoc.
Qed.

(** [X2] Every delta the stream handler builds is handed to the observer,
    once and in order, and the observer is told nothing else; the buffered
    parser hands over the deltas it returns in its [deltas] array. *)
Theorem every_delta_is_handed_to_the_observer
        (chunks : list Buffer) (fin : StreamEnd) (sseData : jsstring) (f : Observer) :
  let live := processStreamingResponse w chunks fin (Some f) in
  let buffered := parseSSEResponse w sseData (Some f) in
  observed (snd live) = map NDelta (emitted (snd live)) /\
  notified (snd buffered) = emitted (snd buffered) /\
  r_deltas (fst buffered) = emitted (snd buffered).
Proof.
  cbv zeta. split; [|split].
  - assert (H : forall st chunk,
               observed (snd (on_data w (Some f) st chunk)) =
               map NDelta (emitted (snd (on_data w (Some f) st chunk)))).
    { intros st chunk. unfold on_data, on_text.
      apply (for_of_trace (fun t => observed t = map NDelta (emitted t))).
      - reflexivity.
      - intros t1 t2 H1 H2. now rewrite observed_app, emitted_app, map_app, H1, H2.
      - intros s e. unfold stream_event.
        destruct (truthy (trim e) && _ && _); [|reflexivity].
        destruct (match_data e) as [p|]; [|reflexivity].
        destruct (JSON_parse_delta w p) as [dd|]; [|reflexivity].
        cbn [snd call_onDelta].
        destruct (f _); reflexivity. }
    unfold processStreamingResponse.
    pose proof (for_of_trace (fun t => observed t = map NDelta (emitted t))
                  (on_data w (Some f)) eq_refl
                  (fun t1 t2 H1 H2 =>
                     eq_trans (observed_app t1 t2)
                       (eq_trans (f_equal2 (@app _) H1 H2)
                          (eq_sym (eq_trans (f_equal (map NDelta) (emitted_app t1 t2))
                                            (map_app NDelta _ _)))))
                  H chunks stream_init) as Hc.
    destruct (for_of (on_data w (Some f)) stream_init chunks) as [st t].
    cbn [snd] in Hc. destruct fin; [|exact Hc].
    destruct (on_end_warehouse_only w st) as (W1 & W2 & _).
    destruct (on_end w st) as [r tr]. cbn [snd] in *.
    now rewrite observed_app, emitted_app, W1, W2, !app_nil_r.
  - unfold parseSSEResponse.
    pose proof (for_of_trace (fun t => notified t = emitted t)
                  (sse_event w (Some f)) eq_refl) as Hc.
    specialize (Hc (fun t1 t2 H1 H2 =>
                     eq_trans (notified_app t1 t2)
                       (eq_trans (f_equal2 (@app _) H1 H2) (eq_sym (emitted_app t1 t2))))).
    assert (Hb : forall s e, notified (snd (sse_event w (Some f) s e)) =
                             emitted (snd (sse_event w (Some f) s e))).
    { intros s e. unfold sse_event.
      destruct (includes e (js "event: message.delta") && _).
      - destruct (match_data e) as [p|]; [|reflexivity].
        destruct (JSON_parse_delta w p) as [dd|]; [|reflexivity].
        cbn [snd call_onDelta]. destruct (f _); reflexivity.
      - destruct (includes e (js "event: done")); [|reflexivity].
        cbn [snd call_onDelta]. destruct (f _); reflexivity. }
    specialize (Hc Hb (sse_events sseData) sse_init).
    destruct (for_of (sse_event w (Some f)) sse_init (sse_events sseData)) as [st t].
    exact Hc.
  - unfold parseSSEResponse.
    pose proof (sse_events_deltas (Some f) (sse_events sseData) sse_init) as H.
    destruct (for_of (sse_event w (Some f)) sse_init (sse_events sseData)) as [st t].
    exact H.
Qed.

End Observers.

(** ** The aggregate of a stream *)

Section Aggregates.

Import Service.

Variable w : World.
Variable onDelta : option Observer.

Lemma stream_route_fields st c :
  combinedContent (stream_route w st c) = combinedContent st ++ item_text c /\
  s_toolResults (stream_route w st c) = s_toolResults st ++ filter is_tool [c] /\
  s_charts (stream_route w st c) = s_charts st ++ filter is_chart [c] /\
  s_thinkingContent (stream_route w st c) =
    s_thinkingContent st ++ (if INCLUDE_AGENT_THINKING w then item_thinking c else []) /\
  s_hasThinking (stream_route w st c) =
    s_hasThinking st || (INCLUDE_AGENT_THINKING w && is_thinking c).
Proof.
  destruct c as [t|t|t|t|t|t];
    cbn [stream_route item_text item_thinking is_thinking filter is_tool is_chart];
    try destruct (thinking_truthy t);
    destruct (INCLUDE_AGENT_THINKING w);
    cbn [combinedContent s_toolResults s_charts s_thinkingContent s_hasThinking andb];
    rewrite ?app_nil_r, ?orb_false_r, ?orb_true_r; auto 6.
Qed.

Lemma stream_extends_refl st : stream_extends w st st [].
Proof.
  unfold stream_extends. simpl. rewrite !app_nil_r, andb_false_r, orb_false_r.
  destruct (INCLUDE_AGENT_THINKING w); rewrite ?app_nil_r; auto 6.
Qed.

Lemma stream_extends_trans st1 st2 st3 items items' :
  stream_extends w st1 st2 items -> stream_extends w st2 st3 items' ->
  stream_extends w st1 st3 (items ++ items').
Proof.
  intros (A1 & A2 & A3 & A4 & A5) (B1 & B2 & B3 & B4 & B5).
  unfold stream_extends.
  rewrite B1, B2, B3, B4, B5, A1, A2, A3, A4, A5.
  rewrite !filter_app, !flat_map_app, existsb_app, <- !app_assoc.
  repeat split; try reflexivity.
  - destruct (INCLUDE_AGENT_THINKING w); [reflexivity | now rewrite !app_nil_r].
  - destruct (INCLUDE_AGENT_THINKING w); cbn [andb]; [|now rewrite !orb_false_r].
    now rewrite orb_assoc.
Qed.

Lemma stream_extends_same st st' st'' items :
  stream_aggregate st = stream_aggregate st' ->
  stream_extends w st' st'' items -> stream_extends w st st'' items.
Proof.
  unfold stream_aggregate, stream_extends. intro H. injection H as -> -> -> -> ->.
  auto.
Qed.

Lemma fold_route_extends items st :
  stream_extends w st (fold_left (stream_route w) items st) items.
Proof.
  revert st. induction items as [|c cs IH]; intro st.
  - apply stream_extends_refl.
  - cbn [fold_left]. change (c :: cs) with ([c] ++ cs).
    apply stream_extends_trans with (st2 := stream_route w st c); [|apply IH].
    destruct (stream_route_fields st c) as (R1 & R2 & R3 & R4 & R5).
    unfold stream_extends. cbn [flat_map existsb].
    rewrite !app_nil_r, orb_false_r. auto 6.
Qed.

(** A pass of the loop routes the items of the fragment, which are the
    content of the delta it builds. *)
Lemma stream_event_extends st event :
  stream_extends w st (fst (stream_event w onDelta st event)) (event_items w event) /\
  flat_map content (emitted (snd (stream_event w onDelta st event))) = event_items w event.
Proof.
  unfold stream_event, event_items. rewrite <- relevant_same. unfold stream_relevant.
  destruct (truthy (trim event) && _ && _); [|split; [apply stream_extends_refl|reflexivity]].
  destruct (match_data event) as [p|];
    [|split; [apply stream_extends_same with (st' := stream_bump st);
              [reflexivity|apply stream_extends_refl]|reflexivity]].
  destruct (JSON_parse_delta w p) as [dd|];
    [|split; [apply stream_extends_same with (st' := stream_bump st);
              [reflexivity|apply stream_extends_refl]|reflexivity]].
  cbn [fst snd]. split.
  - apply stream_extends_same with (st' := stream_bump st); [reflexivity|].
    destruct (delta_content dd) as [cs|];
      [apply fold_route_extends | apply stream_extends_refl].
  - destruct (call_onDelta_silent onDelta
                (NDelta (individualDelta (s_deltaIndex (stream_bump st)) dd))
                (or_introl eq_refl)) as (E1 & _ & _).
    change (EDelta ?d :: ?x) with ([EDelta d] ++ x).
    rewrite emitted_app, E1. simpl. now rewrite app_nil_r.
Qed.

Lemma stream_events_extend evs st :
  stream_extends w st (fst (for_of (stream_event w onDelta) st evs))
                 (flat_map (event_items w) evs) /\
  flat_map content (emitted (snd (for_of (stream_event w onDelta) st evs))) =
  flat_map (event_items w) evs.
Proof.
  revert st. induction evs as [|e evs IH]; intro st.
  - split; [apply stream_extends_refl | reflexivity].
  - cbn [for_of flat_map].
    destruct (stream_event_extends st e) as [A1 A2].
    destruct (stream_event w onDelta st e) as [s1 t1].
    destruct (IH s1) as [B1 B2].
    destruct (for_of (stream_event w onDelta) s1 evs) as [s2 t2].
    cbn [fst snd] in *. split.
    + eapply stream_extends_trans; eassumption.
    + now rewrite emitted_app, flat_map_app, A2, B2.
Qed.

(** A thinking text that is not empty comes from a thinking item. *)
Lemma item_thinking_truthy items :
  truthy (flat_map item_thinking items) = true -> existsb is_thinking items = true.
Proof.
  induction items as [|c cs IH]; [discriminate|]. cbn [flat_map existsb].
  destruct (item_thinking c) eqn:E.
  - simpl. intro H. now rewrite (IH H), orb_true_r.
  - intros _. destruct c; try discriminate. simpl in *.
    destruct (thinking_truthy thinking); [reflexivity | discriminate].
Qed.

(** The end of a stream, from the items routed. *)
Lemma on_end_of_items st items :
  stream_extends w stream_init st items ->
  let th := flat_map item_thinking items in
  let main := fst (formatCortexAgentsResponse w (combined_of items)) in
  fst (on_end w st) =
  if INCLUDE_AGENT_THINKING w && truthy th
  then Multi main (fst (formatCortexAgentsResponse w [CText (Some (reasoning_text th))]))
  else Single main.
Proof.
  intros (H1 & H2 & H3 & H4 & H5). cbv zeta. simpl in H1, H2, H3, H4, H5.
  unfold on_end.
  assert (Hc : stream_combined st = combined_of items).
  { unfold stream_combined, combined_of. rewrite H1, H2, H3.
    destruct (flat_map item_text items); reflexivity. }
  rewrite Hc, H4, H5.
  destruct (formatCortexAgentsResponse w (combined_of items)) as [main t1].
  unfold thinkingMessage_of.
  destruct (INCLUDE_AGENT_THINKING w); cbn [andb]; [|reflexivity].
  destruct (truthy (flat_map item_thinking items)) eqn:T.
  - rewrite (item_thinking_truthy _ T). cbn [andb].
    destruct (formatCortexAgentsResponse w _); reflexivity.
  - rewrite andb_false_r. reflexivity.
Qed.

(** [X3] The response of the stream handler is synthesized from the deltas
    it emitted and from nothing else: the answer is the synthesis of their
    texts appended into one text item, followed by their tool items and by
    their charts, each in arrival order; a reasoning message is added
    exactly when INCLUDE_AGENT_THINKING is set and the thinking items
    carry text, and it holds that text under the reasoning heading. *)
Theorem live_response_is_synthesized_from_the_emitted_deltas (chunks : list Buffer) :
  let run := processStreamingResponse w chunks StreamEnded onDelta in
  let items := flat_map content (emitted (snd run)) in
  let th := flat_map item_thinking items in
  let main := fst (formatCortexAgentsResponse w (combined_of items)) in
  fst run =
  Some (if INCLUDE_AGENT_THINKING w && truthy th
        then Multi main (fst (formatCortexAgentsResponse w [CText (Some (reasoning_text th))]))
        else Single main).
Proof.
  cbv zeta.
  destruct (stream_events_extend (stream_frames chunks) stream_init) as [A1 A2].
  destruct (for_of (stream_event w onDelta) stream_init (stream_frames chunks))
    as [st t] eqn:E.
  rewrite (@processStreamingResponse_frames w onDelta chunks st t E).
  cbn [fst snd] in *.
  set (st' := set_buffer st _).
  destruct (on_end_warehouse_only w st') as (W1 & _ & _).
  rewrite emitted_app, W1, app_nil_r, A2.
  f_equal. apply on_end_of_items.
  exact A1.
Qed.

End Aggregates.

(** ** The aggregate of the buffered parser, and when the two paths agree *)

Section BufferedAggregate.

Import Service.

Variable w : World.

Lemma tool_use_slot_app items items' o :
  tool_use_slot (items ++ items') o = tool_use_slot items' (tool_use_slot items o).
Proof.
  unfold tool_use_slot. rewrite rev_app_distr.
  induction (rev items') as [|c l IH]; simpl.
  - destruct (find is_tool_use (rev items)); reflexivity.
  - destruct (is_tool_use c); [reflexivity | exact IH].
Qed.

Lemma sse_extends_refl st : sse_extends w st st [].
Proof.
  unfold sse_extends, tool_use_slot. simpl.
  rewrite !app_nil_r, andb_false_r, orb_false_r.
  destruct (INCLUDE_AGENT_THINKING w); rewrite ?app_nil_r; auto 7.
Qed.

Lemma sse_extends_trans st1 st2 st3 items items' :
  sse_extends w st1 st2 items -> sse_extends w st2 st3 items' ->
  sse_extends w st1 st3 (items ++ items').
Proof.
  intros (A1 & A0 & A2 & A3 & A4 & A5) (B1 & B0 & B2 & B3 & B4 & B5).
  unfold sse_extends.
  rewrite B1, B0, B2, B3, B4, B5, A1, A0, A2, A3, A4, A5.
  rewrite !filter_app, !flat_map_app, existsb_app, tool_use_slot_app, <- !app_assoc.
  repeat split; try reflexivity.
  - destruct (INCLUDE_AGENT_THINKING w); [reflexivity | now rewrite !app_nil_r].
  - destruct (INCLUDE_AGENT_THINKING w); cbn [andb]; [|now rewrite !orb_false_r].
    now rewrite orb_assoc.
Qed.

Lemma sse_extends_same st st' st'' items :
  sse_aggregate st = sse_aggregate st' ->
  sse_extends w st' st'' items -> sse_extends w st st'' items.
Proof.
  unfold sse_aggregate, sse_extends. intro H. injection H as -> -> -> -> -> ->.
  auto.
Qed.

Lemma sse_route_extends st c : sse_extends w st (sse_route w st c) [c].
Proof.
  unfold sse_extends, tool_use_slot.
  destruct c as [t|t|t|t|t|t];
    cbn [sse_route flat_map item_text item_thinking is_thinking filter is_tool_results
         is_chart is_tool_use existsb rev app find];
    try destruct (thinking_truthy t);
    destruct (INCLUDE_AGENT_THINKING w);
    cbn [textContent toolUse p_toolResults p_charts p_thinkingContent p_hasThinking
         andb orb];
    rewrite ?app_nil_r, ?orb_false_r, ?orb_true_r; auto 7.
Qed.

Lemma fold_sse_route_extends items st :
  sse_extends w st (fold_left (sse_route w) items st) items.
Proof.
  revert st. induction items as [|c cs IH]; intro st.
  - apply sse_extends_refl.
  - cbn [fold_left]. change (c :: cs) with ([c] ++ cs).
    apply sse_extends_trans with (st2 := sse_route w st c); [|apply IH].
    apply sse_route_extends.
Qed.

Lemma sse_event_extends od st event :
  sse_extends w st (fst (sse_event w od st event)) (event_items w event).
Proof.
  unfold sse_event, event_items, sse_relevant.
  destruct (includes event (js "event: message.delta") && _).
  - destruct (match_data event) as [p|]; [|apply sse_extends_refl].
    destruct (JSON_parse_delta w p) as [dd|];
      [|apply sse_extends_same with (st' := sse_bump st);
        [reflexivity|apply sse_extends_refl]].
    cbn [fst].
    set (d := individualDelta _ dd).
    apply sse_extends_same with (st' := sse_push (sse_bump st) d); [reflexivity|].
    destruct (delta_content dd) as [cs|];
      [apply fold_sse_route_extends | apply sse_extends_refl].
  - destruct (includes event (js "event: done")); apply sse_extends_refl.
Qed.

Lemma sse_events_extend od evs st :
  sse_extends w st (fst (for_of (sse_event w od) st evs)) (flat_map (event_items w) evs).
Proof.
  revert st. induction evs as [|e evs IH]; intro st.
  - apply sse_extends_refl.
  - cbn [for_of flat_map].
    pose proof (sse_event_extends od st e) as A.
    destruct (sse_event w od st e) as [s1 t1].
    pose proof (IH s1) as B.
    destruct (for_of (sse_event w od) s1 evs) as [s2 t2].
    cbn [fst] in *. eapply sse_extends_trans; eassumption.
Qed.

(** A blank fragment carries no item. *)
Lemma event_items_irrelevant event : stream_relevant event = false -> event_items w event = [].
Proof. unfold event_items. rewrite <- relevant_same. now intros ->. Qed.

Lemma event_items_blank event : truthy (trim event) = false -> event_items w event = [].
Proof.
  intro H. apply event_items_irrelevant. unfold stream_relevant. now rewrite H.
Qed.

Lemma sse_events_items (sseData : jsstring) :
  flat_map (event_items w) (sse_events sseData) =
  flat_map (event_items w) (events_of sseData).
Proof.
  unfold sse_events, events_of.
  induction (split2 LF LF sseData) as [|e evs IH]; [reflexivity|].
  cbn [filter flat_map]. destruct (truthy (trim e)) eqn:T.
  - cbn [flat_map]. now rewrite IH.
  - now rewrite (event_items_blank _ T), IH.
Qed.

(** What the buffered branch returns, from the items of the text. *)
Lemma handle_sse_of_items od (sseData : jsstring) :
  let items := flat_map (event_items w) (events_of sseData) in
  let th := flat_map item_thinking items in
  fst (handle_sse w sseData od) =
  match sse_combined_of items with
  | [] => None
  | c :: cs =>
      let main := fst (formatCortexAgentsResponse w (c :: cs)) in
      Some (if INCLUDE_AGENT_THINKING w && truthy th
            then Multi main
                       (fst (formatCortexAgentsResponse w [CText (Some (reasoning_text th))]))
            else Single main)
  end.
Proof.
  cbv zeta. unfold handle_sse, parseSSEResponse.
  pose proof (sse_events_extend od (sse_events sseData) sse_init) as H.
  rewrite sse_events_items in H.
  destruct (for_of (sse_event w od) sse_init (sse_events sseData)) as [st t].
  cbn [fst] in H. destruct H as (H1 & H0 & H2 & H3 & H4 & H5).
  simpl in H1, H0, H2, H3, H4, H5.
  cbn [combinedDelta thinkingMessage].
  set (items := flat_map (event_items w) (events_of sseData)) in *.
  assert (Hc : sse_combined st = sse_combined_of items).
  { unfold sse_combined, sse_combined_of. rewrite H1, H0, H2, H3.
    destruct (flat_map item_text items); reflexivity. }
  rewrite Hc, H4, H5.
  destruct (sse_combined_of items) as [|c cs]; [reflexivity|].
  destruct (formatCortexAgentsResponse w (c :: cs)) as [main t1].
  unfold thinkingMessage_of.
  destruct (INCLUDE_AGENT_THINKING w); cbn [andb]; [|reflexivity].
  destruct (truthy (flat_map item_thinking items)) eqn:T.
  - rewrite (item_thinking_truthy _ T). cbn [andb].
    destruct (formatCortexAgentsResponse w _); reflexivity.
  - rewrite andb_false_r. reflexivity.
Qed.

End BufferedAggregate.

Section Agreement.

Import Service.

Variable w : World.

Lemma no_tool_use_after (cs : list ContentItem) :
  forallb (fun c => negb (is_tool_use c)) (filter is_tool cs) = true ->
  filter is_tool cs = filter is_tool_results cs /\
  forall o, tool_use_slot cs o = o.
Proof.
  induction cs as [|c cs IH]; [split; reflexivity|].
  intro H. assert (Hc : forall o, tool_use_slot (c :: cs) o = tool_use_slot cs (tool_use_slot [c] o)).
  { intro o. apply (tool_use_slot_app [c] cs). }
  destruct c as [t|t|t|t|t|t]; cbn [filter is_tool is_tool_results forallb is_tool_use negb andb] in *;
    try discriminate;
    destruct (IH H) as [I1 I2]; (split; [now rewrite ?I1 | intro o; now rewrite Hc, I2]).
Qed.

(** With at most one tool invocation, ahead of every tool result, the two
    decoders build the same aggregate. *)
Lemma combined_of_same (items : list ContentItem) :
  tool_use_leads items = true -> sse_combined_of items = combined_of items.
Proof.
  unfold tool_use_leads, sse_combined_of, combined_of. intro H. f_equal.
  rewrite app_assoc. f_equal.
  induction items as [|c cs IH]; [reflexivity|].
  assert (Hc : forall o, tool_use_slot (c :: cs) o = tool_use_slot cs (tool_use_slot [c] o)).
  { intro o. apply (tool_use_slot_app [c] cs). }
  destruct c as [t|t|t|t|t|t];
    cbn [filter is_tool is_tool_results is_tool_use] in *;
    try (rewrite Hc; exact (IH H));
    destruct (no_tool_use_after cs H) as [I1 I2]; rewrite Hc, I2, I1; reflexivity.
Qed.

Lemma flat_map_removelast {A B : Type} (f : A -> list B) (l : list A) (d : A) :
  f (last l d) = [] -> flat_map f (removelast l) = flat_map f l.
Proof.
  intro H. destruct l as [|x l]; [reflexivity|].
  rewrite (app_removelast_last d (l := x :: l)) at 2 by discriminate.
  rewrite flat_map_app. cbn [flat_map]. now rewrite H, !app_nil_r.
Qed.

(** [X4] When the text ends on a frame boundary and holds at most one tool
    invocation, ahead of every tool result, the buffered branch returns the
    response the streaming handler resolves to for the same text, unless
    the frames carry no text, no tool item and no chart: the buffered
    branch then returns null.  The streaming handler resolves to a response
    in either case. *)
Theorem live_and_buffered_paths_agree_on_a_leading_tool_use
        (chunks : list Buffer) (onDelta onDelta' : option Observer) :
  stream_relevant (last (events_of (stream_text chunks)) []) = false ->
  tool_use_leads (flat_map (event_items w) (events_of (stream_text chunks))) = true ->
  fst (handle_sse w (stream_text chunks) onDelta') =
  match combined_of (flat_map (event_items w) (events_of (stream_text chunks))) with
  | [] => None
  | _ :: _ => fst (processStreamingResponse w chunks StreamEnded onDelta)
  end /\
  exists r, fst (processStreamingResponse w chunks StreamEnded onDelta) = Some r.
Proof.
  intros Hlast Hlead.
  rewrite handle_sse_of_items, (combined_of_same _ Hlead).
  destruct (stream_events_extend w onDelta (stream_frames chunks) stream_init) as [A1 _].
  destruct (for_of (stream_event w onDelta) stream_init (stream_frames chunks))
    as [st t] eqn:E.
  rewrite (@processStreamingResponse_frames w onDelta chunks st t E).
  cbn [fst snd] in *.
  unfold stream_frames in A1.
  rewrite (flat_map_removelast (event_items w) _ []) in A1
    by (apply event_items_irrelevant; exact Hlast).
  fold (stream_text chunks) in A1.
  set (st' := set_buffer st _).
  assert (A1' : stream_extends w stream_init st' (flat_map (event_items w) (events_of (stream_text chunks)))) by exact A1.
  rewrite (on_end_of_items A1').
  set (items := flat_map (event_items w) (events_of (stream_text chunks))).
  split; [|eexists; reflexivity].
  destruct (combined_of items) eqn:C; reflexivity.
Qed.

End Agreement.

Lemma live_and_buffered_paths_agree_on_a_leading_tool_use_witness :
  let chunks := [Samples.bytes (Samples.frame Samples.p_analyst ++
                                Samples.frame Samples.p_sql ++
                                Samples.frame Samples.p_hello)] in
  fst (Service.handle_sse Samples.quiet (stream_text chunks) None) =
  fst (Service.processStreamingResponse Samples.quiet chunks StreamEnded
         (Some Samples.listener)) /\
  fst (Service.handle_sse Samples.quiet (stream_text chunks) None) <> None.
Proof.
  cbv zeta. split; [|vm_compute; discriminate].
  destruct (@live_and_buffered_paths_agree_on_a_leading_tool_use
              Samples.quiet
              [Samples.bytes (Samples.frame Samples.p_analyst ++
                              Samples.frame Samples.p_sql ++
                              Samples.frame Samples.p_hello)]
              (Some Samples.listener) None) as [H _];
    [vm_compute; reflexivity | vm_compute; reflexivity |].
  rewrite H. vm_compute. reflexivity.
Defined.

(** On a single frame whose content is empty the buffered branch returns
    null and the streaming handler the result of an empty aggregate. *)
Lemma an_empty_frame_is_answered_on_the_live_path_only :
  let text := Samples.frame Samples.p_empty in
  fst (Service.handle_sse Samples.quiet text None) = None /\
  fst (Service.processStreamingResponse Samples.quiet [Samples.bytes text] StreamEnded None)
  = Some (Single empty_result).
Proof. split; vm_compute; reflexivity. Qed.

Section BufferedResponse.

Import Service.

Variable w : World.
Variable onDelta : option Observer.

Lemma sse_event_content st event :
  flat_map content (emitted (snd (sse_event w onDelta st event))) = event_items w event.
Proof.
  unfold sse_event, event_items, sse_relevant.
  destruct (includes event (js "event: message.delta") && _).
  - destruct (match_data event) as [p|]; [|reflexivity].
    destruct (JSON_parse_delta w p) as [dd|]; [|reflexivity].
    cbn [snd].
    destruct (call_onDelta_silent onDelta
                (NDelta (individualDelta (deltaCount (sse_bump st)) dd))
                (or_introl eq_refl)) as (E1 & _ & _).
    change (EDelta ?d :: ?x) with ([EDelta d] ++ x).
    rewrite emitted_app, E1. simpl. now rewrite app_nil_r.
  - destruct (includes event (js "event: done")); [|reflexivity].
    cbn [snd].
    destruct (call_onDelta_silent onDelta (NCompletion (deltaCount st))
                (or_intror eq_refl)) as (E1 & _ & _).
    now rewrite E1.
Qed.

Lemma sse_events_content evs st :
  flat_map content (emitted (snd (for_of (sse_event w onDelta) st evs))) =
  flat_map (event_items w) evs.
Proof.
  revert st. induction evs as [|e evs IH]; intro st; [reflexivity|].
  cbn [for_of flat_map].
  pose proof (sse_event_content st e) as A.
  destruct (sse_event w onDelta st e) as [s1 t1].
  pose proof (IH s1) as B.
  destruct (for_of (sse_event w onDelta) s1 evs) as [s2 t2].
  cbn [snd] in *. now rewrite emitted_app, flat_map_app, A, B.
Qed.

(** [X5] The response of the buffered branch is synthesized from the deltas
    the parser returns: their texts appended into one text item, then the
    last tool invocation only, then the tool results and the charts in
    arrival order; with no such item the branch gives no response; a
    reasoning message is added exactly when INCLUDE_AGENT_THINKING is set
    and the thinking items carry text. *)
Theorem buffered_response_is_synthesized_from_the_parsed_deltas (sseData : jsstring) :
  let items := flat_map content (r_deltas (fst (parseSSEResponse w sseData onDelta))) in
  let th := flat_map item_thinking items in
  fst (handle_sse w sseData onDelta) =
  match sse_combined_of items with
  | [] => None
  | c :: cs =>
      let main := fst (formatCortexAgentsResponse w (c :: cs)) in
      Some (if INCLUDE_AGENT_THINKING w && truthy th
            then Multi main
                       (fst (formatCortexAgentsResponse w [CText (Some (reasoning_text th))]))
            else Single main)
  end.
Proof.
  assert (H : flat_map content (r_deltas (fst (parseSSEResponse w sseData onDelta))) =
              flat_map (event_items w) (events_of sseData)).
  { unfold parseSSEResponse.
    pose proof (sse_events_deltas w onDelta (sse_events sseData) sse_init) as D.
    pose proof (sse_events_content (sse_events sseData) sse_init) as C.
    destruct (for_of (sse_event w onDelta) sse_init (sse_events sseData)) as [st t].
    cbn [fst snd r_deltas] in *. rewrite D. simpl app.
    now rewrite C, sse_events_items. }
  cbv zeta. rewrite H. apply handle_sse_of_items.
Qed.

Lemma stream_text_app (chunks : list Buffer) (tail : Buffer) :
  stream_text (chunks ++ [tail]) = stream_text chunks ++ Utf8.toString tail.
Proof.
  unfold stream_text. rewrite map_app, concat_app. simpl. now rewrite app_nil_r.
Qed.

(** [X6] A last frame that is not followed by a blank line is dropped by the
    stream handler: when the text so far ends on a frame boundary, a final
    chunk without a blank line changes nothing of the run, whatever it
    holds; the buffered parser, given the same text, does turn a
    well-formed frame at the end into a delta. *)
Theorem the_stream_handler_drops_an_unterminated_last_frame
        (chunks : list Buffer) (tail : Buffer) :
  last (events_of (stream_text chunks)) [] = [] ->
  events_of (Utf8.toString tail) = [Utf8.toString tail] ->
  processStreamingResponse w (chunks ++ [tail]) StreamEnded onDelta =
  processStreamingResponse w chunks StreamEnded onDelta /\
  (sse_relevant (Utf8.toString tail) = true -> parses w (Utf8.toString tail) = true ->
   length (r_deltas (fst (parseSSEResponse w (stream_text chunks ++ Utf8.toString tail)
                            onDelta))) =
   S (length (r_deltas (fst (parseSSEResponse w (stream_text chunks) onDelta))))).
Proof.
  intros Hlast Htail.
  assert (Hsplit : events_of (stream_text chunks ++ Utf8.toString tail) =
                   removelast (events_of (stream_text chunks)) ++ [Utf8.toString tail]).
  { unfold events_of in *. rewrite split2_app, Hlast. simpl app. now rewrite Htail. }
  split.
  - assert (Hf : stream_frames (chunks ++ [tail]) = stream_frames chunks).
    { unfold stream_frames. fold (stream_text (chunks ++ [tail])) (stream_text chunks).
      rewrite stream_text_app, Hsplit. apply removelast_last. }
    destruct (for_of (stream_event w onDelta) stream_init (stream_frames chunks))
      as [st t] eqn:E.
    rewrite (@processStreamingResponse_frames w onDelta chunks st t E).
    rewrite <- Hf in E.
    rewrite (@processStreamingResponse_frames w onDelta (chunks ++ [tail]) st t E).
    reflexivity.
  - intros Hr Hp. unfold parseSSEResponse, sse_events.
    fold (events_of (stream_text chunks ++ Utf8.toString tail)).
    fold (events_of (stream_text chunks)).
    rewrite Hsplit.
    rewrite (app_removelast_last [] (l := events_of (stream_text chunks))) at 2
      by apply split2_nonempty.
    rewrite Hlast, !filter_app. cbn [filter].
    assert (Ht : truthy (trim (Utf8.toString tail)) = true).
    { rewrite <- relevant_same in Hr. unfold stream_relevant in Hr.
      destruct (truthy (trim (Utf8.toString tail))); [reflexivity | discriminate]. }
    rewrite Ht. change (truthy (trim [])) with false. cbv iota.
    rewrite app_nil_r, for_of_app.
    destruct (for_of (sse_event w onDelta) sse_init _) as [st t].
    cbn [for_of].
    destruct (sse_event_parsed w onDelta st _ Hr Hp) as (st' & d & -> & _ & _ & Hd).
    cbn [fst r_deltas]. rewrite Hd, length_app. simpl. lia.
Qed.

End BufferedResponse.

Lemma the_stream_handler_drops_an_unterminated_last_frame_witness :
  let chunks := [Samples.bytes (Samples.frame Samples.p_hello)] in
  let tail := Samples.bytes (Samples.event Samples.p_world) in
  Service.processStreamingResponse Samples.quiet (chunks ++ [tail]) StreamEnded None =
  Service.processStreamingResponse Samples.quiet chunks StreamEnded None /\
  length (Service.r_deltas
            (fst (Service.parseSSEResponse Samples.quiet
                    (stream_text chunks ++ Utf8.toString tail) None))) = 2.
Proof.
  cbv zeta.
  destruct (@the_stream_handler_drops_an_unterminated_last_frame Samples.quiet None
              [Samples.bytes (Samples.frame Samples.p_hello)]
              (Samples.bytes (Samples.event Samples.p_world))
              ltac:(vm_compute; reflexivity) ltac:(vm_compute; reflexivity)) as [H1 H2].
  split; [exact H1|].
  rewrite (H2 ltac:(vm_compute; reflexivity) ltac:(vm_compute; reflexivity)).
  vm_compute. reflexivity.
Defined.

(** ** Decoding a stream of well-formed frames *)

Section WellFormedStream.

Import Service.

Variable w : World.
Variable onDelta : option Observer.















End WellFormedStream.


(** ** The synthesizer: which statement is run, and what a failure costs *)

Section Statements.

Import Service.

Variable w : World.

Lemma last_app_default {A : Type} (l l' : list A) (d : A) :
  last (l ++ l') d = last l' (last l d).
Proof.
  revert d. induction l as [|x l IH]; intro d; [reflexivity|].
  destruct l as [|y l].
  - destruct l' as [|z l']; [reflexivity|].
    change (last ([x] ++ z :: l') d) with (last (z :: l') d).
    apply last_default. discriminate.
  - change (last ((x :: y :: l) ++ l') d) with (last ((y :: l) ++ l') d).
    rewrite IH. reflexivity.
Qed.

Lemma fmt_result_sql a r : f_sql (fmt_result a r) = last (result_sql r) (f_sql a).
Proof.
  destruct r as [[[rows|o]|]|text|type]; try reflexivity.
  cbn [fmt_result result_sql].
  destruct (row_get (js "sql") o) as [[|c s]|];
    destruct (row_get (js "query_id") o) as [[|c' s']|]; reflexivity.
Qed.

Lemma fold_fmt_result_sql rs a :
  f_sql (fold_left fmt_result rs a) = last (flat_map result_sql rs) (f_sql a).
Proof.
  revert a. induction rs as [|r rs IH]; intro a; [reflexivity|].
  cbn [fold_left flat_map]. now rewrite IH, fmt_result_sql, last_app_default.
Qed.

Lemma fmt_loop_sql delta : forall a a',
  fmt_loop w a delta = Some a' -> f_sql a' = last (statements delta) (f_sql a).
Proof.
  induction delta as [|c cs IH]; intros a a' H.
  - simpl in H. now injection H as <-.
  - cbn [fmt_loop] in H. destruct (fmt_content w a c) as [a1|] eqn:E; [|discriminate].
    unfold statements. cbn [flat_map]. rewrite last_app_default.
    fold (statements cs). rewrite (IH _ _ H). f_equal.
    destruct c as [t|[tu|]|[rs|]|[[|c0 s0]|]|t|t]; cbn [fmt_content] in E;
      try (injection E as <-; reflexivity).
    + destruct (eqs (tool_name tu) (js "DataAnalyst")); injection E as <-; reflexivity.
    + injection E as <-. apply fold_fmt_result_sql.
    + destruct (JSON_parse_spec w (c0 :: s0)); [|discriminate].
      injection E as <-. reflexivity.
Qed.

Lemma fmt_execute_sql a : f_sql (fst (fmt_execute w a)) = f_sql a.
Proof.
  unfold fmt_execute.
  destruct (truthy (f_sql a) && truthy (trim (f_sql a))); [|reflexivity].
  cbn [executeQuery]. destruct (connection_execute w (f_sql a)) as [[|r rs]|m]; reflexivity.
Qed.

Lemma trim_truthy (s : jsstring) : truthy (trim s) = true -> truthy s = true.
Proof. destruct s; [discriminate | reflexivity]. Qed.

(** [X8] The synthesizer runs at most one statement: the last non-empty
    [sql] carried by a [json] tool result of the delta, when it is not
    blank; it is sent once, after the statements that restore the database
    and the schema, and it is the [sql] of the result.  Nothing is sent when
    there is no such statement or when a chart specification does not
    parse. *)
Theorem the_last_statement_is_run_once (delta : list ContentItem) :
  let run := formatCortexAgentsResponse w delta in
  let statement := last (statements delta) [] in
  match extracted w delta with
  | Some _ =>
      sql (fst run) = Some statement /\
      executed (snd run) =
      if truthy (trim statement)
      then executed (switchToOriginalDatabase w) ++ [statement]
      else []
  | None => fst run = formatting_failed /\ snd run = []
  end.
Proof.
  cbv zeta. unfold extracted, formatCortexAgentsResponse.
  destruct (fmt_loop w fmt_init delta) as [a|] eqn:E; [|split; reflexivity].
  pose proof (fmt_loop_sql _ _ E) as Hs. cbn [fmt_init f_sql] in Hs.
  pose proof (fmt_execute_sql a) as He.
  rewrite <- Hs.
  unfold fmt_execute in *.
  destruct (truthy (trim (f_sql a))) eqn:T.
  - rewrite (trim_truthy _ T) in *. cbn [andb] in *. cbn [executeQuery] in *.
    destruct (connection_execute w (f_sql a)) as [[|r rs]|m]; cbn [fst snd sql] in *;
      (split; [reflexivity|]);
      rewrite !executed_app; cbn [executed flat_map app]; rewrite ?app_nil_r; reflexivity.
  - rewrite andb_false_r in *. cbn [fst snd sql]. split; reflexivity.
Qed.

(** [X9] One chart specification that does not parse costs the whole
    response: whatever else the delta holds, the result is the fixed
    [formatting failed] object, with no rows, no [sql] and no charts, and
    nothing is sent to the warehouse. *)
Theorem a_bad_chart_specification_discards_the_response
        (delta : list ContentItem) (spec0 : jsstring) :
  In spec0 (chart_specs delta) -> JSON_parse_spec w spec0 = None ->
  formatCortexAgentsResponse w delta = (formatting_failed, []).
Proof.
  intros Hin Hbad. unfold formatCortexAgentsResponse.
  assert (H : forall a, fmt_loop w a delta = None); [|now rewrite H].
  induction delta as [|c cs IH]; [destruct Hin|]. intro a.
  unfold chart_specs in Hin. cbn [flat_map] in Hin. apply in_app_or in Hin.
  cbn [fmt_loop]. destruct Hin as [Hin|Hin].
  - destruct c as [t|t|t|[[|c0 s0]|]|t|t]; try destruct Hin.
    + subst spec0. cbn [fmt_content]. now rewrite Hbad.
    + destruct H.
  - destruct (fmt_content w a c); [apply (IH Hin) | reflexivity].
Qed.

Lemma no_outer_ws_between (c d : N) (s : jsstring) :
  is_ws c = false -> is_ws d = false -> no_outer_ws ((c :: s) ++ [d]) = true.
Proof.
  intros Hc Hd. unfold no_outer_ws. cbn [app].
  change (c :: s ++ [d]) with ((c :: s) ++ [d]).
  now rewrite last_last, Hc, Hd.
Qed.

Lemma found_sentence_trimmed (n : jsstring) (plural : jsstring) :
  trim (js "Found " ++ n ++ js " result" ++ plural ++ js " for your query.") =
  js "Found " ++ n ++ js " result" ++ plural ++ js " for your query.".
Proof.
  replace (js "Found " ++ n ++ js " result" ++ plural ++ js " for your query.")
    with ((70%N :: (js "ound " ++ n ++ js " result" ++ plural ++ js " for your query"))
          ++ [46%N]).
  - apply trim_clean, no_outer_ws_between; reflexivity.
  - cbn [app]. rewrite <- !app_assoc. reflexivity.
Qed.

(** [X10] When the statement runs, the rows of the warehouse take the place
    of the rows the stream carried, unless the warehouse returns none; the
    insights tell which, ahead of what they held; and with no text in the
    delta the summary counts the rows returned. *)
Theorem the_rows_of_the_warehouse_replace_the_rows_of_the_stream
        (delta : list ContentItem) (a : Fmt) (rows : list Row) :
  extracted w delta = Some a ->
  truthy (trim (f_sql a)) = true ->
  connection_execute w (f_sql a) = ExecRows rows ->
  let r := fst (formatCortexAgentsResponse w delta) in
  data r = match rows with [] => f_data a | _ :: _ => rows end /\
  insights r =
    Some (match rows with
          | [] => js "SQL query executed but returned no results. "
          | _ :: _ => js "SQL query executed successfully. "
          end ++ f_insights a) /\
  source r = cortex_agents_api /\
  (f_summary a = [] -> rows <> [] ->
   summary r = js "Found " ++ string_of_nat (length rows) ++ js " result" ++
               (if Nat.eqb (length rows) 1 then [] else js "s") ++ js " for your query.").
Proof.
  unfold extracted, formatCortexAgentsResponse. intros -> T E. cbv zeta.
  unfold fmt_execute. rewrite T, (trim_truthy _ T). cbn [andb executeQuery]. rewrite E.
  destruct rows as [|r rs]; cbn [fst data insights source summary].
  - repeat split; try reflexivity. congruence.
  - repeat split; try reflexivity. intros Hs _.
    rewrite Hs. cbn [includes startsWith toLowerCase map js list_ascii_of_string orb].
    unfold fmt_summary. cbn [f_summary f_data].
    apply found_sentence_trimmed.
Qed.

Lemma fmt_result_rows a r : f_data (fmt_result a r) = last (result_rows r) (f_data a).
Proof.
  destruct r as [[[rows|o]|]|text|type]; try reflexivity.
  cbn [fmt_result result_rows].
  destruct (row_get (js "sql") o) as [[|c s]|];
    destruct (row_get (js "query_id") o) as [[|c' s']|]; reflexivity.
Qed.

Lemma fold_fmt_result_rows rs a :
  f_data (fold_left fmt_result rs a) = last (flat_map result_rows rs) (f_data a).
Proof.
  revert a. induction rs as [|r rs IH]; intro a; [reflexivity|].
  cbn [fold_left flat_map]. now rewrite IH, fmt_result_rows, last_app_default.
Qed.

Lemma fmt_loop_rows delta : forall a a',
  fmt_loop w a delta = Some a' -> f_data a' = last (rows_carried delta) (f_data a).
Proof.
  induction delta as [|c cs IH]; intros a a' H.
  - simpl in H. now injection H as <-.
  - cbn [fmt_loop] in H. destruct (fmt_content w a c) as [a1|] eqn:E; [|discriminate].
    unfold rows_carried. cbn [flat_map]. rewrite last_app_default.
    fold (rows_carried cs). rewrite (IH _ _ H). f_equal.
    destruct c as [t|[tu|]|[rs|]|[[|c0 s0]|]|t|t]; cbn [fmt_content] in E;
      try (injection E as <-; reflexivity).
    + destruct (eqs (tool_name tu) (js "DataAnalyst")); injection E as <-; reflexivity.
    + injection E as <-. apply fold_fmt_result_rows.
    + destruct (JSON_parse_spec w (c0 :: s0)); [|discriminate].
      injection E as <-. reflexivity.
Qed.

(** [X29] When every non-empty [chart_spec] of the delta parses as JSON
    and there is no statement to run (the last [sql] the tool results carry
    is empty or blank, or they carry none), the rows of the result are the
    last rows the tool results of the delta carried: an array of rows, the
    object of a [json] item that has a [query_id] (as one row), or the rows
    read from a CSV text; earlier ones are overwritten, and nothing is sent
    to the warehouse. *)
Theorem the_last_rows_carried_are_the_rows_of_the_result (delta : list ContentItem) :
  (forall s, In s (chart_specs delta) -> JSON_parse_spec w s <> None) ->
  truthy (trim (last (statements delta) [])) = false ->
  let run := formatCortexAgentsResponse w delta in
  data (fst run) = last (rows_carried delta) [] /\ snd run = [].
Proof.
  intros Hp T.
  destruct (@fmt_loop_charts w delta fmt_init Hp) as (a & vs & E & _ & _).
  unfold formatCortexAgentsResponse. cbv zeta. rewrite E.
  pose proof (fmt_loop_sql _ _ E) as Hs. cbn [fmt_init f_sql] in Hs.
  pose proof (fmt_loop_rows _ _ E) as Hr. cbn [fmt_init f_data] in Hr.
  unfold fmt_execute. rewrite Hs, T, andb_false_r. cbn [fst snd data].
  split; [exact Hr | reflexivity].
Qed.

End Statements.


Lemma a_bad_chart_specification_discards_the_response_witness :
  Service.formatCortexAgentsResponse Samples.quiet
    (CText (Some (js "Sales by region")) :: Samples.sql_delta ++
     [CChart (Some (js "{oops"))]) = (Service.formatting_failed, []).
Proof.
  apply (@a_bad_chart_specification_discards_the_response Samples.quiet _ (js "{oops"));
    vm_compute; auto.
Defined.

Lemma the_rows_of_the_warehouse_replace_the_rows_of_the_stream_witness :
  let w := Samples.world Samples.one_row TokenNull None HttpThrows in
  let r := fst (Service.formatCortexAgentsResponse w Samples.sql_delta) in
  data r = [[(js "1", js "1")]] /\
  insights r = Some (js "SQL query executed successfully. here") /\
  source r = cortex_agents_api /\
  summary r = js "Found 1 result for your query.".
Proof.
  cbv zeta.
  destruct (@the_rows_of_the_warehouse_replace_the_rows_of_the_stream
              (Samples.world Samples.one_row TokenNull None HttpThrows)
              Samples.sql_delta _ [[(js "1", js "1")]]
              eq_refl eq_refl eq_refl) as (H1 & H2 & H3 & H4).
  split; [exact H1|]. split; [exact H2|]. split; [exact H3|].
  apply H4; [reflexivity | discriminate].
Defined.

Lemma the_last_rows_carried_are_the_rows_of_the_result_witness :
  let delta :=
    [CToolResults (Some [RJson (Some (JRows Samples.mixed_rows));
                         RCsv (Some (js "a,b" ++ [LF] ++ js "1,2"))])] in
  data (fst (Service.formatCortexAgentsResponse Samples.quiet delta)) =
  [[(js "a", js "1"); (js "b", js "2")]].
Proof.
  cbv zeta.
  refine (proj1 (@the_last_rows_carried_are_the_rows_of_the_result Samples.quiet
                   [CToolResults (Some [RJson (Some (JRows Samples.mixed_rows));
                                        RCsv (Some (js "a,b" ++ [LF] ++ js "1,2"))])]
                   _ eq_refl)).
  intros s [].
Defined.

(** ** An ASCII stream *)

(** [X11] A stream of ASCII bytes may be cut into chunks anywhere: the run
    (response, deltas and their indices, notifications) is the one of the
    whole text delivered as a single chunk. *)
Theorem an_ascii_stream_may_be_cut_anywhere
        (w : World) (onDelta : option Observer) (chunks : list Buffer) (fin : StreamEnd) :
  Forall (fun b => N.leb b 127 = true) (concat chunks) ->
  Service.processStreamingResponse w chunks fin onDelta =
  Service.processStreamingResponse w [concat chunks] fin onDelta.
Proof.
  intro H. apply chunking_of_the_same_text.
  rewrite toString_ascii_chunks by exact H. simpl.
  now rewrite app_nil_r, (toString_ascii H).
Qed.

Lemma an_ascii_stream_may_be_cut_anywhere_witness :
  Service.processStreamingResponse Samples.quiet Samples.hello_chunks StreamEnded
    (Some Samples.listener) =
  Service.processStreamingResponse Samples.quiet [concat Samples.hello_chunks] StreamEnded
    (Some Samples.listener).
Proof.
  apply (@an_ascii_stream_may_be_cut_anywhere Samples.quiet (Some Samples.listener)
           Samples.hello_chunks StreamEnded).
  repeat constructor.
Defined.

(** ** The CSV reader and the columns *)

Section Reader.

Import Service.

(** *** Array indices *)









(** *** The keys of a row after an assignment *)




















End Reader.


(** The keys of the rows read under a first line with two years and under
    one with the key [__proto__]. *)
Lemma parsed_rows_list_array_indices_first :
  map row_keys (Service.parseCSVToJSON
                  (Some (js "region,2024,2023" ++ [LF] ++ js "north,5,4"))) =
  [[js "2023"; js "2024"; js "region"]] /\
  Service.parseCSVToJSON (Some (js "__proto__,a" ++ [LF] ++ js "x,y")) =
  [[(js "a", js "y")]].
Proof. split; vm_compute; reflexivity. Qed.

Section Columns.




Lemma double_quotes_inj (f g : jsstring) : double_quotes f = double_quotes g -> f = g.
Proof.
  revert g. induction f as [|c f IH]; intros [|d g] H.
  - reflexivity.
  - simpl in H. destruct (N.eqb d quote); discriminate.
  - simpl in H. destruct (N.eqb c quote); discriminate.
  - cbn [double_quotes flat_map] in H. fold (double_quotes f) (double_quotes g) in H.
    destruct (N.eqb c quote) eqn:Ec, (N.eqb d quote) eqn:Ed; cbn [app] in H.
    + apply N.eqb_eq in Ec, Ed. subst. injection H as H. f_equal. now apply IH.
    + injection H as <- H. apply N.eqb_eq in Ec. subst c.
      now rewrite N.eqb_refl in Ed.
    + injection H as -> H. apply N.eqb_eq in Ed. subst d.
      now rewrite N.eqb_refl in Ec.
    + injection H as -> H. f_equal. now apply IH.
Qed.

Lemma unquoted_no_quote (f : jsstring) :
  existsb (N.eqb comma) f || existsb (N.eqb quote) f ||
  existsb (N.eqb LF) f || existsb (N.eqb CR) f = false ->
  ~ In quote f.
Proof.
  intros H Hin. apply orb_false_elim in H. destruct H as [H _].
  apply orb_false_elim in H. destruct H as [H _].
  apply orb_false_elim in H. destruct H as [_ H].
  assert (existsb (N.eqb quote) f = true); [|congruence].
  apply existsb_exists. exists quote. split; [exact Hin | apply N.eqb_refl].
Qed.

(** [X14] Escaping a CSV field loses nothing: two fields that are written
    the same are the same field. *)
Theorem escapeCSVField_is_injective (f g : jsstring) :
  Bot.escapeCSVField f = Bot.escapeCSVField g -> f = g.
Proof.
  unfold Bot.escapeCSVField.
  destruct (existsb (N.eqb comma) f || existsb (N.eqb quote) f ||
            existsb (N.eqb LF) f || existsb (N.eqb CR) f) eqn:Ef;
  destruct (existsb (N.eqb comma) g || existsb (N.eqb quote) g ||
            existsb (N.eqb LF) g || existsb (N.eqb CR) g) eqn:Eg; intro H.
  - cbn [app] in H. injection H as H. apply app_inj_tail in H. destruct H as [H _].
    now apply double_quotes_inj.
  - exfalso. apply (unquoted_no_quote _ Eg). rewrite <- H. now left.
  - exfalso. apply (unquoted_no_quote _ Ef). rewrite H. now left.
  - exact H.
Qed.

End Columns.

Lemma escapeCSVField_is_injective_witness :
  Bot.escapeCSVField (js "a,b") = Samples.jq "'a,b'" /\ js "a,b" = js "a,b".
Proof.
  split; [reflexivity|].
  apply (@escapeCSVField_is_injective (js "a,b") (js "a,b")). reflexivity.
Defined.

(** ** The table of a result *)

Section Table.

Import Teams.

Lemma w_lookup_update_same (col : jsstring) (v : Width) (ws : Widths) :
  w_lookup col (w_update col v ws) = v.
Proof.
  induction ws as [|[k v'] ws IH]; simpl.
  - now rewrite eqs_refl.
  - destruct (eqs col k) eqn:E; simpl; rewrite E; [reflexivity | exact IH].
Qed.

Lemma w_lookup_update_other (col col' : jsstring) (v : Width) (ws : Widths) :
  col <> col' -> w_lookup col (w_update col' v ws) = w_lookup col ws.
Proof.
  intro H. induction ws as [|[k v'] ws IH]; simpl.
  - now rewrite (eqs_neq H).
  - destruct (eqs col' k) eqn:E; simpl.
    + apply eqs_eq in E. subst k. now rewrite (eqs_neq H).
    + destruct (eqs col k); [reflexivity | exact IH].
Qed.

Lemma w_get_set_same (col : jsstring) (v : Width) (ws : Widths) :
  col <> proto -> w_get col (w_set col v ws) = v.
Proof.
  intro H. unfold w_get, w_set. rewrite (eqs_neq H). apply w_lookup_update_same.
Qed.

Lemma w_get_set_other (col col' : jsstring) (v : Width) (ws : Widths) :
  col <> col' -> w_get col (w_set col' v ws) = w_get col ws.
Proof.
  intro H. unfold w_get, w_set. destruct (eqs col proto); [reflexivity|].
  destruct (eqs col' proto); [reflexivity|]. now apply w_lookup_update_other.
Qed.

(** Under the key [__proto__] no width is ever a number. *)
Lemma w_get_proto (ws : Widths) : w_get proto ws = None.
Proof. unfold w_get. now rewrite eqs_refl. Qed.

(** A pass over the columns that updates each width from itself. *)
Lemma widths_pass (g : jsstring -> Width -> Width) (columns : list jsstring) :
  (forall col n, g col (g col n) = g col n) ->
  forall ws col,
    col <> proto ->
    w_get col (fold_left (fun ws' c => w_set c (g c (w_get c ws')) ws') columns ws) =
    if existsb (eqs col) columns then g col (w_get col ws) else w_get col ws.
Proof.
  intro Hg. induction columns as [|c cs IH]; intros ws col Hp; [reflexivity|].
  cbn [fold_left existsb]. rewrite IH by exact Hp.
  destruct (eqs col c) eqn:E.
  - apply eqs_eq in E. subst c. rewrite w_get_set_same by exact Hp. cbn [orb].
    destruct (existsb (eqs col) cs); [apply Hg | reflexivity].
  - cbn [orb]. assert (col <> c) by (intros ->; now rewrite eqs_refl in E).
    now rewrite w_get_set_other.
Qed.

(** The width of a column other than [__proto__]: the longest of its name
    and of its values, and at least 8. *)
Lemma calculateColumnWidths_get (columns : list jsstring) (data : list Row) (col : jsstring) :
  In col columns -> col <> proto ->
  w_get col (calculateColumnWidths columns data) =
  Some (Nat.max (fold_left (fun m row => Nat.max m (length (Bot.displayValue row col)))
                           data (length col)) 8).
Proof.
  intros Hin Hp. assert (Hc : existsb (eqs col) columns = true) by now apply existsb_eqs.
  unfold calculateColumnWidths.
  assert (Hmax : forall k (c : jsstring) (n : Width),
                   Math_max (Math_max n k) k = Math_max n k).
  { intros k c [n|]; cbn; [f_equal; lia | reflexivity]. }
  rewrite (@widths_pass (fun _ n => Math_max n 8) columns (Hmax 8) _ col Hp).
  rewrite Hc.
  assert (H0 : w_get col (fold_left (fun ws c => w_set c (Some (length c)) ws) columns []) =
               Some (length col)).
  { rewrite (@widths_pass (fun c _ => Some (length c)) columns (fun _ _ => eq_refl)
               _ col Hp).
    now rewrite Hc. }
  assert (H : forall n ws, w_get col ws = Some n ->
              w_get col (fold_left (fun ws row =>
                           fold_left (fun ws' c =>
                             w_set c (Math_max (w_get c ws')
                                               (length (Bot.displayValue row c))) ws')
                             columns ws) data ws) =
              Some (fold_left (fun m row => Nat.max m (length (Bot.displayValue row col)))
                              data n));
    [|now rewrite (H _ _ H0)].
  clear H0. induction data as [|row data IH]; intros n ws H0; [exact H0|].
  cbn [fold_left]. apply IH.
  rewrite (@widths_pass (fun c m => Math_max m (length (Bot.displayValue row c))) columns
             (fun c n => Hmax _ c n) _ col Hp).
  now rewrite Hc, H0.
Qed.

Lemma fold_max_le (f : Row -> nat) (data : list Row) (n : nat) :
  n <= fold_left (fun m row => Nat.max m (f row)) data n /\
  forall row, In row data -> f row <= fold_left (fun m row => Nat.max m (f row)) data n.
Proof.
  revert n. induction data as [|r data IH]; intro n; cbn [fold_left].
  - split; [lia | intros _ []].
  - destruct (IH (Nat.max n (f r))) as [I1 I2]. split; [lia|].
    intros row [<-|H]; [lia | now apply I2].
Qed.

Lemma padColumn_fits (text : jsstring) (width : nat) (truncate : bool) :
  length text <= width ->
  padColumn text (Some width) truncate = text ++ repeat 32%N (width - length text) /\
  length (padColumn text (Some width) truncate) = width.
Proof.
  intro H. unfold padColumn, padEnd.
  assert (E : (width <? length text) = false) by (apply Nat.ltb_ge; lia).
  rewrite E, !andb_false_r. split; [reflexivity|].
  rewrite length_app, repeat_length. lia.
Qed.

Lemma column_width_bounds (data : list Row) (col : jsstring) :
  In col (Bot.allColumns data) -> col <> proto ->
  exists width,
    w_get col (calculateColumnWidths (Bot.allColumns data) (firstn maxRows data)) =
    Some width /\
    8 <= width /\ length col <= width /\
    forall row, In row (firstn maxRows data) -> length (Bot.displayValue row col) <= width.
Proof.
  intros Hcol Hp. rewrite (@calculateColumnWidths_get _ _ _ Hcol Hp).
  eexists. split; [reflexivity|].
  destruct (fold_max_le (fun r => length (Bot.displayValue r col))
                        (firstn maxRows data) (length col)) as [H1 H2].
  cbv beta in H2. set (m := fold_left _ _ _) in *.
  split; [lia|]. split; [lia|]. intros row Hrow. specialize (H2 row Hrow). lia.
Qed.

(** [X15] In the table of a result no cell of a column other than
    [__proto__] is cut: the width of the column is a number, at least 8 and
    at least the length of its name and of each of its values among the
    rows shown, so that the name and every value are written in full and
    padded with spaces to the width of the column. *)
Theorem table_cells_hold_their_value_and_fill_their_column
        (data : list Row) (row : Row) (col : jsstring) :
  In row (firstn maxRows data) -> In col (Bot.allColumns data) -> col <> proto ->
  let value := Bot.displayValue row col in
  exists width,
    w_get col (calculateColumnWidths (Bot.allColumns data) (firstn maxRows data)) =
    Some width /\
    8 <= width /\
    padColumn col (Some width) true = col ++ repeat 32%N (width - length col) /\
    padColumn value (Some width) false = value ++ repeat 32%N (width - length value) /\
    length (padColumn col (Some width) true) = width /\
    length (padColumn value (Some width) false) = width.
Proof.
  intros Hrow Hcol Hp. cbv zeta.
  destruct (column_width_bounds data Hcol Hp) as (width & W & H1 & H2 & H3).
  specialize (H3 row Hrow). exists width.
  destruct (padColumn_fits col true H2) as [P1 P2].
  destruct (padColumn_fits (Bot.displayValue row col) false H3) as [P3 P4].
  repeat split; assumption.
Qed.

Lemma join_length_map (sep : jsstring) (f g : jsstring -> jsstring) (l : list jsstring) :
  (forall x, In x l -> length (f x) = length (g x)) ->
  length (join sep (map f l)) = length (join sep (map g l)).
Proof.
  induction l as [|x l IH]; intro H; [reflexivity|].
  assert (Hx : length (f x) = length (g x)) by (apply H; now left).
  assert (Hl : length (join sep (map f l)) = length (join sep (map g l)))
    by (apply IH; intros; apply H; now right).
  destruct l as [|y l]; [exact Hx|].
  cbn [map join] in *. rewrite !length_app. lia.
Qed.

Lemma fold_append {A : Type} (f : A -> jsstring) (l : list A) (t : jsstring) :
  fold_left (fun table x => table ++ f x) l t = t ++ flat_map f l.
Proof.
  revert t. induction l as [|x l IH]; intro t; cbn [fold_left flat_map].
  - now rewrite app_nil_r.
  - now rewrite IH, app_assoc.
Qed.

Lemma flat_map_of_map {A B C : Type} (f : A -> B) (g : B -> list C) (l : list A) :
  flat_map g (map f l) = flat_map (fun x => g (f x)) l.
Proof. induction l as [|x l IH]; [reflexivity|]. simpl. now rewrite IH. Qed.

(** [X16] The table of a result with at least one column is a fenced
    block of lines between bars: the names of the columns, a line of dashes
    and one line for each of the first twenty rows, followed by a note on
    the number of rows; when no column is named [__proto__], all the lines
    have the same length. *)
Theorem the_lines_of_a_table_have_the_same_length (data : list Row) :
  data <> [] -> Bot.allColumns data <> [] -> ~ In proto (Bot.allColumns data) ->
  let columns := Bot.allColumns data in
  let widths := calculateColumnWidths columns (firstn maxRows data) in
  let lines := headerRow columns widths :: separatorRow columns widths ::
               map (dataRow columns widths) (firstn maxRows data) in
  (exists note,
     formatDataAsTable data =
     [LF] ++ fence ++ [LF] ++ flat_map table_line lines ++ fence ++ [LF] ++ [LF] ++ note) /\
  forall line, In line lines -> length line = length (separatorRow columns widths).
Proof.
  intros Hd Hc Hp. cbv zeta. split.
  - unfold formatDataAsTable. destruct data as [|r0 data0]; [congruence|].
    set (data := r0 :: data0) in *.
    destruct (Bot.allColumns data) as [|c0 cs]; [congruence|].
    set (columns := c0 :: cs). cbv zeta. rewrite fold_append.
    destruct (maxRows <? length data); eexists;
      cbn [flat_map]; rewrite flat_map_of_map, <- !app_assoc; reflexivity.
  - assert (Hcols : forall col, In col (Bot.allColumns data) -> col <> proto)
      by (intros col Hcol ->; exact (Hp Hcol)).
    intros line [<-|[<-|H]].
    + unfold headerRow, separatorRow. apply join_length_map. intros col Hcol.
      destruct (column_width_bounds data Hcol (Hcols col Hcol)) as (width & -> & _ & H2 & _).
      cbn [dashes]. rewrite repeat_length. now apply padColumn_fits.
    + reflexivity.
    + apply in_map_iff in H. destruct H as (row & <- & Hrow).
      unfold dataRow, separatorRow. apply join_length_map. intros col Hcol.
      destruct (column_width_bounds data Hcol (Hcols col Hcol)) as (width & -> & _ & _ & H3).
      cbn [dashes]. rewrite repeat_length. now apply padColumn_fits, H3.
Qed.

End Table.

Lemma table_cells_hold_their_value_and_fill_their_column_witness :
  let row := [(js "a", js "3"); (js "c", js "a long value")] in
  let data := Samples.mixed_rows ++ [row] in
  Teams.w_get (js "c")
    (Teams.calculateColumnWidths (Bot.allColumns data) (firstn Teams.maxRows data)) =
  Some 12 /\
  Teams.padColumn (js "c") (Some 12) true = js "c           " /\
  Teams.padColumn (Bot.displayValue row (js "c")) (Some 12) false = js "a long value".
Proof.
  cbv zeta.
  destruct (@table_cells_hold_their_value_and_fill_their_column
              (Samples.mixed_rows ++ [[(js "a", js "3"); (js "c", js "a long value")]])
              [(js "a", js "3"); (js "c", js "a long value")] (js "c"))
    as (width & W & _ & H2 & H3 & _ & _).
  - vm_compute. auto.
  - vm_compute. auto.
  - discriminate.
  - assert (E : Some width = Some 12) by (rewrite <- W; vm_compute; reflexivity).
    injection E as ->. split; [exact W|]. split; [exact H2 | exact H3].
Defined.

Lemma the_lines_of_a_table_have_the_same_length_witness :
  let columns := Bot.allColumns Samples.mixed_rows in
  let widths := Teams.calculateColumnWidths columns (firstn Teams.maxRows Samples.mixed_rows) in
  length (Teams.headerRow columns widths) = 30 /\
  length (Teams.dataRow columns widths (hd [] Samples.mixed_rows)) = 30.
Proof.
  cbv zeta.
  destruct (@the_lines_of_a_table_have_the_same_length Samples.mixed_rows)
    as [_ H]; [discriminate | discriminate | |].
  - vm_compute. intros [H|[H|[H|[]]]]; discriminate.
  - split.
    + rewrite H by (now left). vm_compute. reflexivity.
    + rewrite H by (right; right; now left). vm_compute. reflexivity.
Defined.

(** A column named [__proto__] has no width: its cells are not padded and
    it has no dashes, so that the lines differ in length. *)
Lemma a_proto_column_is_not_padded :
  let data := [[(proto, js "x")]] in
  let columns := Bot.allColumns data in
  let widths := Teams.calculateColumnWidths columns data in
  columns = [proto] /\
  Teams.w_get proto widths = None /\
  Teams.headerRow columns widths = proto /\
  Teams.separatorRow columns widths = [] /\
  Teams.dataRow columns widths [(proto, js "x")] = js "x".
Proof. cbv zeta. repeat split; vm_compute; reflexivity. Qed.

(** ** The cleaning of a question *)

Section Sanitize.

Import Teams.

Lemma strip_semicolons_none (s : jsstring) :
  last s 0%N <> semicolon -> strip_semicolons s = s.
Proof.
  intro H. unfold strip_semicolons.
  destruct s as [|c s]; [reflexivity|].
  rewrite (app_removelast_last 0%N (l := c :: s)) in * by discriminate.
  rewrite last_last in H. rewrite rev_unit. cbn [dropWhile].
  destruct (N.eqb semicolon (last (c :: s) 0%N)) eqn:E.
  - apply N.eqb_eq in E. congruence.
  - rewrite <- rev_unit. apply rev_involutive.
Qed.

Lemma strip_line_comments_none (s : jsstring) :
  includes s (js "--") = false -> strip_line_comments false s = s.
Proof.
  induction s as [|c s IH]; [reflexivity|]. intro H.
  cbn [includes] in H. apply orb_false_elim in H. destruct H as [H1 H2].
  cbn [strip_line_comments]. rewrite H1, (IH H2). reflexivity.
Qed.

Lemma strip_block_comments_none (s : jsstring) :
  includes s (js "/*") = false -> strip_block_comments Outside s = s.
Proof.
  induction s as [|c s IH]; [reflexivity|]. intro H.
  cbn [includes] in H. apply orb_false_elim in H. destruct H as [H1 H2].
  cbn [strip_block_comments]. rewrite H1, (IH H2). reflexivity.
Qed.

(** [X17] A question that, once trimmed, does not end in a semicolon and
    holds neither two dashes in a row nor a slash followed by a star
    reaches the service as it is, trimmed. *)
Theorem a_plain_question_is_only_trimmed (q : jsstring) :
  last (trim q) 0%N <> semicolon ->
  includes (trim q) (js "--") = false ->
  includes (trim q) (js "/*") = false ->
  sanitizeQuery (Some q) = trim q.
Proof.
  intros H1 H2 H3. unfold sanitizeQuery.
  now rewrite (strip_semicolons_none _ H1), (strip_line_comments_none _ H2),
    (strip_block_comments_none _ H3).
Qed.

Lemma subseq_refl (s : jsstring) : subseq s s.
Proof. induction s; constructor; assumption. Qed.

Lemma subseq_trans (s t u : jsstring) : subseq s t -> subseq t u -> subseq s u.
Proof.
  intros H1 H2. revert s H1. induction H2 as [|c t u _ IH|c t u _ IH]; intros s H1.
  - exact H1.
  - inversion H1; subst; constructor; apply IH; assumption.
  - constructor. apply IH. exact H1.
Qed.

Lemma subseq_app (s t s' t' : jsstring) :
  subseq s t -> subseq s' t' -> subseq (s ++ s') (t ++ t').
Proof.
  intros H H'. induction H; simpl; [exact H' | now constructor | now constructor].
Qed.

Lemma subseq_rev (s t : jsstring) : subseq s t -> subseq (rev s) (rev t).
Proof.
  induction 1 as [|c s t _ IH|c s t _ IH]; simpl.
  - constructor.
  - apply subseq_app; [exact IH | apply subseq_refl].
  - rewrite <- (app_nil_r (rev s)). apply subseq_app; [exact IH|].
    constructor. constructor.
Qed.

Lemma subseq_dropWhile (p : N -> bool) (s : jsstring) : subseq (dropWhile p s) s.
Proof.
  induction s as [|c s IH]; [constructor|]. simpl.
  destruct (p c); [now constructor | apply subseq_refl].
Qed.

Lemma subseq_dropWhile_end (p : N -> bool) (s : jsstring) :
  subseq (rev (dropWhile p (rev s))) s.
Proof.
  rewrite <- (rev_involutive s) at 2. apply subseq_rev, subseq_dropWhile.
Qed.

Lemma subseq_trim (s : jsstring) : subseq (trim s) s.
Proof.
  unfold trim, trimEnd, trimStart.
  eapply subseq_trans; [apply subseq_dropWhile_end | apply subseq_dropWhile].
Qed.

Lemma subseq_strip_line_comments (b : bool) (s : jsstring) :
  subseq (strip_line_comments b s) s.
Proof.
  revert b. induction s as [|c s IH]; intro b; [constructor|].
  cbn [strip_line_comments].
  destruct b; [destruct (is_line_terminator c) | destruct (startsWith (js "--") (c :: s))];
    constructor; apply IH.
Qed.

Lemma subseq_strip_block_comments (m : BlockScan) (s : jsstring) :
  subseq (strip_block_comments m s) s.
Proof.
  revert m. induction s as [|c s IH]; intro m; [destruct m; constructor|].
  cbn [strip_block_comments].
  destruct m;
    [destruct (startsWith (js "/*") (c :: s) && includes (skipn 2 (c :: s)) (js "*/"))
    | | destruct (startsWith (js "*/") (c :: s)) | ];
    constructor; apply IH.
Qed.

(** [X18] Cleaning a question only takes code units away: the result is the
    question with some of its code units left out, the others in their
    order; a question that is not a string gives the empty string. *)
Theorem sanitizeQuery_only_takes_away (q : jsstring) :
  subseq (sanitizeQuery (Some q)) q /\ sanitizeQuery None = [].
Proof.
  split; [|reflexivity]. unfold sanitizeQuery, strip_semicolons.
  eapply subseq_trans; [apply subseq_strip_block_comments|].
  eapply subseq_trans; [apply subseq_strip_line_comments|].
  eapply subseq_trans; [apply subseq_dropWhile_end | apply subseq_trim].
Qed.

End Sanitize.

Lemma a_plain_question_is_only_trimmed_witness :
  Teams.sanitizeQuery (Some (js "  What were the top 5 products by revenue last month?  ")) =
  js "What were the top 5 products by revenue last month?".
Proof.
  apply (@a_plain_question_is_only_trimmed
           (js "  What were the top 5 products by revenue last month?  "));
    [vm_compute; discriminate | reflexivity | reflexivity].
Defined.

(** ** From the question to the answer *)

Section Answer.

Import Teams.

Variable fs : Files.
Variable w : World.

Lemma callCortexAgentsAPI_starts (q : jsstring) (od : option Observer) :
  exists t, snd (Service.callCortexAgentsAPI w q od) = EGetAccessToken :: t.
Proof.
  unfold Service.callCortexAgentsAPI.
  destruct (getSnowflakeAccessToken w) as [[|c t]| |]; try (eexists; reflexivity).
  destruct (CORTEX_AGENTS_AGENT_NAME w) as [[|c' n]|]; try (eexists; reflexivity).
  destruct (getAgentConfiguration w (c' :: n)); try (eexists; reflexivity).
  destruct (Service.handle_response w od). eexists. reflexivity.
Qed.

Lemma queryWithCortexAgents_starts (q : jsstring) (od : option Observer) :
  exists t, snd (Service.queryWithCortexAgents w q od) = EGetAccessToken :: t.
Proof.
  unfold Service.queryWithCortexAgents.
  destruct (callCortexAgentsAPI_starts q od) as [t H].
  destruct (Service.callCortexAgentsAPI w q od) as [[r|] t0]; cbn [snd] in *.
  - now exists t.
  - destruct (Service.fallbackToBasicQuery w q) as [r t']. cbn [snd]. rewrite H.
    eexists. reflexivity.
Qed.

(** [X19] A question that is empty once cleaned never reaches the service:
    the bot answers with the request for a question and does nothing else.
    Any other question starts with the request for an access token. *)
Theorem an_empty_question_never_reaches_the_service
        (query : option jsstring) (onDelta : option BotObserver) :
  let run := processSnowflakeQueryWithStreaming fs w query onDelta in
  match sanitizeQuery query with
  | [] => run = (ask_for_a_question, [])
  | _ :: _ => exists t, snd run = InService EGetAccessToken :: t
  end.
Proof.
  cbv zeta. unfold processSnowflakeQueryWithStreaming.
  destruct (sanitizeQuery query) as [|c s]; [reflexivity|]. cbn [truthy negb].
  destruct (queryWithCortexAgents_starts (c :: s) (deltaCallback onDelta)) as [t H].
  destruct (Service.queryWithCortexAgents w (c :: s) (deltaCallback onDelta)) as [r t0].
  cbn [snd] in H. subst t0. cbn [through_callback flat_map app].
  destruct (formatSnowflakeResponse fs r) as [text|main th].
  - eexists. reflexivity.
  - destruct onDelta as [f|]; [|eexists; reflexivity].
    destruct (truthy th); [|eexists; reflexivity].
    destruct (f (ThinkingComplete th)); eexists; reflexivity.
Qed.

Lemma thinking_text_truthy (r : SynthesizedResult) :
  truthy (formatSingleResponse fs r true) = true.
Proof.
  unfold formatSingleResponse. destruct (summary r) eqn:E; reflexivity.
Qed.

(** [X20] When the service returns an answer and a reasoning message, the
    bot tells the observer the reasoning last, as one [thinking_complete]
    notification that holds the summary of the reasoning message, and
    returns the text of the answer; when the observer throws on that
    notification the answer is lost and the bot returns its apology. *)
Theorem the_reasoning_is_told_once_the_answer_is_ready
        (query : option jsstring) (f : BotObserver)
        (main reasoning : SynthesizedResult) (t : list Effect) :
  sanitizeQuery query <> [] ->
  Service.queryWithCortexAgents w (sanitizeQuery query) (deltaCallback (Some f)) =
    (Multi main reasoning, t) ->
  summary reasoning <> [] ->
  let told := Told (ThinkingComplete (summary reasoning)) in
  processSnowflakeQueryWithStreaming fs w query (Some f) =
  if f (ThinkingComplete (summary reasoning))
  then (processing_failed, through_callback (Some f) t ++ [told; ProcessingError])
  else (formatSingleResponse fs main false, through_callback (Some f) t ++ [told]).
Proof.
  intros Hq Hr Hs. cbv zeta. unfold processSnowflakeQueryWithStreaming.
  destruct (sanitizeQuery query) as [|c s]; [congruence|]. cbn [truthy negb].
  rewrite Hr. cbn [formatSnowflakeResponse].
  rewrite thinking_text_truthy.
  assert (E : formatSingleResponse fs reasoning true = summary reasoning).
  { unfold formatSingleResponse. destruct (summary reasoning); [congruence | reflexivity]. }
  rewrite E. reflexivity.
Qed.

End Answer.

Lemma the_reasoning_is_told_once_the_answer_is_ready_witness :
  fst (Teams.processSnowflakeQueryWithStreaming Cases.no_files Cases.thinking_world
         (Some (js "How many orders?")) (Some Cases.deaf_to_reasoning)) =
  Teams.processing_failed.
Proof.
  pose proof (@the_reasoning_is_told_once_the_answer_is_ready
                Cases.no_files Cases.thinking_world (Some (js "How many orders?"))
                Cases.deaf_to_reasoning) as H.
  specialize (H _ _ _ ltac:(vm_compute; discriminate) ltac:(vm_compute; reflexivity)
                ltac:(vm_compute; discriminate)).
  cbv zeta in H. rewrite H. reflexivity.
Defined.

(** ** Authentication *)

Section Tokens.

Import Service.

Variable w : World.

Lemma fallback_is_a_fallback (q : jsstring) :
  source (fst (fallbackToBasicQuery w q)) = fallback_query \/
  source (fst (fallbackToBasicQuery w q)) = error_fallback.
Proof.
  unfold fallbackToBasicQuery. destruct (connect_ok w); [|now right].
  cbn [executeQuery]. destruct (connection_execute w (tablesQuery w)); [now left | now right].
Qed.

(** [X21] The token provider never throws, and with a password only, or
    with no credential at all, it gives no token: the agent is then never
    called and no configuration is looked up, every question being
    answered by the fallback. *)
Theorem password_authentication_never_reaches_the_agent
        (env : Account.Env) (sign : option jsstring) (q : jsstring)
        (onDelta : option Observer) :
  getSnowflakeAccessToken w = Account.getSnowflakeAccessToken env sign ->
  Account.getAuthenticationMethod env = Account.password \/
  Account.getAuthenticationMethod env = Account.none ->
  let run := queryWithCortexAgents w q onDelta in
  getSnowflakeAccessToken w = TokenNull /\
  fst run = Single (fst (fallbackToBasicQuery w q)) /\
  (source (main_of (fst run)) = fallback_query \/
   source (main_of (fst run)) = error_fallback) /\
  ~ In EPost (snd run) /\ config_lookups (snd run) = [].
Proof.
  intros Hw Hm. cbv zeta.
  assert (Ht : getSnowflakeAccessToken w = TokenNull).
  { rewrite Hw. unfold Account.getSnowflakeAccessToken.
    destruct Hm as [-> | ->]; reflexivity. }
  split; [exact Ht|].
  pose proof (fallback_is_a_fallback q) as Hs.
  unfold queryWithCortexAgents, callCortexAgentsAPI. rewrite Ht.
  destruct (fallbackToBasicQuery w q) as [r t] eqn:E. cbn [fst snd main_of] in *.
  split; [reflexivity|]. split; [exact Hs|].
  assert (Hp : ~ In EPost t /\ config_lookups t = []).
  { revert E. unfold fallbackToBasicQuery. destruct (connect_ok w).
    - cbn [executeQuery]. destruct (connection_execute w (tablesQuery w));
        intro E; injection E as _ <-; (split; [|reflexivity]);
        cbn; intuition discriminate.
    - intro E; injection E as _ <-. split; [|reflexivity]. cbn. intuition discriminate. }
  destruct Hp as [Hp1 Hp2]. split.
  - intros [H|H]; [discriminate | exact (Hp1 H)].
  - exact Hp2.
Qed.

End Tokens.

Section AccountIdentifier.

Lemma split1_head (sep : N) (s : jsstring) :
  ~ In sep (hd [] (split1 sep s)) /\
  (s = hd [] (split1 sep s) \/ exists rest, s = hd [] (split1 sep s) ++ sep :: rest).
Proof.
  induction s as [|c s [IH1 IH2]]; [split; [intros [] | now left]|].
  cbn [split1]. destruct (N.eqb c sep) eqn:E.
  - apply N.eqb_eq in E. subst c. cbn [hd]. split; [intros []|].
    right. now exists s.
  - assert (c <> sep) by now apply N.eqb_neq.
    destruct (split1 sep s) as [|h tl]; cbn [cons_hd hd] in *.
    + split; [intros [?|[]]; congruence|].
      destruct IH2 as [->|[rest ->]]; [now left | right; now exists rest].
    + split; [intros [?|?]; [congruence | now apply IH1]|].
      destruct IH2 as [->|[rest ->]]; [now left | right; now exists rest].
Qed.

(** [X22] The account identifier is the account up to its first dot: it
    holds no dot, and the account is the identifier alone or the identifier
    followed by a dot and the rest. *)
Theorem the_account_identifier_stops_at_the_first_dot (env : Account.Env) :
  let account := Account.SNOWFLAKE_ACCOUNT env in
  let identifier := Account.extractAccountIdentifier env in
  ~ In Account.dot identifier /\
  (account = identifier \/ exists rest, account = identifier ++ Account.dot :: rest).
Proof.
  cbv zeta. unfold Account.extractAccountIdentifier.
  destruct (includes (Account.SNOWFLAKE_ACCOUNT env) [Account.dot]) eqn:E.
  - apply split1_head.
  - split; [|now left]. intro Hin.
    assert (includes (Account.SNOWFLAKE_ACCOUNT env) [Account.dot] = true); [|congruence].
    clear E. induction (Account.SNOWFLAKE_ACCOUNT env) as [|c s IH]; [destruct Hin|].
    cbn [includes startsWith]. destruct Hin as [->|Hin].
    + now rewrite N.eqb_refl.
    + rewrite (IH Hin). apply orb_true_r.
Qed.

End AccountIdentifier.

Lemma password_authentication_never_reaches_the_agent_witness :
  let w := Samples.world Samples.no_rows
             (Account.getSnowflakeAccessToken Cases.password_env (Some (js "jwt")))
             (Some (js "agent")) HttpThrows in
  let run := Service.queryWithCortexAgents w (js "How many orders?") None in
  source (main_of (fst run)) = fallback_query /\ ~ In EPost (snd run).
Proof.
  cbv zeta.
  destruct (@password_authentication_never_reaches_the_agent
              (Samples.world Samples.no_rows
                 (Account.getSnowflakeAccessToken Cases.password_env (Some (js "jwt")))
                 (Some (js "agent")) HttpThrows)
              Cases.password_env (Some (js "jwt")) (js "How many orders?") None
              eq_refl (or_introl eq_refl)) as (_ & _ & _ & H4 & _).
  split; [reflexivity | exact H4].
Defined.

(** ** Failed calls *)

Section Failures.

Import Service.

Variable w : World.

Lemma fallback_trace (q : jsstring) :
  emitted (snd (fallbackToBasicQuery w q)) = [] /\
  observed (snd (fallbackToBasicQuery w q)) = [] /\
  ~ In EPost (snd (fallbackToBasicQuery w q)).
Proof.
  unfold fallbackToBasicQuery. destruct (connect_ok w).
  - cbn [executeQuery]. destruct (connection_execute w (tablesQuery w));
      (split; [reflexivity|]; split; [reflexivity|]); cbn; intuition discriminate.
  - split; [reflexivity|]. split; [reflexivity|]. cbn. intuition discriminate.
Qed.

Lemma on_data_emits (onDelta : option Observer) (chunks : list Buffer) (fin : StreamEnd) :
  emitted (snd (processStreamingResponse w chunks fin onDelta)) =
  emitted (snd (for_of (on_data w onDelta) stream_init chunks)).
Proof.
  unfold processStreamingResponse.
  destruct (for_of (on_data w onDelta) stream_init chunks) as [st t].
  destruct fin; [|reflexivity].
  destruct (on_end_warehouse_only w st) as (W1 & _ & _).
  destruct (on_end w st) as [r t']. cbn [snd] in *.
  now rewrite emitted_app, W1, app_nil_r.
Qed.

(** [X25] When the stream of the agent breaks, no partial answer is made:
    the deltas decoded from the chunks received have been emitted, and the
    question is answered by the fallback. *)
Theorem a_broken_stream_is_answered_by_the_fallback
        (q : jsstring) (onDelta : option Observer) (c c' : N) (token name : jsstring)
        (status : nat) (chunks : list Buffer) :
  getSnowflakeAccessToken w = TokenValue (c :: token) ->
  CORTEX_AGENTS_AGENT_NAME w = Some (c' :: name) ->
  getAgentConfiguration w (c' :: name) = ConfigFound ->
  axios_post w = HttpResponse status (DataStream chunks StreamFailed) ->
  status < 400 ->
  let run := queryWithCortexAgents w q onDelta in
  fst run = Single (fst (fallbackToBasicQuery w q)) /\
  emitted (snd run) =
    emitted (snd (processStreamingResponse w chunks StreamEnded onDelta)).
Proof.
  intros Ht Hn Hc Hp Hs. cbv zeta.
  unfold queryWithCortexAgents, callCortexAgentsAPI. rewrite Ht, Hn, Hc.
  unfold handle_response. rewrite Hp.
  assert (E : (400 <=? status) = false) by (apply Nat.leb_gt; exact Hs). rewrite E.
  rewrite (on_data_emits onDelta chunks StreamEnded),
    <- (on_data_emits onDelta chunks StreamFailed).
  unfold processStreamingResponse.
  destruct (for_of (on_data w onDelta) stream_init chunks) as [st t].
  destruct (fallback_trace q) as (F1 & _ & _).
  destruct (fallbackToBasicQuery w q) as [r t']. cbn [fst snd] in *.
  split; [reflexivity|].
  rewrite !emitted_app, F1, app_nil_r. reflexivity.
Qed.

(** [X26] A call that throws or that comes back with a status of 400 or
    more is answered by the fallback, whatever its body holds: nothing is
    decoded and the observer is not called. *)
Theorem a_refused_call_is_answered_by_the_fallback
        (q : jsstring) (onDelta : option Observer) (c c' : N) (token name : jsstring) :
  getSnowflakeAccessToken w = TokenValue (c :: token) ->
  CORTEX_AGENTS_AGENT_NAME w = Some (c' :: name) ->
  getAgentConfiguration w (c' :: name) = ConfigFound ->
  match axios_post w with
  | HttpThrows => True
  | HttpResponse status _ => 400 <= status
  end ->
  let run := queryWithCortexAgents w q onDelta in
  fst run = Single (fst (fallbackToBasicQuery w q)) /\
  emitted (snd run) = [] /\ observed (snd run) = [].
Proof.
  intros Ht Hn Hc Hp. cbv zeta.
  unfold queryWithCortexAgents, callCortexAgentsAPI. rewrite Ht, Hn, Hc.
  unfold handle_response.
  destruct (fallback_trace q) as (F1 & F2 & _).
  destruct (axios_post w) as [|status body].
  - destruct (fallbackToBasicQuery w q) as [r t']. cbn [fst snd] in *.
    split; [reflexivity|]. split; assumption.
  - assert (E : (400 <=? status) = true) by (apply Nat.leb_le; exact Hp). rewrite E.
    destruct (fallbackToBasicQuery w q) as [r t']. cbn [fst snd] in *.
    split; [reflexivity|]. split; assumption.
Qed.

End Failures.

Lemma a_broken_stream_is_answered_by_the_fallback_witness :
  let run := Service.queryWithCortexAgents Cases.broken_stream (js "How many orders?")
               (Some Samples.listener) in
  source (main_of (fst run)) = fallback_query /\
  emitted (snd run) = [Samples.hello_delta].
Proof.
  cbv zeta.
  destruct (@a_broken_stream_is_answered_by_the_fallback
              Cases.broken_stream (js "How many orders?") (Some Samples.listener)
              _ _ _ _ _ _ eq_refl eq_refl eq_refl eq_refl ltac:(vm_compute; lia))
    as [H1 H2].
  rewrite H1, H2. split; vm_compute; reflexivity.
Defined.

Lemma a_refused_call_is_answered_by_the_fallback_witness :
  let w := Samples.world Samples.no_rows (TokenValue (js "jwt")) (Some (js "agent"))
             (HttpResponse 503 (DataString (Samples.frame Samples.p_hello))) in
  emitted (snd (Service.queryWithCortexAgents w (js "How many orders?")
                  (Some Samples.listener))) = [].
Proof.
  cbv zeta.
  destruct (@a_refused_call_is_answered_by_the_fallback
              (Samples.world Samples.no_rows (TokenValue (js "jwt")) (Some (js "agent"))
                 (HttpResponse 503 (DataString (Samples.frame Samples.p_hello))))
              (js "How many orders?") (Some Samples.listener) _ _ _ _
              eq_refl eq_refl eq_refl ltac:(vm_compute; lia)) as (_ & H & _).
  exact H.
Defined.

(** ** Long answers in several messages *)

Section Chunks.

Import Teams.









































End Chunks.



(** ** The two decoders emit the same deltas *)

Section SameDeltas.

Import Service.

Variable w : World.

Lemma stream_events_skip od (evs : list jsstring) : forall st,
  for_of (stream_event w od) st evs =
  for_of (stream_event w od) st (filter stream_relevant evs).
Proof.
  induction evs as [|e evs IH]; intro st; [reflexivity|].
  cbn [filter]. destruct (stream_relevant e) eqn:R.
  - cbn [for_of]. destruct (stream_event w od st e) as [s1 t1]. now rewrite IH.
  - cbn [for_of]. rewrite (stream_event_irrelevant w od st e R). rewrite IH.
    destruct (for_of (stream_event w od) st (filter stream_relevant evs)). reflexivity.
Qed.

Lemma sse_events_skip od (evs : list jsstring) : forall st,
  fst (for_of (sse_event w od) st evs) =
  fst (for_of (sse_event w od) st (filter stream_relevant evs)) /\
  emitted (snd (for_of (sse_event w od) st evs)) =
  emitted (snd (for_of (sse_event w od) st (filter stream_relevant evs))).
Proof.
  induction evs as [|e evs IH]; intro st; [split; reflexivity|].
  cbn [filter]. destruct (stream_relevant e) eqn:R.
  - cbn [for_of]. destruct (sse_event w od st e) as [s1 t1].
    destruct (IH s1) as [I1 I2].
    destruct (for_of (sse_event w od) s1 evs) as [s2 t2].
    destruct (for_of (sse_event w od) s1 (filter stream_relevant evs)) as [s3 t3].
    cbn [fst snd] in *. split; [exact I1|]. now rewrite !emitted_app, I2.
  - cbn [for_of]. rewrite relevant_same in R.
    destruct (sse_event_irrelevant w od st e R) as (t & -> & Ht & _).
    destruct (IH st) as [I1 I2].
    destruct (for_of (sse_event w od) st evs) as [s2 t2].
    cbn [fst snd] in *. split; [exact I1|]. now rewrite emitted_app, Ht.
Qed.

(** On frames that all carry a payload the two loops emit the same
    deltas and count alike. *)
Lemma same_deltas_on_frames od od' (evs : list jsstring) : forall st pst,
  s_deltaIndex st = deltaCount pst ->
  Forall (fun e => stream_relevant e = true /\ match_data e <> None) evs ->
  emitted (snd (for_of (stream_event w od) st evs)) =
  emitted (snd (for_of (sse_event w od') pst evs)).
Proof.
  induction evs as [|e evs IH]; intros st pst Hi Hall; [reflexivity|].
  inversion Hall as [|? ? [R M] Hall']; subst.
  cbn [for_of].
  assert (H : exists st1 pst1 t1 u1,
             stream_event w od st e = (st1, t1) /\ sse_event w od' pst e = (pst1, u1) /\
             s_deltaIndex st1 = deltaCount pst1 /\ emitted t1 = emitted u1).
  { unfold stream_event, sse_event.
    pose proof R as R'. rewrite relevant_same in R'.
    unfold stream_relevant in R. unfold sse_relevant in R'. rewrite R, R'.
    destruct (match_data e) as [p|]; [|congruence].
    destruct (JSON_parse_delta w p) as [dd|].
    - eexists _, _, _, _. split; [reflexivity|]. split; [reflexivity|]. split.
      + destruct (delta_content dd) as [cs|].
        * rewrite fold_route_index.
          destruct (fold_sse_route_count w cs
                      (sse_push (sse_bump pst)
                         (individualDelta (deltaCount (sse_bump pst)) dd))) as [-> _].
          cbn. now rewrite Hi.
        * cbn. now rewrite Hi.
      + destruct (call_onDelta_silent od
                    (NDelta (individualDelta (s_deltaIndex (stream_bump st)) dd))
                    (or_introl eq_refl)) as (E1 & _ & _).
        destruct (call_onDelta_silent od'
                    (NDelta (individualDelta (deltaCount (sse_bump pst)) dd))
                    (or_introl eq_refl)) as (E2 & _ & _).
        change (EDelta ?d :: ?x) with ([EDelta d] ++ x).
        rewrite !emitted_app, E1, E2. cbn. now rewrite Hi.
    - eexists _, _, _, _. split; [reflexivity|]. split; [reflexivity|]. split.
      + cbn. now rewrite Hi.
      + reflexivity. }
  destruct H as (st1 & pst1 & t1 & u1 & -> & -> & Hi1 & He).
  specialize (IH st1 pst1 Hi1 Hall').
  destruct (for_of (stream_event w od) st1 evs) as [s2 t2].
  destruct (for_of (sse_event w od') pst1 evs) as [p2 u2].
  cbn [snd] in *. now rewrite !emitted_app, He, IH.
Qed.

Lemma filter_relevant_nonblank (evs : list jsstring) :
  filter stream_relevant (filter (fun event => truthy (trim event)) evs) =
  filter stream_relevant evs.
Proof.
  induction evs as [|e evs IH]; [reflexivity|]. cbn [filter].
  destruct (truthy (trim e)) eqn:T.
  - cbn [filter]. now rewrite IH.
  - unfold stream_relevant at 2. rewrite T. cbn [andb]. exact IH.
Qed.

Lemma filter_removelast {A : Type} (p : A -> bool) (l : list A) (d : A) :
  p (last l d) = false -> filter p (removelast l) = filter p l.
Proof.
  intro H. destruct l as [|x l]; [reflexivity|].
  rewrite (app_removelast_last d (l := x :: l)) at 2 by discriminate.
  rewrite filter_app. cbn [filter]. now rewrite H, app_nil_r.
Qed.

(** [X30] When the text ends on a frame boundary and every relevant frame
    carries a payload after [data:], the stream handler emits the very
    deltas, with the same indices, that the buffered parser returns for
    the same text; a payload that does not parse takes an index on both
    sides. *)
Theorem both_decoders_emit_the_same_deltas
        (chunks : list Buffer) (onDelta onDelta' : option Observer) :
  stream_relevant (last (events_of (stream_text chunks)) []) = false ->
  (forall event, In event (events_of (stream_text chunks)) ->
                 stream_relevant event = true -> match_data event <> None) ->
  emitted (snd (processStreamingResponse w chunks StreamEnded onDelta)) =
  r_deltas (fst (parseSSEResponse w (stream_text chunks) onDelta')).
Proof.
  intros Hlast Hdata.
  set (frames := filter stream_relevant (events_of (stream_text chunks))).
  assert (Hall : Forall (fun e => stream_relevant e = true /\ match_data e <> None) frames).
  { apply Forall_forall. intros e He. apply filter_In in He. destruct He as [He R].
    split; [exact R | now apply Hdata]. }
  transitivity (emitted (snd (for_of (stream_event w onDelta) stream_init frames))).
  - rewrite (on_data_emits w onDelta chunks StreamEnded).
    rewrite stream_run.
    destruct (for_of (stream_event w onDelta) stream_init (stream_frames chunks))
      as [st t] eqn:E. cbn [snd].
    rewrite stream_events_skip in E. unfold stream_frames in E.
    fold (stream_text chunks) in E.
    rewrite (filter_removelast stream_relevant _ [] Hlast) in E.
    fold frames in E. now rewrite E.
  - rewrite (same_deltas_on_frames onDelta onDelta' stream_init sse_init eq_refl Hall).
    unfold parseSSEResponse.
    pose proof (sse_events_deltas w onDelta' (sse_events (stream_text chunks)) sse_init) as D.
    destruct (sse_events_skip onDelta' (sse_events (stream_text chunks)) sse_init) as [_ S].
    unfold sse_events in S at 2. rewrite filter_relevant_nonblank in S.
    fold (events_of (stream_text chunks)) in S. fold frames in S.
    destruct (for_of (sse_event w onDelta') sse_init (sse_events (stream_text chunks)))
      as [pst u].
    cbn [fst snd r_deltas] in *. rewrite D. cbn [deltas sse_init app]. now rewrite S.
Qed.

End SameDeltas.

Lemma both_decoders_emit_the_same_deltas_witness :
  emitted (snd (Service.processStreamingResponse Samples.quiet
                  Samples.corrupt_middle_chunks StreamEnded None)) =
  Service.r_deltas (fst (Service.parseSSEResponse Samples.quiet
                           (stream_text Samples.corrupt_middle_chunks) None)).
Proof.
  apply (@both_decoders_emit_the_same_deltas Samples.quiet Samples.corrupt_middle_chunks
           None None).
  - vm_compute. reflexivity.
  - intros event H R. vm_compute in H.
    destruct H as [<-|[<-|[<-|[<-|[]]]]];
      first [vm_compute; discriminate | vm_compute in R; discriminate].
Defined.
